(** * LobsterShell: request-governance core, embedded in Rocq

    A shallow embedding of the Python sources of the LobsterShell
    request-governance pipeline and the properties stated about them:

    - [Py]         Python values the sources compute with: [str] as a list
                   of code points, [dict] as an insertion-ordered
                   association list, exceptions as an error result
                   ([PyFacts]: substring and case-conversion lemmas);
    - [Security]   soul_architecture/layered_security.py
                   (the phased, fail-fast security gate);
    - [Overwrite]  soul_architecture/zero_hallucination_overwriter.py
                   (read-only SQL runner, placeholder overwrite);
    - [Tools]      core/interfaces/tool_interface.py, core/tool_runtime/
                   (registry and permission-checked executor);
    - [Audit]      soul_architecture/audit_chain.py (hash-linked ledger);
    - [ModeEngine] soul_architecture/dynamic_mode_engine.py
                   (sensitivity analysis and mode decision);
    - [Core]       soul_architecture/soul_core.py
                   (the execution core, which takes a request through the
                   mode decision, the gate, an executor and the overwrite,
                   and records it in the audit chain).

    Every module gives the model of its source file first and the facts
    about it after; the objects that the statements are run on come last.
    What belongs to the interpreter and not to the repository (Unicode
    tables, the regular-expression engine, SHA-256 over JSON, string
    hashing, the printing of floats) enters as an interface, and every
    general statement holds for all its implementations. *)

From Stdlib Require Import ZArith NArith QArith Qround Qminmax Lia Lqa Bool List.
From Stdlib Require Import Strings.String Strings.Ascii.
From stdpp Require Import base decidable option list functions gmap strings fin_maps sets.

Set Default Proof Using "Type".
Set Warnings "-register-all".
Open Scope N_scope.

(* ===================================================================== *)
(** * Python values                                                       *)
(* ===================================================================== *)

Module Py.

(** A Python [str] is a sequence of Unicode code points. *)
Definition pystr := list N.

(** ASCII literals of the sources are written as Rocq strings. *)
Fixpoint lit (s : string) : pystr :=
  match s with
  | EmptyString => []
  | String a s' => N_of_ascii a :: lit s'
  end.

(** What the Python runtime knows about the code points above U+007F: the
    full case mappings used by [str.upper] and [str.lower] (the lowering of
    a code point may depend on its position in the string: final sigma),
    and which of them [\w] accepts.  They are tables of the interpreter, not
    of this repository, so the model takes them as an interface. *)
Class UnicodeTables := {
  unicode_upper : pystr -> nat -> list N;
  unicode_lower : pystr -> nat -> list N;
  unicode_alnum : N -> bool;
}.

Definition is_ascii (c : N) : bool := c <? 128.

Definition ascii_upper (c : N) : N :=
  if (97 <=? c) && (c <=? 122) then c - 32 else c.

Definition ascii_lower (c : N) : N :=
  if (65 <=? c) && (c <=? 90) then c + 32 else c.

(** A case conversion maps every ASCII code point by [asc] and asks the
    table [uni] for the others. *)
Definition case_map (asc : N -> N) (uni : nat -> list N) (s : pystr) : pystr :=
  mjoin (imap (fun i c => if is_ascii c then [asc c] else uni i) s).

(** [s.upper()] and [s.lower()]. *)
Definition upper `{UnicodeTables} (s : pystr) : pystr :=
  case_map ascii_upper (unicode_upper s) s.

Definition lower `{UnicodeTables} (s : pystr) : pystr :=
  case_map ascii_lower (unicode_lower s) s.

(** [s.startswith(p)]. *)
Fixpoint startswith (s p : pystr) {struct p} : bool :=
  match p, s with
  | [], _ => true
  | _ :: _, [] => false
  | b :: p', a :: s' => (a =? b) && startswith s' p'
  end.

(** [needle in hay]. *)
Fixpoint contains (needle hay : pystr) : bool :=
  startswith hay needle ||
  match hay with
  | [] => false
  | _ :: hay' => contains needle hay'
  end.

(** [str.isspace] for one code point. *)
Definition py_isspace (c : N) : bool :=
  ((9 <=? c) && (c <=? 13)) || ((28 <=? c) && (c <=? 32)) ||
  (c =? 133) || (c =? 160) || (c =? 5760) ||
  ((8192 <=? c) && (c <=? 8202)) || (c =? 8232) || (c =? 8233) ||
  (c =? 8239) || (c =? 8287) || (c =? 12288).

Fixpoint lstrip (s : pystr) : pystr :=
  match s with
  | c :: s' => if py_isspace c then lstrip s' else s
  | [] => []
  end.

Definition rstrip (s : pystr) : pystr := rev (lstrip (rev s)).

(** [s.strip()]. *)
Definition strip (s : pystr) : pystr := rstrip (lstrip s).

(** [s[:n]]. *)
Definition slice_to (n : nat) (s : pystr) : pystr := take n s.

(** [s.replace(old, new)] for a non-empty [old]: the occurrences are found
    from the left and do not overlap.  [fuel] bounds the scan by the length
    of the string. *)
Fixpoint replace_from (fuel : nat) (old new s : pystr) : pystr :=
  match fuel with
  | O => s
  | S fuel' =>
      match s with
      | [] => []
      | c :: s' =>
          if startswith s old
          then new ++ replace_from fuel' old new (drop (length old) s)
          else c :: replace_from fuel' old new s'
      end
  end.

Definition replace (s old new : pystr) : pystr :=
  match old with
  | [] => mjoin (map (fun c => new ++ [c]) s) ++ new
  | _ => replace_from (length s) old new s
  end.

(** The values that flow through contexts, parameters and query results. *)
Inductive pyval :=
| PyNone
| PyBool (b : bool)
| PyInt (z : Z)
| PyFloat (q : Q)
| PyStr (s : pystr)
| PyList (l : list pyval)
| PyDict (d : list (pystr * pyval)).

(** A [dict]: keys in insertion order, no key twice. *)
Definition pydict := list (pystr * pyval).

Fixpoint dict_get (k : pystr) (d : pydict) : option pyval :=
  match d with
  | [] => None
  | (k', v) :: d' => if decide (k = k') then Some v else dict_get k d'
  end.

(** [d[k] = v]: an existing key keeps its place. *)
Fixpoint dict_set (k : pystr) (v : pyval) (d : pydict) : pydict :=
  match d with
  | [] => [(k, v)]
  | (k', v') :: d' =>
      if decide (k = k') then (k, v) :: d' else (k', v') :: dict_set k v d'
  end.

(** [d.get(k, default)]. *)
Definition dict_get_default (k : pystr) (dflt : pyval) (d : pydict) : pyval :=
  from_option id dflt (dict_get k d).

(** [bool(v)]. *)
Definition truthy (v : pyval) : bool :=
  match v with
  | PyNone => false
  | PyBool b => b
  | PyInt z => negb (z =? 0)%Z
  | PyFloat q => negb (Qeq_bool q 0)
  | PyStr s => negb (bool_decide (s = []))
  | PyList l => negb (bool_decide (length l = 0%nat))
  | PyDict d => negb (bool_decide (length d = 0%nat))
  end.

(** The outcome of a call: a value, or an exception (an instance of
    [Exception]) with its [str(e)]. *)
Inductive pyresult (A : Type) :=
| Returned (a : A)
| Raised (e : pystr).
Arguments Returned {A} a.
Arguments Raised {A} e.

(** [str(z)] for an integer: its decimal digits. *)
Fixpoint dec_digits (fuel : nat) (n : N) (acc : pystr) : pystr :=
  match fuel with
  | O => acc
  | S fuel' =>
      let acc' := (48 + n mod 10) :: acc in
      if n / 10 =? 0 then acc' else dec_digits fuel' (n / 10) acc'
  end.

Definition str_of_int (z : Z) : pystr :=
  (if (z <? 0)%Z then [45] else []) ++
  dec_digits (S (N.to_nat (N.log2 (Z.abs_N z)))) (Z.abs_N z) [].

(** How the interpreter prints floats and containers ([repr] of a float,
    of a list, of a dict). *)
Class Rendering := {
  str_of_float : Q -> pystr;
  str_of_container : pyval -> pystr;
}.

(** [str(v)]. *)
Definition py_str `{Rendering} (v : pyval) : pystr :=
  match v with
  | PyNone => lit "None"
  | PyBool true => lit "True"
  | PyBool false => lit "False"
  | PyInt z => str_of_int z
  | PyFloat q => str_of_float q
  | PyStr s => s
  | PyList _ | PyDict _ => str_of_container v
  end.

(** [\w] of the [re] module on [str] patterns. *)
Definition is_word `{UnicodeTables} (c : N) : bool :=
  if is_ascii c
  then ((48 <=? c) && (c <=? 57)) || ((65 <=? c) && (c <=? 90)) ||
       ((97 <=? c) && (c <=? 122)) || (c =? 95)
  else unicode_alnum c.

(** A runtime whose tables leave the code points above U+007F as they are
    and count none of them as alphanumeric.  The examples below run on
    ASCII texts, which every runtime treats alike. *)
Definition ascii_only_tables : UnicodeTables :=
  {| unicode_upper s i := from_option (fun c => [c]) [] (s !! i);
     unicode_lower s i := from_option (fun c => [c]) [] (s !! i);
     unicode_alnum c := false |}.

(** A rendering for the examples, which print no float and no container. *)
Definition plain_rendering : Rendering :=
  {| str_of_float q := lit "<float>";
     str_of_container v := lit "<container>" |}.

End Py.

(* ===================================================================== *)
(** * Facts about Python strings                                          *)
(* ===================================================================== *)

Module PyFacts.
Import Py.

Lemma startswith_app (p r : pystr) : startswith (p ++ r) p = true.
Proof.
  induction p as [|b p IH]; simpl; [done|].
  by rewrite N.eqb_refl, IH.
Qed.

Lemma startswith_inv (s p : pystr) :
  startswith s p = true -> exists r, s = p ++ r.
Proof.
  revert s. induction p as [|b p IH]; intros s Hs.
  - by exists s.
  - destruct s as [|a s]; simpl in Hs; [done|].
    apply andb_true_iff in Hs as [Hab Hs].
    apply N.eqb_eq in Hab as ->.
    destruct (IH _ Hs) as [r ->]. by exists r.
Qed.

Lemma contains_unfold (needle hay : pystr) :
  contains needle hay =
  startswith hay needle ||
  match hay with [] => false | _ :: hay' => contains needle hay' end.
Proof. by destruct hay. Qed.

Lemma contains_app (needle pre post : pystr) :
  contains needle (pre ++ needle ++ post) = true.
Proof.
  induction pre as [|c pre IH].
  - simpl. by rewrite contains_unfold, startswith_app.
  - rewrite contains_unfold. simpl. rewrite IH. apply orb_true_r.
Qed.

Lemma contains_inv (needle hay : pystr) :
  contains needle hay = true -> exists pre post, hay = pre ++ needle ++ post.
Proof.
  induction hay as [|c hay IH]; simpl; intros Hc.
  - rewrite orb_false_r in Hc. apply startswith_inv in Hc as [r Hr].
    by exists [], r.
  - apply orb_true_iff in Hc as [Hc|Hc].
    + apply startswith_inv in Hc as [r Hr]. by exists [], r.
    + destruct (IH Hc) as (pre & post & ->). by exists (c :: pre), post.
Qed.

(** A case conversion works code point by code point: converting a
    concatenation converts the parts, the table being asked at the shifted
    positions. *)
Lemma case_map_app asc uni (a b : pystr) :
  case_map asc uni (a ++ b) =
  case_map asc uni a ++ case_map asc (fun i => uni (length a + i)%nat) b.
Proof.
  unfold case_map. rewrite imap_app, join_app. done.
Qed.

Lemma case_map_ascii asc uni (w : pystr) :
  Forall (fun c => is_ascii c = true) w -> case_map asc uni w = map asc w.
Proof.
  revert uni. induction w as [|c w IH]; intros uni Hw; [done|].
  inversion Hw as [|? ? Hc Hw']; subst.
  change (c :: w) with ([c] ++ w). rewrite case_map_app.
  rewrite IH by done. unfold case_map. simpl. by rewrite Hc.
Qed.

(** The converted text of an ASCII word stands in the converted string. *)
Lemma case_map_keeps_word asc uni (pre w post : pystr) :
  Forall (fun c => is_ascii c = true) w ->
  contains (map asc w) (case_map asc uni (pre ++ w ++ post)) = true.
Proof.
  intros Hw. rewrite !case_map_app, (case_map_ascii _ _ w Hw).
  apply contains_app.
Qed.

(** [w] spells [keyword] in some letter case: each of its code points is
    the keyword's letter or the lower-case form of it. *)
Definition spells (w keyword : pystr) : Prop :=
  Forall2 (fun c k => c = k \/ c = ascii_lower k) w keyword.

Definition upper_letter (k : N) : Prop := 65 <= k <= 90.

Lemma ascii_lower_letter (k : N) : upper_letter k -> ascii_lower k = k + 32.
Proof.
  unfold upper_letter, ascii_lower. intros Hk.
  replace ((65 <=? k) && (k <=? 90)) with true; [done|].
  symmetry; apply andb_true_iff; split; apply N.leb_le; lia.
Qed.

Lemma ascii_upper_letter (k : N) : upper_letter k -> ascii_upper k = k.
Proof.
  unfold upper_letter, ascii_upper. intros Hk.
  replace (97 <=? k) with false; [done|].
  symmetry; apply N.leb_gt; lia.
Qed.

Lemma ascii_upper_lowered (k : N) : upper_letter k -> ascii_upper (k + 32) = k.
Proof.
  unfold upper_letter, ascii_upper. intros Hk.
  replace ((97 <=? k + 32) && (k + 32 <=? 122)) with true; [lia|].
  symmetry; apply andb_true_iff; split; apply N.leb_le; lia.
Qed.

Lemma ascii_lower_lowered (k : N) : upper_letter k -> ascii_lower (k + 32) = k + 32.
Proof.
  unfold upper_letter, ascii_lower. intros Hk.
  replace (k + 32 <=? 90) with false; [by rewrite andb_false_r|].
  symmetry; apply N.leb_gt; lia.
Qed.

Lemma spells_ascii (w keyword : pystr) :
  Forall upper_letter keyword -> spells w keyword ->
  Forall (fun c => is_ascii c = true) w.
Proof.
  intros Hk Hs. induction Hs as [|c k w ks Hck Hs IH]; [done|].
  inversion Hk as [|? ? Hk1 Hk2]; subst. constructor; [|by apply IH].
  apply N.ltb_lt.
  destruct Hck as [->| ->]; [|rewrite ascii_lower_letter by done];
    unfold upper_letter in Hk1; lia.
Qed.

Lemma spells_upper (w keyword : pystr) :
  Forall upper_letter keyword -> spells w keyword ->
  map ascii_upper w = keyword.
Proof.
  intros Hk Hs. induction Hs as [|c k w ks Hck Hs IH]; [done|].
  inversion Hk as [|? ? Hk1 Hk2]; subst. simpl. f_equal; [|by apply IH].
  destruct Hck as [->| ->].
  - by apply ascii_upper_letter.
  - rewrite (ascii_lower_letter k) by done. by apply ascii_upper_lowered.
Qed.

Lemma spells_lower (w keyword : pystr) :
  Forall upper_letter keyword -> spells w keyword ->
  map ascii_lower w = map ascii_lower keyword.
Proof.
  intros Hk Hs. induction Hs as [|c k w ks Hck Hs IH]; [done|].
  inversion Hk as [|? ? Hk1 Hk2]; subst. simpl. f_equal; [|by apply IH].
  destruct Hck as [->| ->]; [done|].
  rewrite (ascii_lower_letter k) by done. by apply ascii_lower_lowered.
Qed.

End PyFacts.

(* ===================================================================== *)
(** * The layered security gate (layered_security.py)                     *)
(* ===================================================================== *)

Module Security.
Import Py.

Inductive SecurityPhase := ENTRY | CONTENT | BEHAVIOR | EXECUTION.

Inductive Severity := LOW | MEDIUM | HIGH | CRITICAL.

#[global] Instance SecurityPhase_eq_dec : EqDecision SecurityPhase.
Proof. solve_decision. Defined.

#[global] Instance Severity_eq_dec : EqDecision Severity.
Proof. solve_decision. Defined.

Record CheckResult := {
  check_id : pystr;
  passed : bool;
  message : pystr;
  severity : Severity;
  phase : SecurityPhase;
  details : pydict;
  remediation : option pystr;
}.

(** A check object: the attributes set by [SecurityCheck.__init__] and the
    subclass's [check].  A call of [check] returns a result or raises, and
    may write to the context dictionary it was handed. *)
Record SecurityCheck := {
  sc_check_id : pystr;
  sc_name : pystr;
  sc_phase : SecurityPhase;
  sc_severity : Severity;
  sc_enabled : bool;
  sc_check : pydict -> pyresult CheckResult * pydict;
}.

(** [SecurityCheck.fail] and [SecurityCheck.pass_], in terms of the
    attributes they read. *)
Definition fail (cid : pystr) (sev : Severity) (ph : SecurityPhase)
    (msg : pystr) (dets : pydict) (rem : option pystr) : CheckResult :=
  {| check_id := cid; passed := false; message := msg; severity := sev;
     phase := ph; details := dets; remediation := rem |}.

Definition pass_ (cid : pystr) (sev : Severity) (ph : SecurityPhase)
    (msg : pystr) (dets : pydict) : CheckResult :=
  {| check_id := cid; passed := true; message := msg; severity := sev;
     phase := ph; details := dets; remediation := None |}.

(** ** SQLReadOnlyCheck *)

Definition WRITE_KEYWORDS : list pystr :=
  [lit "INSERT"; lit "UPDATE"; lit "DELETE"; lit "DROP"; lit "CREATE";
   lit "ALTER"; lit "TRUNCATE"; lit "GRANT"; lit "REVOKE"].

(** The texts of the check, as code points:
    "檢測到寫入操作: ", "當前只允許 SELECT 查詢", "確認為只讀操作". *)
Definition msg_write_detected : pystr :=
  [27298; 28204; 21040; 23531; 20837; 25805; 20316; 58; 32].
Definition msg_select_only : pystr :=
  [30070; 21069; 21482; 20801; 35377; 32; 83; 69; 76; 69; 67; 84; 32; 26597; 35426].
Definition msg_confirmed_readonly : pystr :=
  [30906; 35469; 28858; 21482; 35712; 25805; 20316].

(** [type(v).__name__]. *)
Definition type_name (v : pyval) : pystr :=
  match v with
  | PyNone => lit "NoneType"
  | PyBool _ => lit "bool"
  | PyInt _ => lit "int"
  | PyFloat _ => lit "float"
  | PyStr _ => lit "str"
  | PyList _ => lit "list"
  | PyDict _ => lit "dict"
  end.

(** [str(e)] of the [AttributeError] raised by [v.upper()] on a value that
    is not a string. *)
Definition no_attribute (v : pyval) (attr : pystr) : pystr :=
  [39] ++ type_name v ++ lit "' object has no attribute '" ++ attr ++ [39].

Definition sql_readonly_id : pystr := lit "SEC-031".

Section SQLReadOnly.
Context `{UnicodeTables}.

(** The loop [for keyword in self.WRITE_KEYWORDS: if keyword in sql: ...]:
    the first keyword found, if any. *)
Definition first_write_keyword (keywords : list pystr) (sql : pystr) : option pystr :=
  List.find (fun keyword => contains keyword sql) keywords.

Definition SQLReadOnlyCheck_check (context : pydict) : pyresult CheckResult * pydict :=
  match dict_get_default (lit "sql") (PyStr []) context with
  | PyStr s =>
      let sql := upper s in
      match first_write_keyword WRITE_KEYWORDS sql with
      | Some keyword =>
          (Returned (fail sql_readonly_id CRITICAL EXECUTION
                       (msg_write_detected ++ keyword)
                       [(lit "keyword", PyStr keyword);
                        (lit "operation", PyStr (lit "WRITE"))]
                       (Some msg_select_only)),
           context)
      | None =>
          (Returned (pass_ sql_readonly_id CRITICAL EXECUTION
                       msg_confirmed_readonly []),
           context)
      end
  | v => (Raised (no_attribute v (lit "upper")), context)
  end.

(** The object built by [SQLReadOnlyCheck()]; its name is "SQL 只讀檢查". *)
Definition SQLReadOnlyCheck : SecurityCheck :=
  {| sc_check_id := sql_readonly_id;
     sc_name := [83; 81; 76; 32; 21482; 35712; 27298; 26597];
     sc_phase := EXECUTION;
     sc_severity := CRITICAL;
     sc_enabled := true;
     sc_check := SQLReadOnlyCheck_check |}.

End SQLReadOnly.

(** ** LayeredSecuritySystem *)

Record LayeredSecuritySystem := {
  checks : list SecurityCheck;
  fail_fast : bool;
}.

Definition register (sys : LayeredSecuritySystem) (check : SecurityCheck)
    : LayeredSecuritySystem :=
  {| checks := checks sys ++ [check]; fail_fast := fail_fast sys |}.

(** "檢查異常: " *)
Definition msg_check_exception : pystr := [27298; 26597; 30064; 24120; 58; 32].

(** The result recorded by the [except Exception as e] branch. *)
Definition exception_result (check : SecurityCheck) (ph : SecurityPhase)
    (e : pystr) : CheckResult :=
  {| check_id := sc_check_id check;
     passed := false;
     message := msg_check_exception ++ e;
     severity := CRITICAL;
     phase := ph;
     details := [(lit "error", PyStr e)];
     remediation := None |}.

(** The state of one [run_phase] call: the [results] list, the context as
    the checks left it, and (for the statements below) the calls of
    [check.check] made so far, each with the index of its check in
    [self.checks] and what the call did. *)
Record phase_run := {
  results : list CheckResult;
  evaluated : list (nat * pyresult CheckResult);
  context_after : pydict;
}.

Definition severe (s : Severity) : bool :=
  bool_decide (s = CRITICAL) || bool_decide (s = HIGH).

(** The body of [for check in self.checks], from the check of index [i]
    on; a [break] returns the state as it is. *)
Fixpoint run_checks (ff : bool) (ph : SecurityPhase) (i : nat)
    (cs : list SecurityCheck) (st : phase_run) : phase_run :=
  match cs with
  | [] => st
  | check :: cs' =>
      if bool_decide (sc_phase check <> ph) || negb (sc_enabled check)
      then run_checks ff ph (S i) cs' st
      else
        match sc_check check (context_after st) with
        | (Returned result, ctx') =>
            let st' := {| results := results st ++ [result];
                          evaluated := evaluated st ++ [(i, Returned result)];
                          context_after := ctx' |} in
            if ff && negb (passed result) && severe (severity result)
            then st'
            else run_checks ff ph (S i) cs' st'
        | (Raised e, ctx') =>
            let st' := {| results := results st ++ [exception_result check ph e];
                          evaluated := evaluated st ++ [(i, Raised e)];
                          context_after := ctx' |} in
            if ff then st' else run_checks ff ph (S i) cs' st'
        end
  end.

Definition run_phase_state (sys : LayeredSecuritySystem) (ph : SecurityPhase)
    (context : pydict) : phase_run :=
  run_checks (fail_fast sys) ph 0 (checks sys)
    {| results := []; evaluated := []; context_after := context |}.

(** [run_phase(phase, context)]. *)
Definition run_phase (sys : LayeredSecuritySystem) (ph : SecurityPhase)
    (context : pydict) : list CheckResult :=
  results (run_phase_state sys ph context).

(** The result that [run_phase] records for a call of [check.check], the
    checks being [all]. *)
Definition recorded (all : list SecurityCheck) (ph : SecurityPhase)
    (call : nat * pyresult CheckResult) : option CheckResult :=
  match call with
  | (_, Returned result) => Some result
  | (i, Raised e) => check ← all !! i; Some (exception_result check ph e)
  end.

(** A call that ends the loop of a fail-fast gate: a failing result of
    severity CRITICAL or HIGH, or an exception. *)
Definition stops (call : nat * pyresult CheckResult) : bool :=
  match call with
  | (_, Returned result) => negb (passed result) && severe (severity result)
  | (_, Raised _) => true
  end.

(** A sequence of calls as the loop makes them from index [lo] on: indices
    grow, and under fail-fast nothing follows a call that stops. *)
Inductive trace_ok (ff : bool) : nat -> list (nat * pyresult CheckResult) -> Prop :=
| trace_nil lo : trace_ok ff lo []
| trace_cons lo call rest :
    (lo <= fst call)%nat ->
    (ff = true -> stops call = true -> rest = []) ->
    trace_ok ff (S (fst call)) rest ->
    trace_ok ff lo (call :: rest).

(** A recorded call is a call the loop really made: of an enabled check of
    the phase, on some context. *)
Definition genuine (all : list SecurityCheck) (ph : SecurityPhase)
    (call : nat * pyresult CheckResult) : Prop :=
  exists check ctx ctx',
    all !! fst call = Some check /\
    sc_phase check = ph /\ sc_enabled check = true /\
    sc_check check ctx = (snd call, ctx').

(** ** AuthenticationCheck *)

Definition authentication_id : pystr := lit "SEC-001".

(** "缺少用戶身份", "請提供有效的用戶認證信息" *)
Definition msg_missing_identity : pystr :=
  [32570; 23569; 29992; 25142; 36523; 20221].
Definition msg_provide_identity : pystr :=
  [35531; 25552; 20379; 26377; 25928; 30340; 29992; 25142; 35469; 35657; 20449;
   24687].
(** "缺少認證令牌", "請提供有效的認證令牌" *)
Definition msg_missing_token : pystr :=
  [32570; 23569; 35469; 35657; 20196; 29260].
Definition msg_provide_token : pystr :=
  [35531; 25552; 20379; 26377; 25928; 30340; 35469; 35657; 20196; 29260].
(** "用戶 " and " 已認證" *)
Definition msg_user : pystr := [29992; 25142; 32].
Definition msg_authenticated : pystr := [32; 24050; 35469; 35657].

Section Authentication.
Context `{Rendering}.

Definition AuthenticationCheck_check (context : pydict)
    : pyresult CheckResult * pydict :=
  let user_id := dict_get_default (lit "user_id") PyNone context in
  let token := dict_get_default (lit "auth_token") PyNone context in
  if negb (truthy user_id) then
    (Returned (fail authentication_id CRITICAL ENTRY msg_missing_identity []
                 (Some msg_provide_identity)),
     context)
  else if negb (truthy token) then
    (Returned (fail authentication_id CRITICAL ENTRY msg_missing_token []
                 (Some msg_provide_token)),
     context)
  else
    (Returned (pass_ authentication_id CRITICAL ENTRY
                 (msg_user ++ py_str user_id ++ msg_authenticated) []),
     context).

(** The object built by [AuthenticationCheck()]; its name is "身份驗證". *)
Definition AuthenticationCheck : SecurityCheck :=
  {| sc_check_id := authentication_id;
     sc_name := [36523; 20221; 39511; 35657];
     sc_phase := ENTRY;
     sc_severity := CRITICAL;
     sc_enabled := true;
     sc_check := AuthenticationCheck_check |}.

End Authentication.

(** ** run_all *)

(** The value of a phase in the enumeration, which is the order in which
    [for phase in SecurityPhase] visits the phases. *)
Definition phase_value (ph : SecurityPhase) : nat :=
  match ph with
  | ENTRY => 1 | CONTENT => 2 | BEHAVIOR => 3 | EXECUTION => 4
  end%nat.

Definition all_phases : list SecurityPhase := [ENTRY; CONTENT; BEHAVIOR; EXECUTION].

(** An entry of [phase_summary]: the keys [total], [passed], [failed] and
    [critical]. *)
Record phase_counts := {
  ps_total : nat;
  ps_passed : nat;
  ps_failed : nat;
  ps_critical : nat;
}.

Record SecurityReport := {
  overall_passed : bool;
  report_results : list CheckResult;
  phase_summary : list (SecurityPhase * phase_counts);
  risk_level : pystr;
  report_timestamp : pystr;
}.

Definition failed (r : CheckResult) : bool := negb (passed r).

Definition critical_failure (r : CheckResult) : bool :=
  negb (passed r) && bool_decide (severity r = CRITICAL).

Definition high_failure (r : CheckResult) : bool :=
  negb (passed r) && bool_decide (severity r = HIGH).

Definition summarize (rs : list CheckResult) : phase_counts :=
  let passed_count := length (List.filter passed rs) in
  {| ps_total := length rs;
     ps_passed := passed_count;
     ps_failed := length rs - passed_count;
     ps_critical := length (List.filter critical_failure rs) |}.

(** The state of one [run_all] call: [all_results], [phase_summary], the
    context as the checks left it, and (for the statements below) the calls
    made in each phase that was run. *)
Record gate_run := {
  all_results : list CheckResult;
  summary : list (SecurityPhase * phase_counts);
  phase_calls : list (SecurityPhase * list (nat * pyresult CheckResult));
  gate_context : pydict;
}.

(** The body of [for phase in SecurityPhase]; the [break] returns the state
    as it is. *)
Fixpoint run_phases (sys : LayeredSecuritySystem) (phases : list SecurityPhase)
    (st : gate_run) : gate_run :=
  match phases with
  | [] => st
  | ph :: phases' =>
      let run := run_phase_state sys ph (gate_context st) in
      let st' :=
        {| all_results := all_results st ++ results run;
           summary := summary st ++ [(ph, summarize (results run))];
           phase_calls := phase_calls st ++ [(ph, evaluated run)];
           gate_context := context_after run |} in
      if fail_fast sys && (0 <? ps_critical (summarize (results run)))%nat
      then st'
      else run_phases sys phases' st'
  end.

Definition run_all_state (sys : LayeredSecuritySystem) (context : pydict) : gate_run :=
  run_phases sys all_phases
    {| all_results := []; summary := []; phase_calls := [];
       gate_context := context |}.

Definition risk_of (rs : list CheckResult) : pystr :=
  if (0 <? length (List.filter critical_failure rs))%nat then lit "critical"
  else if (0 <? length (List.filter high_failure rs))%nat then lit "high"
  else if existsb failed rs then lit "medium"
  else lit "low".

(** [run_all(context)]; [now] is [datetime.utcnow().isoformat()]. *)
Definition run_all (sys : LayeredSecuritySystem) (context : pydict) (now : pystr)
    : SecurityReport :=
  let st := run_all_state sys context in
  {| overall_passed := forallb passed (all_results st);
     report_results := all_results st;
     phase_summary := summary st;
     risk_level := risk_of (all_results st);
     report_timestamp := now |}.

(** ** Facts about [run_phase] *)

Lemma trace_ok_weaken ff lo lo' calls :
  (lo' <= lo)%nat -> trace_ok ff lo calls -> trace_ok ff lo' calls.
Proof.
  intros Hle Hok. destruct Hok as [|lo call rest Hlo Hstop Hok]; constructor; auto.
  lia.
Qed.



(** What the loop adds to a state: the calls it makes, one result per
    call. *)
Lemma run_checks_trace (ff : bool) (ph : SecurityPhase) (cs pre : list SecurityCheck)
    (st : phase_run) :
  exists calls rs,
    evaluated (run_checks ff ph (length pre) cs st) = evaluated st ++ calls /\
    results (run_checks ff ph (length pre) cs st) = results st ++ rs /\
    Forall2 (fun call r => recorded (pre ++ cs) ph call = Some r) calls rs /\
    Forall (genuine (pre ++ cs) ph) calls /\
    trace_ok ff (length pre) calls.
Proof.
  revert pre st. induction cs as [|check cs IH]; intros pre st.
  - exists [], []. rewrite !app_nil_r. repeat split; constructor.
  - assert (forall st0, exists calls rs,
        evaluated (run_checks ff ph (S (length pre)) cs st0) = evaluated st0 ++ calls /\
        results (run_checks ff ph (S (length pre)) cs st0) = results st0 ++ rs /\
        Forall2 (fun call r => recorded (pre ++ check :: cs) ph call = Some r) calls rs /\
        Forall (genuine (pre ++ check :: cs) ph) calls /\
        trace_ok ff (S (length pre)) calls) as Hrest.
    { intros st0. specialize (IH (pre ++ [check]) st0).
      rewrite length_app, Nat.add_1_r, <- app_assoc in IH. exact IH. }
    assert ((pre ++ check :: cs) !! length pre = Some check) as Hat.
    { by rewrite list_lookup_middle. }
    cbn [run_checks].
    destruct (bool_decide (sc_phase check <> ph) || negb (sc_enabled check)) eqn:Hskip.
    { destruct (Hrest st) as (calls & rs & He & Hr & Hrec & Hgen & Hok).
      exists calls, rs. repeat split; try done.
      eapply trace_ok_weaken; [|exact Hok]. lia. }
    apply orb_false_iff in Hskip as [Hph Hen].
    apply bool_decide_eq_false in Hph. apply dec_stable in Hph.
    apply negb_false_iff in Hen.
    destruct (sc_check check (context_after st)) as [[result|e] ctx'] eqn:Hcall.
    + assert (genuine (pre ++ check :: cs) ph (length pre, Returned result)) as Hg.
      { exists check, (context_after st), ctx'. by rewrite Hcall. }
      destruct (ff && negb (passed result) && severe (severity result)) eqn:Hstop.
      * exists [(length pre, Returned result)], [result]. cbn.
        repeat split; try done; repeat constructor; done.
      * match goal with |- context [run_checks _ _ _ _ ?s] =>
          destruct (Hrest s) as (calls & rs & He & Hr & Hrec & Hgen & Hok) end.
        exists ((length pre, Returned result) :: calls), (result :: rs).
        rewrite He, Hr. cbn. rewrite <- !app_assoc.
        repeat split; try done; constructor; try done.
        intros -> Hs. cbn in Hs. cbn in Hstop. congruence.
    + assert (genuine (pre ++ check :: cs) ph (length pre, Raised e)) as Hg.
      { exists check, (context_after st), ctx'. by rewrite Hcall. }
      assert (recorded (pre ++ check :: cs) ph (length pre, Raised e) =
              Some (exception_result check ph e)) as Hrec0.
      { cbn. by rewrite Hat. }
      destruct ff eqn:Hff.
      * exists [(length pre, Raised e)], [exception_result check ph e]. cbn.
        repeat split; try done; repeat constructor; done.
      * match goal with |- context [run_checks _ _ _ _ ?s] =>
          destruct (Hrest s) as (calls & rs & He & Hr & Hrec & Hgen & Hok) end.
        exists ((length pre, Raised e) :: calls), (exception_result check ph e :: rs).
        rewrite He, Hr. cbn. rewrite <- !app_assoc.
        repeat split; try done; constructor; try done.
Qed.

(** The calls and the results of a whole [run_phase]. *)
Lemma run_phase_trace (sys : LayeredSecuritySystem) (ph : SecurityPhase)
    (context : pydict) :
  Forall2 (fun call r => recorded (checks sys) ph call = Some r)
          (evaluated (run_phase_state sys ph context))
          (run_phase sys ph context) /\
  Forall (genuine (checks sys) ph) (evaluated (run_phase_state sys ph context)) /\
  trace_ok (fail_fast sys) 0 (evaluated (run_phase_state sys ph context)).
Proof.
  unfold run_phase, run_phase_state.
  destruct (run_checks_trace (fail_fast sys) ph (checks sys) []
              {| results := []; evaluated := []; context_after := context |})
    as (calls & rs & He & Hr & Hrec & Hgen & Hok).
  cbn in He, Hr, Hrec, Hgen, Hok. rewrite He, Hr. done.
Qed.



(** ** Facts about [run_all] *)

Lemma filter_nonempty {A} (f : A -> bool) (xs : list A) :
  (0 <? length (List.filter f xs))%nat = true <-> Exists (fun x => f x = true) xs.
Proof.
  induction xs as [|x xs IH]; cbn.
  - split; [done|]. by intros ?%Exists_nil.
  - rewrite Exists_cons. destruct (f x) eqn:Hf; cbn.
    + split; [by left|done].
    + rewrite IH. split; [by right|]. by intros [?|?].
Qed.

Lemma Exists_iff {A} (P Q : A -> Prop) (xs : list A) :
  (forall x, P x <-> Q x) -> Exists P xs <-> Exists Q xs.
Proof.
  intros Hpq. split; intros Hex; eapply Exists_impl; try exact Hex;
    intros x; by apply Hpq.
Qed.

Lemma existsb_Exists {A} (f : A -> bool) (xs : list A) :
  existsb f xs = true <-> Exists (fun x => f x = true) xs.
Proof.
  induction xs as [|x xs IH]; cbn.
  - split; [done|]. by intros ?%Exists_nil.
  - rewrite Exists_cons, orb_true_iff, IH. done.
Qed.

Lemma forallb_Forall {A} (f : A -> bool) (xs : list A) :
  forallb f xs = true <-> Forall (fun x => f x = true) xs.
Proof.
  induction xs as [|x xs IH]; cbn.
  - split; [by constructor|done].
  - rewrite Forall_cons, andb_true_iff, IH. done.
Qed.

Lemma critical_failure_spec (r : CheckResult) :
  critical_failure r = true <-> passed r = false /\ severity r = CRITICAL.
Proof.
  unfold critical_failure.
  rewrite andb_true_iff, negb_true_iff, bool_decide_eq_true. done.
Qed.

Lemma high_failure_spec (r : CheckResult) :
  high_failure r = true <-> passed r = false /\ severity r = HIGH.
Proof.
  unfold high_failure.
  rewrite andb_true_iff, negb_true_iff, bool_decide_eq_true. done.
Qed.

(** The four levels, by what the results hold. *)
Lemma risk_of_spec (rs : list CheckResult) :
  (risk_of rs = lit "critical" <->
     Exists (fun r => passed r = false /\ severity r = CRITICAL) rs) /\
  (risk_of rs = lit "high" <->
     ~ Exists (fun r => passed r = false /\ severity r = CRITICAL) rs /\
     Exists (fun r => passed r = false /\ severity r = HIGH) rs) /\
  (risk_of rs = lit "medium" <->
     ~ Exists (fun r => passed r = false /\ severity r = CRITICAL) rs /\
     ~ Exists (fun r => passed r = false /\ severity r = HIGH) rs /\
     Exists (fun r => passed r = false) rs) /\
  (risk_of rs = lit "low" <-> Forall (fun r => passed r = true) rs).
Proof.
  assert (Exists (fun r => passed r = false /\ severity r = CRITICAL) rs <->
          (0 <? length (List.filter critical_failure rs))%nat = true) as Hc.
  { rewrite filter_nonempty. apply Exists_iff. intros r.
    by rewrite critical_failure_spec. }
  assert (Exists (fun r => passed r = false /\ severity r = HIGH) rs <->
          (0 <? length (List.filter high_failure rs))%nat = true) as Hh.
  { rewrite filter_nonempty. apply Exists_iff. intros r.
    by rewrite high_failure_spec. }
  assert (Exists (fun r => passed r = false) rs <-> existsb failed rs = true) as Hf.
  { rewrite existsb_Exists. apply Exists_iff. intros r. unfold failed.
    by rewrite negb_true_iff. }
  assert (Forall (fun r => passed r = true) rs <-> existsb failed rs = false) as Ha.
  { rewrite <- not_true_iff_false, <- Hf, <- Forall_Exists_neg.
    apply Forall_iff. intros r. by destruct (passed r). }
  assert (existsb failed rs = false ->
          (0 <? length (List.filter critical_failure rs))%nat = false /\
          (0 <? length (List.filter high_failure rs))%nat = false) as Hnone.
  { intros Hnf. apply Ha in Hnf. split; apply not_true_iff_false.
    - rewrite <- Hc. intros Hex. apply Exists_exists in Hex as (r & Hin & Hp & _).
      rewrite Forall_forall in Hnf. rewrite (Hnf r Hin) in Hp. done.
    - rewrite <- Hh. intros Hex. apply Exists_exists in Hex as (r & Hin & Hp & _).
      rewrite Forall_forall in Hnf. rewrite (Hnf r Hin) in Hp. done. }
  rewrite Hc, Hh, Hf, Ha. unfold risk_of.
  destruct (0 <? length (List.filter critical_failure rs))%nat;
    [repeat split; try done; intros; by intuition|].
  destruct (0 <? length (List.filter high_failure rs))%nat;
    [repeat split; try done; intros; by intuition|].
  destruct (existsb failed rs) eqn:Hany;
    repeat split; try done; intros; by intuition.
Qed.

(** [overall_passed] and [risk_level] tell the same story: the report
    passes exactly when its level is "low", which is when every result
    passed; the level is "critical" exactly when a failing CRITICAL result
    is among the results, "high" when there is none but a failing HIGH one,
    and "medium" when the only failures are of lower severity. *)
Theorem report_passes_iff_low_risk (sys : LayeredSecuritySystem) (context : pydict)
    (now : pystr) :
  let report := run_all sys context now in
  (overall_passed report = true <-> risk_level report = lit "low") /\
  (overall_passed report = true <->
     Forall (fun r => passed r = true) (report_results report)) /\
  (risk_level report = lit "critical" <->
     Exists (fun r => passed r = false /\ severity r = CRITICAL)
            (report_results report)) /\
  (risk_level report = lit "high" <->
     ~ Exists (fun r => passed r = false /\ severity r = CRITICAL)
              (report_results report) /\
     Exists (fun r => passed r = false /\ severity r = HIGH)
            (report_results report)) /\
  (risk_level report = lit "medium" <->
     ~ Exists (fun r => passed r = false /\ severity r = CRITICAL)
              (report_results report) /\
     ~ Exists (fun r => passed r = false /\ severity r = HIGH)
              (report_results report) /\
     Exists (fun r => passed r = false) (report_results report)).
Proof.
  intros report. unfold report, run_all.
  cbn [overall_passed report_results risk_level].
  destruct (risk_of_spec (all_results (run_all_state sys context)))
    as (Hc & Hh & Hm & Hl).
  rewrite forallb_Forall, Hl. done.
Qed.

(** *** The phases of a run *)

(** The phases that a [run_all] went through from a context on, each with
    the state its [run_phase] ended in: the loop goes on to the next phase
    unless the gate is fail-fast and the phase had a CRITICAL failure. *)
Inductive phases_run (sys : LayeredSecuritySystem)
    : pydict -> list SecurityPhase -> list (SecurityPhase * phase_run) -> Prop :=
| phases_done ctx : phases_run sys ctx [] []
| phases_break ctx ph phases :
    fail_fast sys = true ->
    (0 < ps_critical (summarize (results (run_phase_state sys ph ctx))))%nat ->
    phases_run sys ctx (ph :: phases) [(ph, run_phase_state sys ph ctx)]
| phases_next ctx ph phases runs :
    fail_fast sys = false \/
    ps_critical (summarize (results (run_phase_state sys ph ctx))) = 0%nat ->
    phases_run sys (context_after (run_phase_state sys ph ctx)) phases runs ->
    phases_run sys ctx (ph :: phases) ((ph, run_phase_state sys ph ctx) :: runs).

Lemma run_phases_runs (sys : LayeredSecuritySystem) (phases : list SecurityPhase)
    (st : gate_run) :
  exists runs,
    phases_run sys (gate_context st) phases runs /\
    all_results (run_phases sys phases st) =
      all_results st ++ mjoin (map (fun pr => results pr.2) runs) /\
    summary (run_phases sys phases st) =
      summary st ++ map (fun pr => (pr.1, summarize (results pr.2))) runs /\
    phase_calls (run_phases sys phases st) =
      phase_calls st ++ map (fun pr => (pr.1, evaluated pr.2)) runs.
Proof.
  revert st. induction phases as [|ph phases IH]; intros st.
  - exists []. cbn. rewrite !app_nil_r. repeat split. constructor.
  - cbn [run_phases].
    set (run := run_phase_state sys ph (gate_context st)).
    destruct (fail_fast sys && (0 <? ps_critical (summarize (results run)))%nat)
      eqn:Hstop.
    + apply andb_true_iff in Hstop as [Hff Hcrit]. apply Nat.ltb_lt in Hcrit.
      exists [(ph, run)]. cbn. rewrite app_nil_r. repeat split.
      by constructor.
    + match goal with |- context [run_phases sys phases ?s] =>
        destruct (IH s) as (runs & Hruns & Hr & Hs & Hc) end.
      cbn in Hruns, Hr, Hs, Hc.
      exists ((ph, run) :: runs). rewrite Hr, Hs, Hc. cbn.
      rewrite <- !app_assoc. repeat split.
      constructor; [|done].
      apply andb_false_iff in Hstop as [Hff|Hcrit]; [by left|right].
      apply Nat.ltb_ge in Hcrit. apply Nat.le_0_r in Hcrit. exact Hcrit.
Qed.

Lemma run_phases_cons (sys : LayeredSecuritySystem) (ph : SecurityPhase)
    (phases : list SecurityPhase) (st : gate_run) :
  run_phases sys (ph :: phases) st =
  let run := run_phase_state sys ph (gate_context st) in
  let st' :=
    {| all_results := all_results st ++ results run;
       summary := summary st ++ [(ph, summarize (results run))];
       phase_calls := phase_calls st ++ [(ph, evaluated run)];
       gate_context := context_after run |} in
  if fail_fast sys && (0 <? ps_critical (summarize (results run)))%nat
  then st'
  else run_phases sys phases st'.
Proof. done. Qed.

Lemma run_all_runs (sys : LayeredSecuritySystem) (context : pydict) :
  exists runs,
    phases_run sys context all_phases runs /\
    all_results (run_all_state sys context) = mjoin (map (fun pr => results pr.2) runs) /\
    summary (run_all_state sys context) =
      map (fun pr => (pr.1, summarize (results pr.2))) runs /\
    phase_calls (run_all_state sys context) =
      map (fun pr => (pr.1, evaluated pr.2)) runs.
Proof.
  destruct (run_phases_runs sys all_phases
              {| all_results := []; summary := []; phase_calls := [];
                 gate_context := context |}) as (runs & H1 & H2 & H3 & H4).
  by exists runs.
Qed.

Lemma phases_run_prefix sys ctx phases runs :
  phases_run sys ctx phases runs -> runs.*1 `prefix_of` phases.
Proof.
  induction 1 as [ctx|ctx ph phases Hff Hc|ctx ph phases runs Hgo Hruns IH]; cbn.
  - done.
  - apply prefix_cons, prefix_nil.
  - by apply prefix_cons.
Qed.

Lemma phases_run_nonempty sys ctx phases runs :
  phases_run sys ctx phases runs -> phases <> [] -> runs <> [].
Proof. by destruct 1. Qed.

Lemma phases_run_complete sys ctx phases runs :
  phases_run sys ctx phases runs ->
  fail_fast sys = false \/
  Forall (fun pr => ps_critical (summarize (results pr.2)) = 0%nat) runs ->
  runs.*1 = phases.
Proof.
  induction 1 as [ctx|ctx ph phases Hff Hc|ctx ph phases runs Hgo Hruns IH];
    intros Hall; cbn.
  - done.
  - destruct Hall as [Hall|Hall]; [congruence|].
    apply Forall_cons in Hall as [Hall _].
    change (ps_critical (summarize (results (run_phase_state sys ph ctx))) = 0%nat)
      in Hall.
    lia.
  - f_equal. apply IH. destruct Hall as [?|Hall]; [by left|right].
    by apply Forall_cons in Hall as [_ ?].
Qed.

Lemma phases_run_critical_last sys ctx phases runs pr :
  phases_run sys ctx phases runs ->
  fail_fast sys = true ->
  pr ∈ runs -> (0 < ps_critical (summarize (results pr.2)))%nat ->
  last runs = Some pr.
Proof.
  induction 1 as [ctx|ctx ph phases Hff Hc|ctx ph phases runs Hgo Hruns IH];
    intros Hfast Hin Hcrit.
  - by apply elem_of_nil in Hin.
  - by apply list_elem_of_singleton in Hin as ->.
  - destruct Hgo as [Hgo|Hgo]; [congruence|].
    apply elem_of_cons in Hin as [->|Hin].
    { change (0 < ps_critical (summarize (results (run_phase_state sys ph ctx))))%nat
        in Hcrit. lia. }
    rewrite last_cons, (IH Hfast Hin Hcrit). done.
Qed.

Lemma phases_run_states sys ctx phases runs :
  phases_run sys ctx phases runs ->
  Forall (fun pr => exists ctx', pr.2 = run_phase_state sys pr.1 ctx') runs.
Proof.
  induction 1 as [ctx|ctx ph phases Hff Hc|ctx ph phases runs Hgo Hruns IH].
  - constructor.
  - repeat constructor. by exists ctx.
  - constructor; [by exists ctx|done].
Qed.

Lemma summarize_accounts (rs : list CheckResult) :
  (ps_passed (summarize rs) + ps_failed (summarize rs))%nat = ps_total (summarize rs) /\
  (ps_critical (summarize rs) <= ps_failed (summarize rs))%nat /\
  ps_failed (summarize rs) = length (List.filter failed rs).
Proof.
  unfold summarize. cbn.
  assert (length (List.filter passed rs) + length (List.filter failed rs)
          = length rs)%nat as Hsplit.
  { induction rs as [|r rs IH]; [done|]. cbn [List.filter]. unfold failed at 1.
    destruct (passed r); cbn [negb length]; lia. }
  assert (length (List.filter critical_failure rs)
          <= length (List.filter failed rs))%nat as Hcrit.
  { clear Hsplit. induction rs as [|r rs IH]; [done|]. cbn [List.filter].
    assert (critical_failure r = true -> failed r = true) as Himp.
    { unfold critical_failure, failed. by intros [? _]%andb_true_iff. }
    destruct (critical_failure r), (failed r); cbn [length];
      first [lia | by specialize (Himp eq_refl)]. }
  lia.
Qed.

(** The last phase of a prefix of the four phases tells which prefix it
    is. *)
Lemma phases_up_to (phs : list SecurityPhase) (ph : SecurityPhase) :
  phs `prefix_of` all_phases -> last phs = Some ph ->
  phs = take (phase_value ph) all_phases.
Proof.
  intros [rest Hrest] Hlast. unfold all_phases in Hrest.
  destruct phs as [|p1 [|p2 [|p3 [|p4 [|p5 phs]]]]]; cbn in Hrest, Hlast;
    simplify_eq; done.
Qed.

(** [phase_summary] has one entry for each phase that was run, in the
    order ENTRY, CONTENT, BEHAVIOR, EXECUTION, and at least the one of
    ENTRY.  In each entry [passed + failed = total] and [critical] is at most
    [failed]; the totals add up to the number of results of the report.  A
    gate that is not fail-fast runs all four phases, and so does a fail-fast
    gate as long as no phase has a CRITICAL failure: a failing HIGH result
    ends its phase, not the run. *)
Theorem phase_summary_accounts_for_results (sys : LayeredSecuritySystem)
    (context : pydict) (now : pystr) :
  let report := run_all sys context now in
  (phase_summary report).*1 `prefix_of` all_phases /\
  phase_summary report <> [] /\
  Forall (fun entry =>
            (ps_passed entry.2 + ps_failed entry.2)%nat = ps_total entry.2 /\
            (ps_critical entry.2 <= ps_failed entry.2)%nat)
         (phase_summary report) /\
  sum_list (map (fun entry => ps_total entry.2) (phase_summary report))
    = length (report_results report) /\
  sum_list (map (fun entry => ps_failed entry.2) (phase_summary report))
    = length (List.filter failed (report_results report)) /\
  (fail_fast sys = false \/
   Forall (fun entry => ps_critical entry.2 = 0%nat) (phase_summary report) ->
   (phase_summary report).*1 = all_phases).
Proof.
  intros report. unfold report, run_all.
  cbn [phase_summary report_results].
  destruct (run_all_runs sys context) as (runs & Hruns & Hr & Hs & _).
  rewrite Hr, Hs. clear Hr Hs.
  assert ((map (fun pr : SecurityPhase * phase_run =>
                  (pr.1, summarize (results pr.2))) runs).*1 = runs.*1) as Hfst.
  { rewrite <- list_fmap_compose. done. }
  rewrite Hfst. split; [by eapply phases_run_prefix|].
  split.
  { intros Hnil. apply fmap_nil_inv in Hnil.
    by eapply phases_run_nonempty in Hnil. }
  split.
  { apply Forall_fmap, Forall_forall. intros pr _. cbn.
    by destruct (summarize_accounts (results pr.2)) as (? & ? & _). }
  split.
  { clear. induction runs as [|pr runs IH]; [done|].
    cbn. rewrite length_app, IH. done. }
  split.
  { clear. induction runs as [|pr runs IH]; [done|].
    cbn [map mjoin list_join sum_list]. rewrite List.filter_app, length_app, IH.
    f_equal. by destruct (summarize_accounts (results pr.2)) as (_ & _ & ?). }
  intros Hall. eapply phases_run_complete; [done|].
  destruct Hall as [?|Hall]; [by left|right].
  by apply Forall_fmap in Hall.
Qed.

(** In a fail-fast gate a phase with a CRITICAL failure is the last one
    that is run: its entry is the last of [phase_summary], the phases of the
    summary are those up to it, and every call of a check that the run made
    was of a check of one of these phases, so that no check of a later phase
    was evaluated. *)
Theorem critical_failure_ends_run (sys : LayeredSecuritySystem) (context : pydict)
    (now : pystr) (ph : SecurityPhase) (counts : phase_counts) :
  fail_fast sys = true ->
  (ph, counts) ∈ phase_summary (run_all sys context now) ->
  (0 < ps_critical counts)%nat ->
  last (phase_summary (run_all sys context now)) = Some (ph, counts) /\
  (phase_summary (run_all sys context now)).*1 = take (phase_value ph) all_phases /\
  (phase_calls (run_all_state sys context)).*1 = take (phase_value ph) all_phases /\
  (forall ph' calls i outcome,
     (ph', calls) ∈ phase_calls (run_all_state sys context) ->
     (i, outcome) ∈ calls ->
     exists check, checks sys !! i = Some check /\ sc_phase check = ph' /\
                   (phase_value (sc_phase check) <= phase_value ph)%nat).
Proof.
  intros Hff Hin Hcrit. unfold run_all in *. cbn [phase_summary] in *.
  destruct (run_all_runs sys context) as (runs & Hruns & _ & Hs & Hc).
  rewrite Hs in Hin |- *. rewrite Hc. clear Hs Hc.
  apply list_elem_of_fmap in Hin as (pr & Heq & Hin).
  injection Heq as -> ->.
  pose proof (phases_run_critical_last _ _ _ _ _ Hruns Hff Hin Hcrit) as Hlast.
  assert (runs.*1 = take (phase_value pr.1) all_phases) as Hup.
  { apply phases_up_to; [by eapply phases_run_prefix|].
    by rewrite fmap_last, Hlast. }
  split; [by rewrite fmap_last, Hlast|].
  split; [by rewrite <- list_fmap_compose|].
  split; [by rewrite <- list_fmap_compose|].
  intros ph' calls i outcome Hcalls Hcall.
  apply list_elem_of_fmap in Hcalls as (pr' & Heq & Hin').
  injection Heq as -> ->.
  pose proof (phases_run_states _ _ _ _ Hruns) as Hstates.
  rewrite Forall_forall in Hstates.
  destruct (Hstates _ Hin') as [ctx' Hstate].
  destruct (run_phase_trace sys pr'.1 ctx') as (_ & Hgen & _).
  rewrite <- Hstate in Hgen. rewrite Forall_forall in Hgen.
  destruct (Hgen _ Hcall) as (check & _ & _ & Hat & Hph & _).
  exists check. cbn in Hat. split; [done|]. split; [done|].
  rewrite Hph.
  assert (pr'.1 ∈ take (phase_value pr.1) all_phases) as Hmem.
  { rewrite <- Hup. apply list_elem_of_fmap. by exists pr'. }
  clear -Hmem. destruct pr as [ph r], pr' as [ph' r']. cbn in *.
  destruct ph; cbn in Hmem;
    repeat (apply elem_of_cons in Hmem as [->|Hmem]; [cbn; lia|]);
    by apply elem_of_nil in Hmem.
Qed.

(** A check that raises, in whatever phase, makes the whole report fail
    with the level "critical": the result recorded for the call is among the
    results of the report. *)
Theorem raising_check_makes_report_critical (sys : LayeredSecuritySystem)
    (context : pydict) (now : pystr) (ph : SecurityPhase)
    (calls : list (nat * pyresult CheckResult)) (i : nat) (e : pystr) :
  (ph, calls) ∈ phase_calls (run_all_state sys context) ->
  (i, Raised e) ∈ calls ->
  overall_passed (run_all sys context now) = false /\
  risk_level (run_all sys context now) = lit "critical" /\
  exists check,
    checks sys !! i = Some check /\
    exception_result check ph e ∈ report_results (run_all sys context now).
Proof.
  intros Hcalls Hcall.
  destruct (run_all_runs sys context) as (runs & Hruns & Hr & _ & Hc).
  rewrite Hc in Hcalls.
  apply list_elem_of_fmap in Hcalls as (pr & Heq & Hin).
  injection Heq as -> ->.
  pose proof (phases_run_states _ _ _ _ Hruns) as Hstates.
  rewrite Forall_forall in Hstates.
  destruct (Hstates _ Hin) as [ctx' Hstate].
  destruct (run_phase_trace sys pr.1 ctx') as (Hrec & Hgen & _).
  unfold run_phase in Hrec. rewrite <- Hstate in Hrec, Hgen.
  rewrite Forall_forall in Hgen.
  destruct (Hgen _ Hcall) as (check & _ & _ & Hat & _). cbn in Hat.
  apply list_elem_of_lookup in Hcall as [n Hn].
  destruct (Forall2_lookup_l _ _ _ _ _ Hrec Hn) as (result & Hres & Hrecorded).
  cbn in Hrecorded. rewrite Hat in Hrecorded. cbn in Hrecorded.
  injection Hrecorded as <-.
  assert (exception_result check pr.1 e ∈ all_results (run_all_state sys context))
    as Hmem.
  { rewrite Hr. apply list_elem_of_join. exists (results pr.2). split.
    - apply list_elem_of_lookup. by exists n.
    - apply list_elem_of_fmap. by exists pr. }
  destruct (risk_of_spec (all_results (run_all_state sys context)))
    as (Hcrit & _ & _ & _).
  unfold run_all. cbn [overall_passed risk_level report_results].
  split; [|split; [|by exists check]].
  - apply not_true_iff_false. rewrite forallb_Forall, Forall_forall.
    intros Hall. by specialize (Hall _ Hmem).
  - apply Hcrit. apply Exists_exists. by exists (exception_result check pr.1 e).
Qed.

(** *** The gate on a request that is not authenticated *)

Section AuthenticationFacts.
Context `{Rendering}.

Lemma AuthenticationCheck_denies (context : pydict) :
  truthy (dict_get_default (lit "user_id") PyNone context) = false \/
  truthy (dict_get_default (lit "auth_token") PyNone context) = false ->
  exists result,
    AuthenticationCheck_check context = (Returned result, context) /\
    check_id result = authentication_id /\
    passed result = false /\ severity result = CRITICAL /\ phase result = ENTRY.
Proof.
  intros Hmissing. unfold AuthenticationCheck_check.
  destruct (truthy (dict_get_default (lit "user_id") PyNone context)) eqn:Hu.
  - destruct Hmissing as [?|Htok]; [done|]. rewrite Htok.
    eexists. split; [reflexivity|done].
  - eexists. split; [reflexivity|done].
Qed.

Lemma run_checks_results_prefix (ff : bool) (ph : SecurityPhase) (i : nat)
    (cs : list SecurityCheck) (st : phase_run) :
  results st `prefix_of` results (run_checks ff ph i cs st).
Proof.
  revert i st. induction cs as [|check cs IH]; intros i st; cbn; [done|].
  destruct (bool_decide (sc_phase check <> ph) || negb (sc_enabled check));
    [apply IH|].
  destruct (sc_check check (context_after st)) as [[result|e] ctx'].
  - destruct (ff && negb (passed result) && severe (severity result)).
    + by apply prefix_app_r.
    + etrans; [|apply IH]. by apply prefix_app_r.
  - destruct ff.
    + by apply prefix_app_r.
    + etrans; [|apply IH]. by apply prefix_app_r.
Qed.

(** What [run_all] collects when the first registered check is the
    authentication check and the context lacks an identity or a token. *)
Lemma unauthenticated_run (sys : LayeredSecuritySystem) (rest : list SecurityCheck)
    (context : pydict) :
  checks sys = AuthenticationCheck :: rest ->
  truthy (dict_get_default (lit "user_id") PyNone context) = false \/
  truthy (dict_get_default (lit "auth_token") PyNone context) = false ->
  exists result later,
    check_id result = authentication_id /\
    passed result = false /\ severity result = CRITICAL /\
    all_results (run_all_state sys context) = result :: later /\
    (fail_fast sys = true ->
     later = [] /\
     summary (run_all_state sys context) =
       [(ENTRY, {| ps_total := 1; ps_passed := 0; ps_failed := 1;
                   ps_critical := 1 |})] /\
     phase_calls (run_all_state sys context) =
       [(ENTRY, [(0%nat, Returned result)])]).
Proof.
  intros Hchecks Hmissing.
  destruct (AuthenticationCheck_denies context Hmissing)
    as (result & Hcall & Hid & Hfail & Hsev & Hph).
  assert (exists more,
             results (run_phase_state sys ENTRY context) = result :: more /\
             (fail_fast sys = true ->
              run_phase_state sys ENTRY context =
                {| results := [result]; evaluated := [(0%nat, Returned result)];
                   context_after := context |})) as (more & Hentry & Hfast).
  { unfold run_phase_state. rewrite Hchecks. cbn [run_checks].
    cbn [AuthenticationCheck sc_phase sc_enabled sc_check].
    rewrite bool_decide_eq_false_2 by (by intros Hne; apply Hne). cbn [negb orb].
    cbn [context_after]. rewrite Hcall. cbn [results evaluated app].
    rewrite Hfail, Hsev. cbn [negb severe]. rewrite andb_true_r.
    destruct (fail_fast sys) eqn:Hff; cbn [andb].
    - exists []. split; [done|]. done.
    - match goal with |- context [run_checks false ENTRY 1 rest ?s] =>
        destruct (run_checks_results_prefix false ENTRY 1 rest s) as [more Hmore]
      end.
      exists more. split; [by rewrite Hmore|]. done. }
  exists result.
  unfold run_all_state, all_phases. rewrite run_phases_cons.
  cbn [gate_context all_results summary phase_calls app].
  destruct (fail_fast sys) eqn:Hff.
  - rewrite (Hfast eq_refl). cbn [results evaluated context_after].
    assert (summarize [result] =
            {| ps_total := 1; ps_passed := 0; ps_failed := 1; ps_critical := 1 |})
      as Hsum.
    { unfold summarize. cbn [List.filter]. unfold critical_failure.
      rewrite Hfail, Hsev. reflexivity. }
    rewrite Hsum. cbn [ps_critical]. change (0 <? 1)%nat with true. cbn [andb].
    exists []. done.
  - cbn [andb].
    match goal with |- context [run_phases sys ?phs ?s] =>
      destruct (run_phases_runs sys phs s) as (runs & _ & Hr & _) end.
    cbn [all_results] in Hr. rewrite Hr, Hentry. cbn [app].
    eexists. repeat split; try done.
Qed.

(** The report of such a run: not passed, and of critical risk. *)
Lemma unauthenticated_report (sys : LayeredSecuritySystem)
    (rest : list SecurityCheck) (context : pydict) (now : pystr) :
  checks sys = AuthenticationCheck :: rest ->
  truthy (dict_get_default (lit "user_id") PyNone context) = false \/
  truthy (dict_get_default (lit "auth_token") PyNone context) = false ->
  overall_passed (run_all sys context now) = false /\
  risk_level (run_all sys context now) = lit "critical".
Proof.
  intros Hchecks Hmissing.
  destruct (unauthenticated_run sys rest context Hchecks Hmissing)
    as (result & later & _ & Hfail & Hsev & Hall & _).
  unfold run_all. cbn [overall_passed risk_level].
  destruct (risk_of_spec (all_results (run_all_state sys context)))
    as (Hcrit & _ & _ & _).
  rewrite Hall in Hcrit |- *.
  split; [by cbn; rewrite Hfail|].
  apply Hcrit. apply Exists_cons_hd. done.
Qed.

(** The gates that [LayeredSecuritySystem()] builds have the
    authentication check as their first check.  On such a gate a context
    without a (true) [user_id] or without a (true) [auth_token] gets a
    report that does not pass, at the level "critical", whose first result
    is the failure of the authentication check; and when the gate is
    fail-fast that is the only result: ENTRY is the only phase in the
    summary and no other check is evaluated. *)
Theorem unauthenticated_request_is_critical (sys : LayeredSecuritySystem)
    (rest : list SecurityCheck) (context : pydict) (now : pystr) :
  checks sys = AuthenticationCheck :: rest ->
  truthy (dict_get_default (lit "user_id") PyNone context) = false \/
  truthy (dict_get_default (lit "auth_token") PyNone context) = false ->
  let report := run_all sys context now in
  overall_passed report = false /\
  risk_level report = lit "critical" /\
  (exists result,
     head (report_results report) = Some result /\
     check_id result = authentication_id /\
     passed result = false /\ severity result = CRITICAL /\
     (fail_fast sys = true ->
      report_results report = [result] /\
      phase_summary report =
        [(ENTRY, {| ps_total := 1; ps_passed := 0; ps_failed := 1;
                    ps_critical := 1 |})] /\
      phase_calls (run_all_state sys context) =
        [(ENTRY, [(0%nat, Returned result)])])).
Proof.
  intros Hchecks Hmissing report.
  destruct (unauthenticated_report sys rest context now Hchecks Hmissing)
    as (Hpassed & Hrisk).
  destruct (unauthenticated_run sys rest context Hchecks Hmissing)
    as (result & later & Hid & Hfail & Hsev & Hall & Hone).
  split; [done|]. split; [done|].
  exists result. unfold report, run_all. cbn [report_results phase_summary].
  rewrite Hall. split; [done|]. split; [done|]. split; [done|]. split; [done|].
  intros Hff. by destruct (Hone Hff) as (-> & Hsum & Hcalls).
Qed.

End AuthenticationFacts.

(** A gate of the examples: two read-only checks registered one after the
    other, for the EXECUTION phase. *)
Definition two_readonly_checks (ff : bool) : LayeredSecuritySystem :=
  register
    (register {| checks := []; fail_fast := ff |}
       (@SQLReadOnlyCheck ascii_only_tables))
    (@SQLReadOnlyCheck ascii_only_tables).

Definition drop_context : pydict := [(lit "sql", PyStr (lit "DROP TABLE t"))].




(** A context whose [sql] entry is [None]: [None.upper()] raises inside the
    check. *)
Definition none_context : pydict := [(lit "sql", PyNone)].


(** A gate with the authentication check of ENTRY before the read-only
    check of EXECUTION. *)
Definition auth_then_readonly (ff : bool) : LayeredSecuritySystem :=
  register
    (register {| checks := []; fail_fast := ff |}
       (@AuthenticationCheck plain_rendering))
    (@SQLReadOnlyCheck ascii_only_tables).

Definition missing_identity : CheckResult :=
  fail authentication_id CRITICAL ENTRY msg_missing_identity []
    (Some msg_provide_identity).

(** A failing HIGH result ends its phase and not the run: a fail-fast gate
    whose only CONTENT check fails with HIGH still runs the phases after
    it. *)
Example high_failure_does_not_end_run :
  let injection_found : SecurityCheck :=
    {| sc_check_id := lit "SEC-010"; sc_name := lit "injection";
       sc_phase := CONTENT; sc_severity := HIGH; sc_enabled := true;
       sc_check := fun ctx =>
         (Returned (fail (lit "SEC-010") HIGH CONTENT (lit "found") [] None),
          ctx) |} in
  let sys := register (register {| checks := []; fail_fast := true |}
                         injection_found)
               (@SQLReadOnlyCheck ascii_only_tables) in
  let report := run_all sys drop_context (lit "now") in
  (phase_summary report).*1 = all_phases /\
  length (report_results report) = 2%nat /\
  risk_level report = lit "critical".
Proof. vm_compute. done. Qed.

(** The statement of [critical_failure_ends_run] at the fail-fast gate
    above and a context without identity: the run ends with ENTRY. *)
Lemma critical_failure_ends_run_witness :
  let counts := {| ps_total := 1; ps_passed := 0; ps_failed := 1;
                   ps_critical := 1 |} in
  last (phase_summary (run_all (auth_then_readonly true) drop_context (lit "now")))
    = Some (ENTRY, counts) /\
  (phase_summary (run_all (auth_then_readonly true) drop_context (lit "now"))).*1
    = take (phase_value ENTRY) all_phases /\
  (phase_calls (run_all_state (auth_then_readonly true) drop_context)).*1
    = take (phase_value ENTRY) all_phases /\
  (forall ph' calls i outcome,
     (ph', calls) ∈ phase_calls (run_all_state (auth_then_readonly true) drop_context) ->
     (i, outcome) ∈ calls ->
     exists check, checks (auth_then_readonly true) !! i = Some check /\
                   sc_phase check = ph' /\
                   (phase_value (sc_phase check) <= phase_value ENTRY)%nat).
Proof.
  apply (critical_failure_ends_run (auth_then_readonly true) drop_context (lit "now")
           ENTRY).
  - reflexivity.
  - replace (phase_summary _)
      with [(ENTRY, {| ps_total := 1; ps_passed := 0; ps_failed := 1;
                       ps_critical := 1 |})]
      by (vm_compute; reflexivity).
    apply list_elem_of_here.
  - simpl. lia.
Defined.

(** The statement of [raising_check_makes_report_critical] at the gate of
    two read-only checks and the context whose [sql] is [None]. *)
Lemma raising_check_makes_report_critical_witness :
  overall_passed (run_all (two_readonly_checks false) none_context (lit "now"))
    = false /\
  risk_level (run_all (two_readonly_checks false) none_context (lit "now"))
    = lit "critical" /\
  exists check,
    checks (two_readonly_checks false) !! 0%nat = Some check /\
    exception_result check EXECUTION (no_attribute PyNone (lit "upper"))
      ∈ report_results (run_all (two_readonly_checks false) none_context (lit "now")).
Proof.
  apply (raising_check_makes_report_critical (two_readonly_checks false)
           none_context (lit "now") EXECUTION
           [(0%nat, @Raised CheckResult (no_attribute PyNone (lit "upper")));
            (1%nat, @Raised CheckResult (no_attribute PyNone (lit "upper")))]
           0 (no_attribute PyNone (lit "upper"))).
  - replace (phase_calls _)
      with [(ENTRY, @nil (nat * pyresult CheckResult)); (CONTENT, []);
            (BEHAVIOR, []);
            (EXECUTION,
             [(0%nat, @Raised CheckResult (no_attribute PyNone (lit "upper")));
              (1%nat, @Raised CheckResult (no_attribute PyNone (lit "upper")))])]
      by (vm_compute; reflexivity).
    do 3 apply list_elem_of_further. apply list_elem_of_here.
  - apply list_elem_of_here.
Defined.

(** The statement of [unauthenticated_request_is_critical] at the gate
    above, fail-fast or not, and a context without identity. *)
Lemma unauthenticated_request_is_critical_witness :
  let report := run_all (auth_then_readonly false) drop_context (lit "now") in
  overall_passed report = false /\
  risk_level report = lit "critical" /\
  (exists result,
     head (report_results report) = Some result /\
     check_id result = authentication_id /\
     passed result = false /\ severity result = CRITICAL /\
     (fail_fast (auth_then_readonly false) = true ->
      report_results report = [result] /\
      phase_summary report =
        [(ENTRY, {| ps_total := 1; ps_passed := 0; ps_failed := 1;
                    ps_critical := 1 |})] /\
      phase_calls (run_all_state (auth_then_readonly false) drop_context) =
        [(ENTRY, [(0%nat, Returned result)])])).
Proof.
  apply (@unauthenticated_request_is_critical plain_rendering
           (auth_then_readonly false) [@SQLReadOnlyCheck ascii_only_tables]
           drop_context (lit "now")).
  - reflexivity.
  - left. reflexivity.
Defined.

End Security.

(* ===================================================================== *)
(** * The overwrite layer (zero_hallucination_overwriter.py)              *)
(* ===================================================================== *)

Module Overwrite.
Import Py.

Inductive DataSourceType := SQL | API | FILE | CACHE | MEMORY.

#[global] Instance DataSourceType_eq_dec : EqDecision DataSourceType.
Proof. solve_decision. Defined.

(** [str(member)] of the enum. *)
Definition DataSourceType_str (t : DataSourceType) : pystr :=
  lit "DataSourceType." ++
  match t with
  | SQL => lit "SQL" | API => lit "API" | FILE => lit "FILE"
  | CACHE => lit "CACHE" | MEMORY => lit "MEMORY"
  end.

Record DataSource := {
  name : pystr;
  source_type : DataSourceType;
  connection_string : option pystr;
  read_only : bool;
  timeout : Z;
  metadata : pydict;
}.

(** [fallback_value] is any value, [None] standing for "no fallback".  A
    validator or a transform is a callable that returns or raises. *)
Record OverwriteRule := {
  placeholder : pystr;
  data_source : pystr;
  query_template : pystr;
  fallback_value : pyval;
  validator : option (pyval -> pyresult bool);
  transform : option (pyval -> pyresult pyval);
}.

(** The wall-clock field [query_time_ms] is not modelled. *)
Record OverwriteResult := {
  success : bool;
  r_placeholder : pystr;
  original_value : pyval;
  final_value : pyval;
  r_data_source : pystr;
  error : option pystr;
}.

(** The [QueryRunner] protocol: [execute(data_source, query)]. *)
Definition QueryRunner := DataSource -> pystr -> pyresult pyval.

(** ** SQLQueryRunner *)

Definition WRITE_KEYWORDS : list pystr :=
  [lit "insert"; lit "update"; lit "delete"; lit "drop"; lit "create";
   lit "alter"; lit "truncate"; lit "grant"; lit "revoke"; lit "merge"].

(** "拒絕非只讀查詢: " *)
Definition msg_refused_query : pystr :=
  [25298; 32085; 38750; 21482; 35712; 26597; 35426; 58; 32].
(** "精確數據值" *)
Definition exact_value : pystr :=
  [31934; 30906; 25976; 25818; 20540].

Section Runner.
Context `{UnicodeTables}.

Definition _is_readonly (query : pystr) : bool :=
  let query_upper := strip (upper query) in
  if negb (startswith query_upper (lit "SELECT")) then false
  else
    let query_lower := lower query in
    if existsb (fun keyword => contains keyword query_lower) WRITE_KEYWORDS
    then false
    else true.

(** [SQLQueryRunner.execute]; [elapsed_ms] is the clock reading stored in
    the result. *)
Definition SQLQueryRunner_execute (elapsed_ms : Q) : QueryRunner :=
  fun data_source query =>
    if negb (_is_readonly query)
    then Raised (msg_refused_query ++ slice_to 50 query ++ lit "...")
    else Returned (PyDict [(lit "data", PyDict [(lit "value", PyStr exact_value)]);
                           (lit "row_count", PyInt 1);
                           (lit "execution_time_ms", PyFloat elapsed_ms)]).

End Runner.

(** ** PlaceholderParser *)

(** One entry of [parse]'s result: the matched text, group 1 and the span. *)
Record ph_info := {
  ph_placeholder : pystr;
  ph_key : pystr;
  ph_position : nat * nat;
}.

(** Each of the four patterns is an opening text, the key
    [\w+(?:\.\w+)*] and a closing text; [$a.b] closes with [\b], which
    holds after every longest key. *)
Record ph_pattern := {
  opening : pystr;
  closing : pystr;
}.

Definition PLACEHOLDER_PATTERNS : list ph_pattern :=
  [ {| opening := lit "{{"; closing := lit "}}" |};
    {| opening := lit "${"; closing := lit "}" |};
    {| opening := lit "$"; closing := [] |};
    {| opening := lit "[["; closing := lit "]]" |} ].

Section Parser.
Context `{UnicodeTables}.

(** The longest run of word characters at the head of [s], and the rest. *)
Fixpoint take_word (s : pystr) : pystr * pystr :=
  match s with
  | c :: s' =>
      if is_word c then let '(w, r) := take_word s' in (c :: w, r)
      else ([], s)
  | [] => ([], [])
  end.

(** [(?:\.\w+)*], greedy. *)
Fixpoint dotted_tail (fuel : nat) (s : pystr) : pystr * pystr :=
  match fuel with
  | O => ([], s)
  | S fuel' =>
      match s with
      | 46 :: s' =>
          match take_word s' with
          | ([], _) => ([], s)
          | (w, r) => let '(k, r') := dotted_tail fuel' r in (46 :: w ++ k, r')
          end
      | _ => ([], s)
      end
  end.

(** [\w+(?:\.\w+)*] at the head of [s]: the key and the rest. *)
Definition match_key (s : pystr) : option (pystr * pystr) :=
  match take_word s with
  | ([], _) => None
  | (w, r) => let '(k, r') := dotted_tail (length r) r in Some (w ++ k, r')
  end.

(** A match of the pattern at the head of [s]: the key and the length of
    the matched text. *)
Definition match_at (pat : ph_pattern) (s : pystr) : option (pystr * nat) :=
  if startswith s (opening pat) then
    match match_key (drop (length (opening pat)) s) with
    | Some (key, r) =>
        if startswith r (closing pat)
        then Some (key, (length (opening pat) + length key + length (closing pat))%nat)
        else None
    | None => None
    end
  else None.

(** [pattern.finditer(template)]: the matches from the left, not
    overlapping; [pos] is the index of the head of [s] in the template. *)
Fixpoint finditer (fuel : nat) (pat : ph_pattern) (pos : nat) (s : pystr)
    : list ph_info :=
  match fuel with
  | O => []
  | S fuel' =>
      match s with
      | [] => []
      | _ :: s' =>
          match match_at pat s with
          | Some (key, n) =>
              {| ph_placeholder := take n s; ph_key := key;
                 ph_position := (pos, (pos + n)%nat) |}
              :: finditer fuel' pat (pos + n)%nat (drop n s)
          | None => finditer fuel' pat (S pos) s'
          end
      end
  end.

Definition parse (template : pystr) : list ph_info :=
  mjoin (map (fun pat => finditer (length template) pat 0%nat template)
             PLACEHOLDER_PATTERNS).

End Parser.


(** ** ZeroHallucinationOverwriter *)

Record ZeroHallucinationOverwriter := {
  data_sources : gmap pystr DataSource;
  rules : gmap pystr OverwriteRule;
  query_runners : DataSourceType -> option QueryRunner;
}.

Definition register_data_source (ow : ZeroHallucinationOverwriter)
    (source : DataSource) : ZeroHallucinationOverwriter :=
  {| data_sources := <[name source := source]> (data_sources ow);
     rules := rules ow;
     query_runners := query_runners ow |}.

Definition register_rule (ow : ZeroHallucinationOverwriter)
    (rule : OverwriteRule) : ZeroHallucinationOverwriter :=
  {| data_sources := data_sources ow;
     rules := <[placeholder rule := rule]> (rules ow);
     query_runners := query_runners ow |}.

Definition register_query_runner (ow : ZeroHallucinationOverwriter)
    (t : DataSourceType) (runner : QueryRunner) : ZeroHallucinationOverwriter :=
  {| data_sources := data_sources ow;
     rules := rules ow;
     query_runners := fun t' => if decide (t' = t) then Some runner
                                else query_runners ow t' |}.

(** "未找到佔位符 '" *)
Definition msg_no_rule_pre : pystr :=
  [26410; 25214; 21040; 20308; 20301; 31526; 32; 39].
(** "' 的覆寫規則" *)
Definition msg_no_rule_post : pystr :=
  [39; 32; 30340; 35206; 23531; 35215; 21063].
(** "數據源 '" *)
Definition msg_source_pre : pystr :=
  [25976; 25818; 28304; 32; 39].
(** "' 未註冊" *)
Definition msg_source_post : pystr :=
  [39; 32; 26410; 35387; 20874].
(** "不支持的數據源類型: " *)
Definition msg_unsupported_type : pystr :=
  [19981; 25903; 25345; 30340; 25976; 25818; 28304; 39006; 22411; 58; 32].
(** "值驗證失敗: " *)
Definition msg_validation_failed : pystr :=
  [20540; 39511; 35657; 22833; 25943; 58; 32].

(** The result of [overwrite]; [stats.time_ms] is not modelled. *)
Record OverwriteOutput := {
  final_output : pystr;
  results : list OverwriteResult;
  all_success : bool;
  stats_total : nat;
  stats_success : nat;
  stats_failed : nat;
}.

Section Overwriter.
Context `{UnicodeTables} `{Rendering}.

(** [re.sub(r'[^\w\s.-]', '', value)], quoted. *)
Definition _sanitize_value (value : pyval) : pystr :=
  match value with
  | PyStr s =>
      let safe := List.filter (fun c => is_word c || py_isspace c ||
                                        (c =? 46) || (c =? 45)) s in
      [39] ++ safe ++ [39]
  | _ => py_str value
  end.

(** The loop of [_build_query] over [context.items()]. *)
Fixpoint build_query_loop (items : pydict) (query : pystr) : pystr :=
  match items with
  | [] => query
  | (key, value) :: items' =>
      let placeholder := lit "{" ++ key ++ lit "}" in
      build_query_loop items'
        (if contains placeholder query
         then replace query placeholder (_sanitize_value value)
         else query)
  end.

Definition _build_query (template : pystr) (context : option pydict) : pystr :=
  match context with
  | None | Some [] => template
  | Some items => build_query_loop items template
  end.

(** [query_result.get("data", {}).get("value")]. *)
Definition result_value (query_result : pyval) : pyresult pyval :=
  match query_result with
  | PyDict d =>
      match dict_get_default (lit "data") (PyDict []) d with
      | PyDict data => Returned (dict_get_default (lit "value") PyNone data)
      | v => Raised (Security.no_attribute v (lit "get"))
      end
  | v => Raised (Security.no_attribute v (lit "get"))
  end.

(** The body of the [try] of [_overwrite_single]: the value to substitute,
    or the exception that reaches [except Exception]. *)
Definition resolve (ow : ZeroHallucinationOverwriter) (rule : OverwriteRule)
    (source : DataSource) (context : option pydict) : pyresult pyval :=
  let query := _build_query (query_template rule) context in
  match query_runners ow (source_type source) with
  | None => Raised (msg_unsupported_type ++ DataSourceType_str (source_type source))
  | Some runner =>
      match runner source query with
      | Raised e => Raised e
      | Returned query_result =>
          match result_value query_result with
          | Raised e => Raised e
          | Returned value =>
              match
                match validator rule with
                | None => Returned true
                | Some validate => validate value
                end
              with
              | Raised e => Raised e
              | Returned false => Raised (msg_validation_failed ++ py_str value)
              | Returned true =>
                  match transform rule with
                  | None => Returned value
                  | Some f => f value
                  end
              end
          end
      end
  end.

Definition _overwrite_single (ow : ZeroHallucinationOverwriter)
    (ph key : pystr) (context : option pydict) : OverwriteResult :=
  match rules ow !! ph with
  | None =>
      match context with
      | Some ((_ :: _) as items) =>
          match dict_get key items with
          | Some value =>
              {| success := true; r_placeholder := ph; original_value := PyStr ph;
                 final_value := value; r_data_source := lit "context";
                 error := None |}
          | None =>
              {| success := false; r_placeholder := ph; original_value := PyStr ph;
                 final_value := PyNone; r_data_source := lit "unknown";
                 error := Some (msg_no_rule_pre ++ ph ++ msg_no_rule_post) |}
          end
      | _ =>
          {| success := false; r_placeholder := ph; original_value := PyStr ph;
             final_value := PyNone; r_data_source := lit "unknown";
             error := Some (msg_no_rule_pre ++ ph ++ msg_no_rule_post) |}
      end
  | Some rule =>
      match data_sources ow !! data_source rule with
      | None =>
          {| success := false; r_placeholder := ph; original_value := PyStr ph;
             final_value := PyNone; r_data_source := data_source rule;
             error := Some (msg_source_pre ++ data_source rule ++ msg_source_post) |}
      | Some source =>
          match resolve ow rule source context with
          | Returned value =>
              {| success := true; r_placeholder := ph; original_value := PyStr ph;
                 final_value := value; r_data_source := data_source rule;
                 error := None |}
          | Raised e =>
              match fallback_value rule with
              | PyNone =>
                  {| success := false; r_placeholder := ph;
                     original_value := PyStr ph; final_value := PyNone;
                     r_data_source := data_source rule; error := Some e |}
              | fallback =>
                  {| success := true; r_placeholder := ph;
                     original_value := PyStr ph; final_value := fallback;
                     r_data_source := data_source rule; error := None |}
              end
          end
      end
  end.

(** [OverwriteRule("", "", "")], the default of [self.rules.get]. *)
Definition empty_rule : OverwriteRule :=
  {| placeholder := []; data_source := []; query_template := [];
     fallback_value := PyNone; validator := None; transform := None |}.

(** One turn of [for ph_info in placeholders]. *)
Definition overwrite_step (ow : ZeroHallucinationOverwriter)
    (context : option pydict) (acc : list OverwriteResult * pystr)
    (info : ph_info) : list OverwriteResult * pystr :=
  let '(results, final_output) := acc in
  let ph := ph_placeholder info in
  let result := _overwrite_single ow ph (ph_key info) context in
  let results' := results ++ [result] in
  if success result
  then (results', replace final_output ph (py_str (final_value result)))
  else
    match fallback_value (default empty_rule (rules ow !! ph)) with
    | PyNone => (results', final_output)
    | fallback => (results', replace final_output ph (py_str fallback))
    end.

Definition overwrite (ow : ZeroHallucinationOverwriter) (template : pystr)
    (context : option pydict) : OverwriteOutput :=
  match parse template with
  | [] =>
      {| final_output := template; results := []; all_success := true;
         stats_total := 0; stats_success := 0; stats_failed := 0 |}
  | placeholders =>
      let '(results, final_output) :=
        foldl (overwrite_step ow context) ([], template) placeholders in
      let success_count := length (List.filter success results) in
      {| final_output := final_output;
         results := results;
         all_success := bool_decide (success_count = length results);
         stats_total := length results;
         stats_success := success_count;
         stats_failed := length results - success_count |}
  end.

End Overwriter.

(** ** Facts about the read-only checks *)

Section ReadOnlyFacts.
Context `{UnicodeTables}.
Import PyFacts.

Lemma gate_keywords_upper (keyword : pystr) :
  In keyword Security.WRITE_KEYWORDS -> Forall upper_letter keyword.
Proof.
  unfold Security.WRITE_KEYWORDS. simpl.
  intros Hin.
  repeat (destruct Hin as [<-|Hin];
          [repeat constructor; unfold upper_letter; simpl; lia|]).
  destruct Hin.
Qed.

(** The runner's list holds the lower-case form of each of the gate's
    keywords (and [merge] besides). *)
Lemma runner_keywords_cover (keyword : pystr) :
  In keyword Security.WRITE_KEYWORDS ->
  In (map ascii_lower keyword) WRITE_KEYWORDS.
Proof.
  unfold Security.WRITE_KEYWORDS, WRITE_KEYWORDS. simpl.
  intros Hin.
  repeat (destruct Hin as [<-|Hin]; [vm_compute; tauto|]).
  destruct Hin.
Qed.

Lemma upper_keeps_keyword (pre w post keyword : pystr) :
  Forall upper_letter keyword -> spells w keyword ->
  contains keyword (upper (pre ++ w ++ post)) = true.
Proof.
  intros Hk Hs. unfold upper.
  rewrite <- (spells_upper w keyword Hk Hs).
  apply case_map_keeps_word. by eapply spells_ascii.
Qed.

Lemma lower_keeps_keyword (pre w post keyword : pystr) :
  Forall upper_letter keyword -> spells w keyword ->
  contains (map ascii_lower keyword) (lower (pre ++ w ++ post)) = true.
Proof.
  intros Hk Hs. unfold lower.
  rewrite <- (spells_lower w keyword Hk Hs).
  apply case_map_keeps_word. by eapply spells_ascii.
Qed.

Lemma first_write_keyword_found (keywords : list pystr) (keyword sql : pystr) :
  In keyword keywords -> contains keyword sql = true ->
  exists found, Security.first_write_keyword keywords sql = Some found /\
                In found keywords /\ contains found sql = true.
Proof.
  intros Hin Hc. unfold Security.first_write_keyword.
  destruct (List.find _ keywords) as [found|] eqn:Hf.
  - apply find_some in Hf as [? ?]. by exists found.
  - apply (find_none _ _ Hf) in Hin. simpl in Hin. congruence.
Qed.

Lemma _is_readonly_needs_select (query : pystr) :
  startswith (strip (upper query)) (lit "SELECT") = false ->
  _is_readonly query = false.
Proof. unfold _is_readonly. by intros ->. Qed.

Lemma _is_readonly_no_keyword (query keyword : pystr) :
  In keyword WRITE_KEYWORDS -> contains keyword (lower query) = true ->
  _is_readonly query = false.
Proof.
  intros Hin Hc. unfold _is_readonly.
  destruct (negb _); [done|].
  replace (existsb _ _) with true; [done|].
  symmetry. apply existsb_exists. by exists keyword.
Qed.

Lemma execute_refuses (elapsed_ms : Q) (source : DataSource) (query : pystr) :
  _is_readonly query = false ->
  SQLQueryRunner_execute elapsed_ms source query =
  Raised (msg_refused_query ++ slice_to 50 query ++ lit "...").
Proof. unfold SQLQueryRunner_execute. by intros ->. Qed.

(** C2.  A SQL text in which one of INSERT, UPDATE, DELETE, DROP, CREATE,
    ALTER, TRUNCATE, GRANT, REVOKE stands, in any letter case and at any
    position, is failed by [SQLReadOnlyCheck] (a CRITICAL result that did not
    pass, the context untouched) and refused by [SQLQueryRunner.execute],
    which raises instead of running it; the runner also refuses every query
    whose upper-cased, stripped text does not begin with SELECT. *)
Theorem write_keyword_rejected (sql pre w post keyword : pystr)
    (context : pydict) (elapsed_ms : Q) (source : DataSource) :
  In keyword Security.WRITE_KEYWORDS ->
  spells w keyword ->
  sql = pre ++ w ++ post ->
  dict_get (lit "sql") context = Some (PyStr sql) ->
  (exists result,
      Security.sc_check Security.SQLReadOnlyCheck context = (Returned result, context) /\
      Security.passed result = false /\
      Security.severity result = Security.CRITICAL /\
      Security.check_id result = Security.sql_readonly_id) /\
  _is_readonly sql = false /\
  (exists e, SQLQueryRunner_execute elapsed_ms source sql = Raised e) /\
  (forall query,
      startswith (strip (upper query)) (lit "SELECT") = false ->
      exists e, SQLQueryRunner_execute elapsed_ms source query = Raised e).
Proof.
  intros Hin Hs -> Hget.
  pose proof (gate_keywords_upper keyword Hin) as Hk.
  assert (_is_readonly (pre ++ w ++ post) = false) as Hro.
  { eapply _is_readonly_no_keyword; [by apply runner_keywords_cover|].
    by apply lower_keeps_keyword. }
  split; [|split; [done|split]].
  - destruct (first_write_keyword_found Security.WRITE_KEYWORDS keyword
                (upper (pre ++ w ++ post)) Hin) as (found & Hf & _ & _).
    { by apply upper_keeps_keyword. }
    change (Security.sc_check Security.SQLReadOnlyCheck context)
      with (Security.SQLReadOnlyCheck_check context).
    unfold Security.SQLReadOnlyCheck_check, dict_get_default.
    rewrite Hget. cbn [from_option id]. rewrite Hf.
    eexists. split; [reflexivity|]. done.
  - eexists. by apply execute_refuses.
  - intros query Hq. eexists. apply execute_refuses.
    by apply _is_readonly_needs_select.
Qed.

End ReadOnlyFacts.

(** The statement above at [select * from t; DrOp table t]. *)
Lemma write_keyword_rejected_witness :
  let sql := lit "select * from t; DrOp table t" in
  let context := [(lit "sql", PyStr sql)] in
  let source := {| name := lit "db"; source_type := SQL;
                   connection_string := None; read_only := true;
                   timeout := 30; metadata := [] |} in
  (exists result,
      Security.sc_check (@Security.SQLReadOnlyCheck ascii_only_tables) context
        = (Returned result, context) /\
      Security.passed result = false /\
      Security.severity result = Security.CRITICAL /\
      Security.check_id result = Security.sql_readonly_id) /\
  @_is_readonly ascii_only_tables sql = false /\
  (exists e, @SQLQueryRunner_execute ascii_only_tables 0 source sql = Raised e) /\
  (forall query,
      startswith (strip (@upper ascii_only_tables query)) (lit "SELECT") = false ->
      exists e, @SQLQueryRunner_execute ascii_only_tables 0 source query = Raised e).
Proof.
  intros sql context source.
  apply (@write_keyword_rejected ascii_only_tables sql
           (lit "select * from t; ") (lit "DrOp") (lit " table t") (lit "DROP")).
  - vm_compute. tauto.
  - repeat (constructor; [first [left; reflexivity | right; reflexivity]|]).
    constructor.
  - reflexivity.
  - reflexivity.
Defined.

(** ** Facts about the overwrite loop *)

Section OverwriteFacts.
Context `{UnicodeTables} `{Rendering}.

(** A resolution that raises, under a rule with a fallback: the result
    carries the fallback and counts as a success, and the turn of the loop
    substitutes the fallback. *)
Lemma fallback_on_exception (ow : ZeroHallucinationOverwriter) (info : ph_info)
    (context : option pydict) (rule : OverwriteRule) (source : DataSource)
    (e : pystr) (done_results : list OverwriteResult) (out : pystr) :
  rules ow !! ph_placeholder info = Some rule ->
  data_sources ow !! data_source rule = Some source ->
  resolve ow rule source context = Raised e ->
  fallback_value rule <> PyNone ->
  exists result,
    overwrite_step ow context (done_results, out) info =
      (done_results ++ [result],
       replace out (ph_placeholder info) (py_str (fallback_value rule))) /\
    success result = true /\
    final_value result = fallback_value rule.
Proof.
  intros Hrule Hsrc Hres Hfb.
  unfold overwrite_step, _overwrite_single. rewrite Hrule, Hsrc, Hres.
  destruct (fallback_value rule) eqn:Hv; [done|..];
    (eexists; split; [reflexivity|]; done).
Qed.


Lemma no_rule_no_context_fails (ow : ZeroHallucinationOverwriter) (ph key : pystr)
    (context : option pydict) :
  rules ow !! ph = None ->
  (forall items, context = Some items -> dict_get key items = None) ->
  success (_overwrite_single ow ph key context) = false.
Proof.
  intros Hrule Hctx. unfold _overwrite_single. rewrite Hrule.
  destruct context as [[|item items]|]; [done| |done].
  by rewrite (Hctx _ eq_refl).
Qed.

(** C8, where the code departs from it.  When the rule of a placeholder
    names a data source that was never registered, [_overwrite_single]
    returns before its [try]: the result is recorded as a failure whatever
    the rule's fallback, and [overwrite] still substitutes the fallback (when
    there is one) for the placeholder. *)
Theorem unregistered_source_ignores_fallback (ow : ZeroHallucinationOverwriter)
    (info : ph_info) (context : option pydict) (rule : OverwriteRule)
    (done_results : list OverwriteResult) (out : pystr) :
  rules ow !! ph_placeholder info = Some rule ->
  data_sources ow !! data_source rule = None ->
  fallback_value rule <> PyNone ->
  exists result,
    overwrite_step ow context (done_results, out) info =
      (done_results ++ [result],
       replace out (ph_placeholder info) (py_str (fallback_value rule))) /\
    success result = false /\
    final_value result = PyNone /\
    error result = Some (msg_source_pre ++ data_source rule ++ msg_source_post).
Proof.
  intros Hrule Hsrc Hfb.
  unfold overwrite_step, _overwrite_single. rewrite Hrule, Hsrc.
  cbn [success default from_option id].
  destruct (fallback_value rule) eqn:Hv; [done|..];
    (eexists; split; [reflexivity|]; done).
Qed.

End OverwriteFacts.

(** ** What the parser reports *)

Section ParserFacts.
Context `{UnicodeTables}.

(** A character of a key: a word character or a dot. *)
Definition key_char (c : N) : Prop := is_word c = true \/ c = 46%N.

(** The texts that the four patterns match: an opening, a non-empty key of
    word characters and dots, and the closing of the same pattern. *)
Definition placeholder_shape (ph key : pystr) : Prop :=
  exists pat, pat ∈ PLACEHOLDER_PATTERNS /\
              ph = opening pat ++ key ++ closing pat /\
              key <> [] /\ Forall key_char key.

Lemma take_word_spec (s w r : pystr) :
  take_word s = (w, r) -> s = w ++ r /\ Forall (fun c => is_word c = true) w.
Proof.
  revert w r. induction s as [|c s IH]; intros w r Hw; cbn in Hw.
  - by injection Hw as <- <-.
  - destruct (is_word c) eqn:Hc.
    + destruct (take_word s) as [w' r'] eqn:Hs. injection Hw as <- <-.
      destruct (IH w' r' eq_refl) as [-> Hall]. split; [done|]. by constructor.
    + by injection Hw as <- <-.
Qed.

Lemma dotted_tail_unfold (fuel : nat) (c : N) (s : pystr) :
  dotted_tail (S fuel) (c :: s) =
  if (c =? 46)%N then
    match take_word s with
    | ([], _) => ([], c :: s)
    | (w, r) => let '(k, r') := dotted_tail fuel r in (46%N :: w ++ k, r')
    end
  else ([], c :: s).
Proof.
  destruct (N.eqb_spec c 46) as [->|Hne]; [done|].
  destruct c as [|p]; [done|].
  do 6 (try (destruct p as [p|p|]; try done)).
Qed.

Lemma dotted_tail_spec (fuel : nat) (s k r : pystr) :
  dotted_tail fuel s = (k, r) -> s = k ++ r /\ Forall key_char k.
Proof.
  revert s k r. induction fuel as [|fuel IH]; intros s k r Hk.
  { cbn in Hk. by injection Hk as <- <-. }
  destruct s as [|c s]; [cbn in Hk; by injection Hk as <- <-|].
  rewrite dotted_tail_unfold in Hk.
  destruct (N.eqb_spec c 46) as [->|Hne]; [|by injection Hk as <- <-].
  destruct (take_word s) as [w r0] eqn:Hw.
  destruct (take_word_spec _ _ _ Hw) as [-> Hword].
  destruct w as [|a w]; [by injection Hk as <- <-|].
  destruct (dotted_tail fuel r0) as [k' r'] eqn:Hrest.
  injection Hk as <- <-.
  destruct (IH _ _ _ Hrest) as [-> Hkey]. split.
  - cbn. by rewrite app_assoc.
  - constructor; [by right|].
    change (Forall key_char ((a :: w) ++ k')). apply Forall_app. split; [|done].
    eapply Forall_impl; [exact Hword|]. by left.
Qed.

Lemma match_key_spec (s key r : pystr) :
  match_key s = Some (key, r) ->
  s = key ++ r /\ key <> [] /\ Forall key_char key.
Proof.
  unfold match_key. intros Hm.
  destruct (take_word s) as [w r0] eqn:Hw.
  destruct (take_word_spec _ _ _ Hw) as [-> Hword].
  destruct w as [|a w]; [done|].
  destruct (dotted_tail (length r0) r0) as [k r'] eqn:Hrest.
  injection Hm as <- <-.
  destruct (dotted_tail_spec _ _ _ _ Hrest) as [-> Hkey].
  split; [cbn; by rewrite app_assoc|]. split; [done|].
  change (Forall key_char ((a :: w) ++ k)). apply Forall_app. split; [|done].
  eapply Forall_impl; [exact Hword|]. by left.
Qed.

Lemma match_at_spec (pat : ph_pattern) (s key : pystr) (n : nat) :
  match_at pat s = Some (key, n) ->
  exists rest,
    s = (opening pat ++ key ++ closing pat) ++ rest /\
    n = length (opening pat ++ key ++ closing pat) /\
    key <> [] /\ Forall key_char key.
Proof.
  unfold match_at. intros Hm.
  destruct (startswith s (opening pat)) eqn:Hopen; [|done].
  apply PyFacts.startswith_inv in Hopen as [r0 ->].
  rewrite drop_app_length in Hm.
  destruct (match_key r0) as [[key' r]|] eqn:Hkey; [|done].
  destruct (match_key_spec _ _ _ Hkey) as (-> & Hne & Hchars).
  destruct (startswith r (closing pat)) eqn:Hclose; [|done].
  apply PyFacts.startswith_inv in Hclose as [rest ->].
  injection Hm as <- <-. exists rest.
  split; [by rewrite <- !app_assoc|]. split; [|done].
  rewrite !length_app. lia.
Qed.

(** What [parse] says of a placeholder is true of the template: the
    position is a span of the template, the placeholder is the text of that
    span, and it is the key between the opening and the closing of one of
    the four patterns. *)
Definition reported (template : pystr) (info : ph_info) : Prop :=
  (info.(ph_position).1 < info.(ph_position).2 <= length template)%nat /\
  ph_placeholder info =
    take (info.(ph_position).2 - info.(ph_position).1)
         (drop info.(ph_position).1 template) /\
  placeholder_shape (ph_placeholder info) (ph_key info).

Lemma finditer_reported (template : pystr) (pat : ph_pattern) (fuel pos : nat) :
  pat ∈ PLACEHOLDER_PATTERNS ->
  Forall (reported template) (finditer fuel pat pos (drop pos template)).
Proof.
  intros Hpat. revert pos. induction fuel as [|fuel IH]; intros pos; [constructor|].
  cbn [finditer].
  destruct (drop pos template) as [|c s'] eqn:Hs; [constructor|].
  destruct (match_at pat (c :: s')) as [[key n]|] eqn:Hm.
  - destruct (match_at_spec _ _ _ _ Hm) as (rest & Heq & Hn & Hne & Hchars).
    assert (take n (c :: s') = opening pat ++ key ++ closing pat) as Htake.
    { rewrite Heq, Hn. by rewrite take_app_length. }
    assert (n <= length (drop pos template))%nat as Hlen.
    { rewrite Hs, Heq, Hn, !length_app. lia. }
    assert (0 < n)%nat as Hpos.
    { rewrite Hn, !length_app. destruct key; [done|]. cbn. lia. }
    rewrite length_drop in Hlen.
    constructor.
    + unfold reported. cbn [ph_position ph_placeholder ph_key fst snd].
      split; [lia|]. split.
      * rewrite Hs. f_equal. lia.
      * rewrite Htake. by exists pat.
    + rewrite <- Hs, drop_drop. apply IH.
  - replace s' with (drop (S pos) template); [apply IH|].
    replace (S pos) with (pos + 1)%nat by lia. by rewrite <- drop_drop, Hs.
Qed.

Lemma parse_reported (template : pystr) :
  Forall (reported template) (parse template).
Proof.
  unfold parse. apply Forall_forall. intros info Hin.
  apply list_elem_of_join in Hin as (found & Hin & Hfound).
  apply list_elem_of_fmap in Hfound as (pat & -> & Hpat).
  pose proof (finditer_reported template pat (length template) 0 Hpat) as Hall.
  rewrite drop_0 in Hall. rewrite Forall_forall in Hall. by apply Hall.
Qed.

(** Every placeholder that [parse] reports is in the template where the
    report says: [position] is a non-empty span inside the template,
    [placeholder] is the text of the template on that span, and that text is
    the opening of one of the four patterns, the reported [key] (non-empty,
    of word characters and dots) and the closing of the same pattern. *)
Theorem parse_reports_template_spans (template : pystr) (info : ph_info) :
  info ∈ parse template ->
  (info.(ph_position).1 < info.(ph_position).2 <= length template)%nat /\
  ph_placeholder info =
    take (info.(ph_position).2 - info.(ph_position).1)
         (drop info.(ph_position).1 template) /\
  exists pat, pat ∈ PLACEHOLDER_PATTERNS /\
              ph_placeholder info = opening pat ++ ph_key info ++ closing pat /\
              ph_key info <> [] /\
              Forall (fun c => is_word c = true \/ c = 46%N) (ph_key info).
Proof.
  intros Hin. pose proof (parse_reported template) as Hall.
  rewrite Forall_forall in Hall. exact (Hall _ Hin).
Qed.

(** A text without [{], [$] and [[] has no placeholder. *)
Lemma match_at_needs_opener (pat : ph_pattern) (c : N) (s : pystr) :
  pat ∈ PLACEHOLDER_PATTERNS ->
  c <> 123%N -> c <> 36%N -> c <> 91%N ->
  match_at pat (c :: s) = None.
Proof.
  intros Hpat H1 H2 H3. unfold match_at.
  replace (startswith (c :: s) (opening pat)) with false; [done|].
  symmetry. unfold PLACEHOLDER_PATTERNS in Hpat.
  repeat (apply elem_of_cons in Hpat as [->|Hpat];
          [cbn; apply andb_false_iff; left; by apply N.eqb_neq|]).
  by apply elem_of_nil in Hpat.
Qed.

Lemma finditer_plain (pat : ph_pattern) (fuel pos : nat) (s : pystr) :
  pat ∈ PLACEHOLDER_PATTERNS ->
  Forall (fun c => c <> 123%N /\ c <> 36%N /\ c <> 91%N) s ->
  finditer fuel pat pos s = [].
Proof.
  intros Hpat. revert pos s. induction fuel as [|fuel IH]; intros pos s Hs; [done|].
  destruct s as [|c s]; [done|]. cbn [finditer].
  apply Forall_cons in Hs as [(H1 & H2 & H3) Hs].
  rewrite match_at_needs_opener by done. by apply IH.
Qed.

Lemma parse_plain (template : pystr) :
  Forall (fun c => c <> 123%N /\ c <> 36%N /\ c <> 91%N) template ->
  parse template = [].
Proof.
  intros Hplain. unfold parse, PLACEHOLDER_PATTERNS. cbn [map mjoin list_join].
  rewrite !finditer_plain; try done;
    unfold PLACEHOLDER_PATTERNS; repeat first [apply list_elem_of_here
                                              |apply list_elem_of_further].
Qed.

End ParserFacts.

(** ** What [overwrite] accounts for *)

Section OverwriteAccounts.
Context `{UnicodeTables} `{Rendering}.

Lemma overwrite_step_results (ow : ZeroHallucinationOverwriter)
    (context : option pydict) (acc : list OverwriteResult * pystr) (info : ph_info) :
  (overwrite_step ow context acc info).1 =
  acc.1 ++ [_overwrite_single ow (ph_placeholder info) (ph_key info) context].
Proof.
  destruct acc as [rs out]. unfold overwrite_step.
  destruct (success _); [done|]. by destruct (fallback_value _).
Qed.

Lemma overwrite_loop_results (ow : ZeroHallucinationOverwriter)
    (context : option pydict) (infos : list ph_info)
    (acc : list OverwriteResult * pystr) :
  (foldl (overwrite_step ow context) acc infos).1 =
  acc.1 ++ map (fun info => _overwrite_single ow (ph_placeholder info)
                              (ph_key info) context) infos.
Proof.
  revert acc. induction infos as [|info infos IH]; intros acc; cbn.
  - by rewrite app_nil_r.
  - by rewrite IH, overwrite_step_results, <- app_assoc.
Qed.

Lemma filter_all {A} (f : A -> bool) (xs : list A) :
  length (List.filter f xs) = length xs <-> Forall (fun x => f x = true) xs.
Proof.
  induction xs as [|x xs IH]; cbn.
  - split; [by constructor|done].
  - rewrite Forall_cons. pose proof (List.filter_length_le f xs) as Hle.
    destruct (f x); cbn; split.
    + intros [= Hlen]. split; [done|]. by apply IH.
    + intros [_ Hall]. f_equal. by apply IH.
    + intros Hlen. lia.
    + by intros [? _].
Qed.

(** [overwrite] resolves every placeholder that the parser reports, in the
    order of the report, each one by itself: [results] holds one
    [OverwriteResult] per reported placeholder, [stats.total] is their
    number, [success + failed = total], and the overall [success] is true
    exactly when no result failed. *)
Theorem overwrite_accounts_for_every_placeholder (ow : ZeroHallucinationOverwriter)
    (template : pystr) (context : option pydict) :
  let out := overwrite ow template context in
  results out =
    map (fun info => _overwrite_single ow (ph_placeholder info) (ph_key info) context)
        (parse template) /\
  stats_total out = length (parse template) /\
  stats_success out = length (List.filter success (results out)) /\
  (stats_success out + stats_failed out)%nat = stats_total out /\
  (all_success out = true <-> Forall (fun r => success r = true) (results out)) /\
  (all_success out = true <-> stats_failed out = 0%nat).
Proof.
  intros out. unfold out, overwrite.
  destruct (parse template) as [|info infos] eqn:Hparse.
  { cbn. repeat split; done. }
  pose proof (overwrite_loop_results ow context (info :: infos) ([], template))
    as Hloop.
  destruct (foldl (overwrite_step ow context) ([], template) (info :: infos))
    as [rs final] eqn:Hfold.
  cbn [fst app] in Hloop.
  cbn [results stats_total stats_success stats_failed all_success].
  pose proof (List.filter_length_le success rs) as Hle.
  split; [done|]. split; [by rewrite Hloop, length_map|].
  split; [done|]. split; [lia|].
  split.
  - rewrite bool_decide_eq_true. apply filter_all.
  - rewrite bool_decide_eq_true. lia.
Qed.

(** A template without the characters [{], [$] and [[] comes back as it is,
    with no result and all counts at zero, on every overwriter and with
    every context. *)
Theorem overwrite_plain_text (ow : ZeroHallucinationOverwriter) (template : pystr)
    (context : option pydict) :
  Forall (fun c => c <> 123%N /\ c <> 36%N /\ c <> 91%N) template ->
  overwrite ow template context =
    {| final_output := template; results := []; all_success := true;
       stats_total := 0; stats_success := 0; stats_failed := 0 |}.
Proof.
  intros Hplain. unfold overwrite. by rewrite (parse_plain template Hplain).
Qed.

(** A rule is looked up by the text of a reported placeholder.  A rule
    whose [placeholder] is not a text that the parser can report (an
    opening, a key of word characters and dots, the closing) is therefore
    never used: registering it changes the result of no [overwrite]. *)
Theorem malformed_rule_never_applies (ow : ZeroHallucinationOverwriter)
    (rule : OverwriteRule) (template : pystr) (context : option pydict) :
  (forall key, ~ placeholder_shape (placeholder rule) key) ->
  overwrite (register_rule ow rule) template context = overwrite ow template context.
Proof.
  intros Hshape.
  assert (forall info, info ∈ parse template ->
            ph_placeholder info <> placeholder rule) as Hother.
  { intros info Hin Heq. pose proof (parse_reported template) as Hall.
    rewrite Forall_forall in Hall. destruct (Hall _ Hin) as (_ & _ & Hsh).
    rewrite Heq in Hsh. by apply (Hshape (ph_key info)). }
  assert (forall info acc, info ∈ parse template ->
            overwrite_step (register_rule ow rule) context acc info =
            overwrite_step ow context acc info) as Hstep.
  { intros info acc Hin. specialize (Hother info Hin).
    unfold overwrite_step, _overwrite_single, register_rule. cbn [rules data_sources].
    rewrite lookup_insert_ne by done. done. }
  unfold overwrite.
  destruct (parse template) as [|info infos] eqn:Hparse; [done|].
  assert (forall infos' acc,
            (forall i, i ∈ infos' -> i ∈ info :: infos) ->
            foldl (overwrite_step (register_rule ow rule) context) acc infos' =
            foldl (overwrite_step ow context) acc infos') as Hfold.
  { induction infos' as [|i infos' IH]; intros acc Hsub; [done|].
    cbn. rewrite Hstep by (apply Hsub, list_elem_of_here).
    apply IH. intros j Hj. by apply Hsub, list_elem_of_further. }
  by rewrite Hfold.
Qed.

(** A string value is put into a query as one quoted literal that it
    cannot leave: what is left of the value between the two quotes are its
    word characters, white space, dots and hyphens, in their order, and so
    no quote, double quote, semicolon, backslash, brace or parenthesis.
    Integers are put as their digits. *)
Theorem sanitized_string_stays_quoted (s : pystr) (z : Z) :
  let safe := List.filter (fun c => is_word c || py_isspace c ||
                                    (c =? 46)%N || (c =? 45)%N) s in
  _sanitize_value (PyStr s) = [39%N] ++ safe ++ [39%N] /\
  Forall (fun c => is_word c = true \/ py_isspace c = true \/
                   c = 46%N \/ c = 45%N) safe /\
  Forall (fun c => c ∉ [39; 34; 59; 92; 123; 125; 40; 41; 61; 42; 47; 35]%N) safe /\
  (Forall (fun c => is_word c = true) s -> safe = s) /\
  _sanitize_value (PyInt z) = str_of_int z.
Proof.
  intros safe.
  assert (Forall (fun c => is_word c = true \/ py_isspace c = true \/
                           c = 46%N \/ c = 45%N) safe) as Hsafe.
  { apply Forall_forall. intros c Hc.
    apply list_elem_of_In, filter_In in Hc as [_ Hc].
    rewrite !orb_true_iff, !N.eqb_eq in Hc. tauto. }
  split; [done|]. split; [done|]. split; [|split; [|done]].
  - eapply Forall_impl; [exact Hsafe|]. intros c Hc Hbad.
    repeat (apply elem_of_cons in Hbad as [->|Hbad];
            [by destruct Hc as [Hc|[Hc|[Hc|Hc]]]; vm_compute in Hc|]).
    by apply elem_of_nil in Hbad.
  - intros Hword. unfold safe. apply forallb_filter_id, forallb_forall.
    intros c Hc. rewrite Forall_forall in Hword.
    by rewrite (Hword c) by (by apply list_elem_of_In).
Qed.

End OverwriteAccounts.

(** The overwriter of the examples: the default SQL runner, no data
    source, and one rule for [{{user.balance}}] over the unregistered
    source [user_db], with the fallback ["0.00"]. *)
Definition balance_rule : OverwriteRule :=
  {| placeholder := lit "{{user.balance}}";
     data_source := lit "user_db";
     query_template := lit "SELECT balance as value FROM accounts";
     fallback_value := PyStr (lit "0.00");
     validator := None;
     transform := None |}.

Definition demo_overwriter : ZeroHallucinationOverwriter :=
  register_rule
    {| data_sources := ∅;
       rules := ∅;
       query_runners := fun t =>
         if decide (t = SQL)
         then Some (@SQLQueryRunner_execute ascii_only_tables 0)
         else None |}
    balance_rule.

(** [overwrite("Balance: {{user.balance}}")] on that overwriter: the output
    shows the fallback, the one result is a failure, and so is the whole. *)
Example overwrite_unregistered_source :
  let out := @overwrite ascii_only_tables plain_rendering demo_overwriter
               (lit "Balance: {{user.balance}}") None in
  final_output out = lit "Balance: 0.00" /\
  map success (results out) = [false] /\
  all_success out = false /\
  (stats_total out, stats_success out, stats_failed out) = (1, 0, 1)%nat.
Proof. vm_compute. done. Qed.

(** The statement above at that overwriter and placeholder. *)
Lemma unregistered_source_ignores_fallback_witness :
  exists result,
    @overwrite_step ascii_only_tables plain_rendering demo_overwriter None
      ([], lit "Balance: {{user.balance}}")
      {| ph_placeholder := lit "{{user.balance}}"; ph_key := lit "user.balance";
         ph_position := (9, 25)%nat |} =
      ([] ++ [result],
       replace (lit "Balance: {{user.balance}}") (lit "{{user.balance}}")
         (@py_str plain_rendering (fallback_value balance_rule))) /\
    success result = false /\
    final_value result = PyNone /\
    error result = Some (msg_source_pre ++ data_source balance_rule ++ msg_source_post).
Proof.
  apply (@unregistered_source_ignores_fallback ascii_only_tables plain_rendering
           demo_overwriter
           {| ph_placeholder := lit "{{user.balance}}"; ph_key := lit "user.balance";
              ph_position := (9, 25)%nat |}
           None balance_rule [] (lit "Balance: {{user.balance}}")).
  - vm_compute. reflexivity.
  - vm_compute. reflexivity.
  - discriminate.
Defined.

(** The same overwriter with the source [user_db] registered and a rule
    for [{{user.name}}] whose query is no SELECT: the runner refuses it. *)
Definition name_rule : OverwriteRule :=
  {| placeholder := lit "{{user.name}}";
     data_source := lit "user_db";
     query_template := lit "DELETE FROM users";
     fallback_value := PyStr (lit "unknown");
     validator := None;
     transform := None |}.

Definition user_db : DataSource :=
  {| name := lit "user_db"; source_type := SQL; connection_string := None;
     read_only := true; timeout := 30; metadata := [] |}.

Definition demo_overwriter_with_source : ZeroHallucinationOverwriter :=
  register_rule (register_data_source demo_overwriter user_db) name_rule.

Definition name_info : ph_info :=
  {| ph_placeholder := lit "{{user.name}}"; ph_key := lit "user.name";
     ph_position := (6, 19)%nat |}.

(** The statement of [fallback_on_exception] there: the query is refused,
    the fallback is shown and the result counts as a success. *)
Lemma fallback_on_exception_witness :
  exists result,
    @overwrite_step ascii_only_tables plain_rendering demo_overwriter_with_source
      None ([], lit "Name: {{user.name}}") name_info =
      ([] ++ [result],
       replace (lit "Name: {{user.name}}") (ph_placeholder name_info)
         (@py_str plain_rendering (fallback_value name_rule))) /\
    success result = true /\
    final_value result = fallback_value name_rule.
Proof.
  apply (@fallback_on_exception ascii_only_tables plain_rendering
           demo_overwriter_with_source name_info None name_rule user_db
           (msg_refused_query ++ slice_to 50 (lit "DELETE FROM users") ++ lit "...")
           [] (lit "Name: {{user.name}}")).
  - vm_compute. reflexivity.
  - vm_compute. reflexivity.
  - vm_compute. reflexivity.
  - discriminate.
Defined.



(** ** The tested behaviours of [overwrite] *)

Section Tested.
Context `{UnicodeTables} `{Rendering}.

Lemma parse_hello_world : parse (lit "Hello World") = [].
Proof. vm_compute. reflexivity. Qed.

Lemma parse_name_template :
  parse (lit "Name: {{name}}") =
  [{| ph_placeholder := lit "{{name}}"; ph_key := lit "name";
      ph_position := (6, 14)%nat |}].
Proof. vm_compute. reflexivity. Qed.

(** A template in which the parser finds no placeholder comes back
    unchanged, with all counts at zero. *)
Lemma overwrite_without_placeholders (ow : ZeroHallucinationOverwriter)
    (template : pystr) (context : option pydict) :
  parse template = [] ->
  overwrite ow template context =
    {| final_output := template; results := []; all_success := true;
       stats_total := 0; stats_success := 0; stats_failed := 0 |}.
Proof. intros Hp. unfold overwrite. by rewrite Hp. Qed.

(** [overwrite("Hello World")], on every overwriter and context. *)
Theorem overwrite_hello_world (ow : ZeroHallucinationOverwriter)
    (context : option pydict) :
  final_output (overwrite ow (lit "Hello World") context) = lit "Hello World" /\
  stats_total (overwrite ow (lit "Hello World") context) = 0%nat.
Proof.
  by rewrite (overwrite_without_placeholders ow _ context parse_hello_world).
Qed.

(** [overwrite("Name: {{name}}", context={"name": "John"})] on an
    overwriter that has no rule for [{{name}}]. *)
Theorem overwrite_from_context (ow : ZeroHallucinationOverwriter) :
  rules ow !! lit "{{name}}" = None ->
  final_output (overwrite ow (lit "Name: {{name}}")
                  (Some [(lit "name", PyStr (lit "John"))]))
  = lit "Name: John".
Proof.
  intros Hrule. unfold overwrite. rewrite parse_name_template.
  cbn [foldl]. unfold overwrite_step, _overwrite_single.
  cbn [ph_placeholder ph_key]. rewrite Hrule. vm_compute. reflexivity.
Qed.

End Tested.

(** The statement of [overwrite_from_context] at the overwriter of the
    examples. *)
Lemma overwrite_from_context_witness :
  final_output (@overwrite ascii_only_tables plain_rendering demo_overwriter
                  (lit "Name: {{name}}")
                  (Some [(lit "name", PyStr (lit "John"))]))
  = lit "Name: John".
Proof.
  apply (@overwrite_from_context ascii_only_tables plain_rendering demo_overwriter).
  vm_compute. reflexivity.
Defined.

(** A rule for the placeholder of the second of [EXAMPLE_RULES],
    [${{user.balance}}]: no pattern of the parser matches that text as a
    whole. *)
Definition dollar_balance_rule : OverwriteRule :=
  {| placeholder := lit "${{user.balance}}";
     data_source := lit "user_db";
     query_template :=
       lit "SELECT balance as value FROM accounts WHERE user_id = {user_id}";
     fallback_value := PyFloat 0;
     validator := None;
     transform := None |}.

Lemma dollar_balance_is_no_placeholder (key : pystr) :
  ~ @placeholder_shape ascii_only_tables (placeholder dollar_balance_rule) key.
Proof.
  intros (pat & Hpat & Heq & Hne & Hchars).
  unfold PLACEHOLDER_PATTERNS in Hpat.
  repeat (apply elem_of_cons in Hpat as [->|Hpat]);
    [| | | |by apply elem_of_nil in Hpat]; cbn in Heq; try discriminate.
  - destruct key as [|c key]; [done|]. injection Heq as <- _.
    apply Forall_cons in Hchars as [[Hc|Hc] _]; by vm_compute in Hc.
  - destruct key as [|c key]; [done|]. injection Heq as <- _.
    apply Forall_cons in Hchars as [[Hc|Hc] _]; by vm_compute in Hc.
Qed.

(** An overwriter as [ZeroHallucinationOverwriter()] builds it, with the
    source [user_db] and that rule registered. *)
Definition dollar_overwriter : ZeroHallucinationOverwriter :=
  register_rule
    (register_data_source
       {| data_sources := ∅;
          rules := ∅;
          query_runners := fun t =>
            if decide (t = SQL)
            then Some (@SQLQueryRunner_execute ascii_only_tables 0)
            else None |}
       user_db)
    dollar_balance_rule.

(** The template of the module's own example has the balance as
    [${{user.balance}}]: the parser reports [{{user.balance}}] in it, for
    which no rule is registered; the rule above is not used and the
    placeholder stays. *)
Example dollar_balance_not_overwritten :
  let out := @overwrite ascii_only_tables plain_rendering dollar_overwriter
               (lit "Balance: ${{user.balance}} USD") None in
  map ph_placeholder
      (@parse ascii_only_tables (lit "Balance: ${{user.balance}} USD"))
    = [lit "{{user.balance}}"] /\
  final_output out = lit "Balance: ${{user.balance}} USD" /\
  all_success out = false.
Proof. vm_compute. done. Qed.

(** The statement of [parse_reports_template_spans] at the placeholder of
    [Name: {{name}}]. *)
Lemma parse_reports_template_spans_witness :
  let template := lit "Name: {{name}}" in
  let info := {| ph_placeholder := lit "{{name}}"; ph_key := lit "name";
                 ph_position := (6, 14)%nat |} in
  (info.(ph_position).1 < info.(ph_position).2 <= length template)%nat /\
  ph_placeholder info =
    take (info.(ph_position).2 - info.(ph_position).1)
         (drop info.(ph_position).1 template) /\
  exists pat, pat ∈ PLACEHOLDER_PATTERNS /\
              ph_placeholder info = opening pat ++ ph_key info ++ closing pat /\
              ph_key info <> [] /\
              Forall (fun c => @is_word ascii_only_tables c = true \/ c = 46%N)
                     (ph_key info).
Proof.
  apply (@parse_reports_template_spans ascii_only_tables (lit "Name: {{name}}")
           {| ph_placeholder := lit "{{name}}"; ph_key := lit "name";
              ph_position := (6, 14)%nat |}).
  replace (parse _)
    with [{| ph_placeholder := lit "{{name}}"; ph_key := lit "name";
             ph_position := (6, 14)%nat |}]
    by (vm_compute; reflexivity).
  apply list_elem_of_here.
Defined.

(** The statement of [overwrite_plain_text] at [Hello World]. *)
Lemma overwrite_plain_text_witness :
  @overwrite ascii_only_tables plain_rendering demo_overwriter
    (lit "Hello World") None =
    {| final_output := lit "Hello World"; results := []; all_success := true;
       stats_total := 0; stats_success := 0; stats_failed := 0 |}.
Proof.
  apply (@overwrite_plain_text ascii_only_tables plain_rendering demo_overwriter
           (lit "Hello World") None).
  refine (bool_decide_unpack _ _). vm_compute. exact I.
Defined.

(** The statement of [malformed_rule_never_applies] at the rule above and
    the template of the example. *)
Lemma malformed_rule_never_applies_witness :
  @overwrite ascii_only_tables plain_rendering
    (register_rule demo_overwriter_with_source dollar_balance_rule)
    (lit "Balance: ${{user.balance}} USD") None =
  @overwrite ascii_only_tables plain_rendering demo_overwriter_with_source
    (lit "Balance: ${{user.balance}} USD") None.
Proof.
  apply (@malformed_rule_never_applies ascii_only_tables plain_rendering
           demo_overwriter_with_source dollar_balance_rule
           (lit "Balance: ${{user.balance}} USD") None).
  exact dollar_balance_is_no_placeholder.
Defined.

End Overwrite.

(* ===================================================================== *)
(** * The tool runtime (tool_interface.py, registry.py, executor.py)      *)
(* ===================================================================== *)

Module Tools.
Import Py.

(** The closed permission vocabulary. *)
Inductive Permission :=
| FILESYSTEM_READ | FILESYSTEM_WRITE
| NETWORK_INTERNAL | NETWORK_EXTERNAL
| DATABASE_READ | DATABASE_WRITE
| PROCESS_EXECUTE
| SYSTEM_INFO | SYSTEM_CONFIG.

#[global] Instance Permission_eq_dec : EqDecision Permission.
Proof. solve_decision. Defined.

Definition Permission_index (p : Permission) : nat :=
  match p with
  | FILESYSTEM_READ => 0 | FILESYSTEM_WRITE => 1
  | NETWORK_INTERNAL => 2 | NETWORK_EXTERNAL => 3
  | DATABASE_READ => 4 | DATABASE_WRITE => 5
  | PROCESS_EXECUTE => 6
  | SYSTEM_INFO => 7 | SYSTEM_CONFIG => 8
  end%nat.

Definition Permission_of_index (n : nat) : Permission :=
  match n with
  | 0 => FILESYSTEM_READ | 1 => FILESYSTEM_WRITE
  | 2 => NETWORK_INTERNAL | 3 => NETWORK_EXTERNAL
  | 4 => DATABASE_READ | 5 => DATABASE_WRITE
  | 6 => PROCESS_EXECUTE
  | 7 => SYSTEM_INFO | _ => SYSTEM_CONFIG
  end%nat.

#[global] Instance Permission_countable : Countable Permission.
Proof.
  apply (inj_countable' Permission_index Permission_of_index).
  by intros [].
Defined.

Record ToolContext := {
  user_id : pystr;
  tenant_id : pystr;
  mode : pystr;
  session_id : pystr;
  ctx_permissions : list Permission;
  request_id : pystr;
}.

(** The text of [ToolResult.error]: what the executor writes, by case, or
    a text of the tool's own. *)
Inductive error_text :=
| ToolNotFound (tool_id : pystr)
| PermissionDenied (missing_perms : gset Permission)
| ValidationFailed
| ExecutionTimeout (timeout : pyval)
| TimeoutAudited (timeout : pyval)
| ExecutionException (e : pystr)
| ErrorText (s : pystr).

(** [bool(text)]: only the empty text is false, and only a text of the
    tool's own can be empty. *)
Definition nonempty (e : error_text) : bool :=
  match e with
  | ErrorText [] => false
  | _ => true
  end.

Record ToolResult := {
  success : bool;
  data : pyval;
  error : option error_text;
  metadata : pydict;
}.

Record ToolMetadata := {
  id : pystr;
  name : pystr;
  description : pystr;
  category : pystr;
  version : pystr;
  author : pystr;
  license : pystr;
  permissions : list Permission;
  dangerous : bool;
  input_schema : pydict;
  output_schema : pydict;
  sandbox_required : bool;
  network_access : bool;
  filesystem_access : bool;
  dependencies : pydict;
}.

(** How a call of [tool.execute] under [asyncio.wait_for] ends. *)
Inductive run_outcome :=
| Finished (r : pyresult ToolResult)
| TimedOut.

(** A tool: its metadata and the two abstract methods the executor calls.
    [tool_execute] is given the timeout it runs under. *)
Record ToolInterface := {
  tool_metadata : ToolMetadata;
  validate_input : pydict -> pyresult bool;
  tool_execute : ToolContext -> pydict -> pyval -> run_outcome;
}.

(** [ToolInterface.check_permission]. *)
Definition check_permission (tool : ToolInterface) (context : ToolContext) : bool :=
  let required : gset Permission := list_to_set (permissions (tool_metadata tool)) in
  let granted : gset Permission := list_to_set (ctx_permissions context) in
  bool_decide (required ⊆ granted).

(** ** ToolRegistry *)

Record tool_stats := {
  call_count : nat;
  success_count : nat;
  error_count : nat;
  total_time_ms : Q;
}.

Record ToolRegistry := {
  _tools : gmap pystr ToolInterface;
  _metadata : gmap pystr ToolMetadata;
  _stats : gmap pystr tool_stats;
}.

(** [registry.register(tool_id, tool)]; the time of registration kept in
    the statistics is left out. *)
Definition register (reg : ToolRegistry) (tool_id : pystr) (tool : ToolInterface)
    : ToolRegistry :=
  {| _tools := <[tool_id := tool]> (_tools reg);
     _metadata := <[tool_id := tool_metadata tool]> (_metadata reg);
     _stats := <[tool_id := {| call_count := 0; success_count := 0;
                               error_count := 0; total_time_ms := 0 |}]>
                 (_stats reg) |}.

Definition get_tool (reg : ToolRegistry) (tool_id : pystr) : option ToolInterface :=
  _tools reg !! tool_id.

Definition record_call (reg : ToolRegistry) (tool_id : pystr) (ok : bool)
    (time_ms : Q) : ToolRegistry :=
  match _stats reg !! tool_id with
  | None => reg
  | Some st =>
      {| _tools := _tools reg;
         _metadata := _metadata reg;
         _stats := <[tool_id :=
                      {| call_count := S (call_count st);
                         success_count := if ok then S (success_count st)
                                          else success_count st;
                         error_count := if ok then error_count st
                                        else S (error_count st);
                         total_time_ms := total_time_ms st + time_ms |}]>
                     (_stats reg) |}
  end.

(** ** ToolExecutor *)

Record audit_data := {
  a_tool_id : pystr;
  a_user_id : pystr;
  a_tenant_id : pystr;
  a_session_id : pystr;
  a_request_id : pystr;
  a_params : pydict;
  a_success : bool;
  a_result_data : pyval;
  a_error : option error_text;
  a_time_ms : Q;
}.

Record ToolExecutor := {
  registry : ToolRegistry;
  default_timeout : Z;
  enable_sandbox : bool;
  _audit_callback : option (audit_data -> pyresult unit);
}.

(** What [execute] called on its way: the tool's methods and the audit
    callback. *)
Inductive call :=
| CallValidateInput (tool_id : pystr) (params : pydict)
| CallExecute (tool_id : pystr) (context : ToolContext) (params : pydict)
    (timeout : pyval)
| CallAudit (a : audit_data).

(** [ToolExecutor._audit]: the callback, when one is set, is called once;
    what it raises is logged and dropped. *)
Definition _audit (ex : ToolExecutor) (tool_id : pystr) (context : ToolContext)
    (params : pydict) (result : option ToolResult) (err : option error_text)
    (time_ms : Q) : list call :=
  match _audit_callback ex with
  | None => []
  | Some callback =>
      let a :=
        {| a_tool_id := tool_id;
           a_user_id := user_id context;
           a_tenant_id := tenant_id context;
           a_session_id := session_id context;
           a_request_id := request_id context;
           a_params := params;
           a_success := from_option success false result;
           a_result_data :=
             match result with
             | Some r => if success r then data r else PyNone
             | None => PyNone
             end;
           a_error :=
             match err with
             | Some e => if nonempty e then Some e else r ← result; error r
             | None => r ← result; error r
             end;
           a_time_ms := time_ms |} in
      match callback a with
      | Returned _ | Raised _ => [CallAudit a]
      end
  end.

(** The result of one [execute]: what it returned or raised, the registry
    as it left it, and the calls it made, in order. *)
Record execution := {
  outcome : pyresult ToolResult;
  registry_after : ToolRegistry;
  calls : list call;
}.

Definition failure (e : error_text) : ToolResult :=
  {| success := false; data := PyNone; error := Some e; metadata := [] |}.

(** [timeout or metadata.input_schema.get("timeout", self.default_timeout)]. *)
Definition effective_timeout (ex : ToolExecutor) (meta : ToolMetadata)
    (timeout : option Z) : pyval :=
  match timeout with
  | Some t => if (t =? 0)%Z
              then dict_get_default (lit "timeout") (PyInt (default_timeout ex))
                     (input_schema meta)
              else PyInt t
  | None => dict_get_default (lit "timeout") (PyInt (default_timeout ex))
              (input_schema meta)
  end.

(** [_execute_with_timeout]: the tool's [execute] under
    [asyncio.wait_for]; [_execute_in_sandbox] does the same for now. *)
Definition _execute_with_timeout (tool : ToolInterface) (context : ToolContext)
    (params : pydict) (timeout : pyval) : run_outcome :=
  tool_execute tool context params timeout.

Definition _execute_in_sandbox (tool : ToolInterface) (context : ToolContext)
    (params : pydict) (timeout : pyval) : run_outcome :=
  _execute_with_timeout tool context params timeout.

(** [ToolExecutor.execute]; [elapsed_ms] is the time the clock shows when
    the call is accounted. *)
Definition execute (ex : ToolExecutor) (tool_id : pystr) (context : ToolContext)
    (params : pydict) (timeout : option Z) (elapsed_ms : Q) : execution :=
  match get_tool (registry ex) tool_id with
  | None =>
      {| outcome := Returned (failure (ToolNotFound tool_id));
         registry_after := registry ex; calls := [] |}
  | Some tool =>
      let meta := tool_metadata tool in
      if negb (check_permission tool context) then
        let missing_perms : gset Permission :=
          list_to_set (permissions meta) ∖ list_to_set (ctx_permissions context) in
        let error_msg := PermissionDenied missing_perms in
        {| outcome := Returned (failure error_msg);
           registry_after := registry ex;
           calls := _audit ex tool_id context params None (Some error_msg) 0 |}
      else
        match validate_input tool params with
        | Raised e =>
            {| outcome := Raised e; registry_after := registry ex;
               calls := [CallValidateInput tool_id params] |}
        | Returned false =>
            {| outcome := Returned (failure ValidationFailed);
               registry_after := registry ex;
               calls := [CallValidateInput tool_id params] |}
        | Returned true =>
            let timeout := effective_timeout ex meta timeout in
            let before := [CallValidateInput tool_id params;
                           CallExecute tool_id context params timeout] in
            match
              if enable_sandbox ex && sandbox_required meta
              then _execute_in_sandbox tool context params timeout
              else _execute_with_timeout tool context params timeout
            with
            | Finished (Returned result) =>
                {| outcome := Returned result;
                   registry_after :=
                     record_call (registry ex) tool_id (success result) elapsed_ms;
                   calls := before ++ _audit ex tool_id context params
                                        (Some result) None elapsed_ms |}
            | TimedOut =>
                {| outcome := Returned (failure (ExecutionTimeout timeout));
                   registry_after := record_call (registry ex) tool_id false elapsed_ms;
                   calls := before ++ _audit ex tool_id context params None
                                        (Some (TimeoutAudited timeout)) elapsed_ms |}
            | Finished (Raised e) =>
                {| outcome := Returned (failure (ExecutionException e));
                   registry_after := record_call (registry ex) tool_id false elapsed_ms;
                   calls := before ++ _audit ex tool_id context params None
                                        (Some (ErrorText e)) elapsed_ms |}
            end
        end
  end.

Definition is_execute (c : call) : bool :=
  match c with CallExecute _ _ _ _ => true | _ => false end.

Definition is_audit (c : call) : bool :=
  match c with CallAudit _ => true | _ => false end.

(** ** The rest of the registry *)

(** [repr(key)] of a string, which is the text of the [KeyError] raised by
    [del d[key]]: the interpreter's. *)
Class Repr := repr_str : pystr -> pystr.

(** [registry.unregister(tool_id)]: what it returns or raises, and the
    registry as it leaves it.  The statistics are kept. *)
Definition unregister `{Repr} (reg : ToolRegistry) (tool_id : pystr)
    : pyresult bool * ToolRegistry :=
  match _tools reg !! tool_id with
  | None => (Returned false, reg)
  | Some _ =>
      match _metadata reg !! tool_id with
      | Some _ =>
          (Returned true,
           {| _tools := delete tool_id (_tools reg);
              _metadata := delete tool_id (_metadata reg);
              _stats := _stats reg |})
      | None =>
          (Raised (repr_str tool_id),
           {| _tools := delete tool_id (_tools reg);
              _metadata := _metadata reg;
              _stats := _stats reg |})
      end
  end.

Definition get_metadata (reg : ToolRegistry) (tool_id : pystr) : option ToolMetadata :=
  _metadata reg !! tool_id.

Definition get_stats (reg : ToolRegistry) (tool_id : pystr) : option tool_stats :=
  _stats reg !! tool_id.

(** [ToolRegistry()]. *)
Definition new_registry : ToolRegistry :=
  {| _tools := ∅; _metadata := ∅; _stats := ∅ |}.

(** [executor.set_audit_callback(callback)]. *)
Definition set_audit_callback (ex : ToolExecutor)
    (callback : audit_data -> pyresult unit) : ToolExecutor :=
  {| registry := registry ex;
     default_timeout := default_timeout ex;
     enable_sandbox := enable_sandbox ex;
     _audit_callback := Some callback |}.

(** ** Facts about the executor *)

Lemma _audit_only_audits (ex : ToolExecutor) tool_id context params result err
    time_ms :
  Forall (fun c => is_audit c = true)
         (_audit ex tool_id context params result err time_ms).
Proof.
  unfold _audit. destruct (_audit_callback ex) as [callback|]; [|constructor].
  destruct (callback _); repeat constructor.
Qed.

Lemma check_permission_false (tool : ToolInterface) (context : ToolContext) :
  check_permission tool context = false <->
  ~ (list_to_set (permissions (tool_metadata tool)) ⊆@{gset Permission}
     list_to_set (ctx_permissions context)).
Proof.
  unfold check_permission. rewrite bool_decide_eq_false. done.
Qed.

(** What is missing is not empty when the declared set is not covered. *)
Lemma missing_nonempty (required granted : gset Permission) :
  ~ required ⊆ granted -> required ∖ granted <> ∅.
Proof.
  intros Hnot Hempty. apply Hnot. intros p Hp.
  destruct (decide (p ∈ granted)) as [|Hn]; [done|].
  assert (p ∈ required ∖ granted) as Hin by (by apply elem_of_difference).
  rewrite Hempty in Hin. by apply elem_of_empty in Hin.
Qed.

(** C3.  A call of a registered tool whose declared permissions are not all
    among those the context grants returns a [ToolResult] with
    [success = false] whose error lists the missing permissions (the
    declared ones that are not granted, at least one), and on the way
    neither the tool's [execute] nor its [validate_input] is called: the
    audit callback, if one is set, is all that runs, and the registry's
    statistics stay as they were. *)
Theorem permission_denied_never_executes (ex : ToolExecutor) (tool_id : pystr)
    (tool : ToolInterface) (context : ToolContext) (params : pydict)
    (timeout : option Z) (elapsed_ms : Q) :
  get_tool (registry ex) tool_id = Some tool ->
  ~ (list_to_set (permissions (tool_metadata tool)) ⊆@{gset Permission}
     list_to_set (ctx_permissions context)) ->
  let run := execute ex tool_id context params timeout elapsed_ms in
  let missing_perms : gset Permission :=
    list_to_set (permissions (tool_metadata tool)) ∖
    list_to_set (ctx_permissions context) in
  outcome run = Returned (failure (PermissionDenied missing_perms)) /\
  success (failure (PermissionDenied missing_perms)) = false /\
  missing_perms <> ∅ /\
  (forall p, p ∈ missing_perms <->
             p ∈ permissions (tool_metadata tool) /\ p ∉ ctx_permissions context) /\
  Forall (fun c => is_execute c = false) (calls run) /\
  Forall (fun c => is_audit c = true) (calls run) /\
  registry_after run = registry ex.
Proof.
  intros Htool Hnot run missing_perms. subst run.
  unfold execute. rewrite Htool.
  apply check_permission_false in Hnot as Hcheck. rewrite Hcheck.
  cbn [negb outcome calls registry_after].
  split; [done|]. split; [done|]. split; [by apply missing_nonempty|].
  split; [|split; [|split; [|done]]].
  - intros p. unfold missing_perms.
    by rewrite elem_of_difference, !elem_of_list_to_set.
  - eapply Forall_impl; [apply _audit_only_audits|].
    by intros [] ?.
  - apply _audit_only_audits.
Qed.

(** ** The paths of [execute] *)

Lemma _audit_calls (ex : ToolExecutor) tool_id context params result err time_ms :
  _audit ex tool_id context params result err time_ms = [] /\
    _audit_callback ex = None \/
  exists a, _audit ex tool_id context params result err time_ms = [CallAudit a] /\
            is_Some (_audit_callback ex) /\
            a_tool_id a = tool_id /\ a_user_id a = user_id context /\
            a_success a = from_option success false result.
Proof.
  unfold _audit. destruct (_audit_callback ex) as [callback|]; [right|by left].
  eexists. split; [by destruct (callback _)|]. by split.
Qed.

(** [execute] raises in one case only: when the tool's [validate_input]
    raises, the exception passes through (that call stands before the
    [try]), nothing is recorded and nothing is audited.  Once the input is
    validated [execute] returns a result whatever the tool does: the tool's
    own result, or a failure for a timeout or for an exception of the tool;
    and the call is recorded in the statistics with the [success] of that
    result. *)
Theorem execute_raises_only_from_validate_input (ex : ToolExecutor)
    (tool_id : pystr) (context : ToolContext) (params : pydict)
    (timeout : option Z) (elapsed_ms : Q) :
  let run := execute ex tool_id context params timeout elapsed_ms in
  (forall e,
     outcome run = Raised e <->
     exists tool, get_tool (registry ex) tool_id = Some tool /\
                  check_permission tool context = true /\
                  validate_input tool params = Raised e) /\
  (forall e,
     outcome run = Raised e ->
     registry_after run = registry ex /\
     calls run = [CallValidateInput tool_id params]) /\
  (forall tool,
     get_tool (registry ex) tool_id = Some tool ->
     check_permission tool context = true ->
     validate_input tool params = Returned true ->
     exists result,
       outcome run = Returned result /\
       registry_after run =
         record_call (registry ex) tool_id (success result) elapsed_ms /\
       match tool_execute tool context params
               (effective_timeout ex (tool_metadata tool) timeout) with
       | Finished (Returned r) => result = r
       | Finished (Raised e) => result = failure (ExecutionException e)
       | TimedOut =>
           result = failure (ExecutionTimeout
                               (effective_timeout ex (tool_metadata tool) timeout))
       end).
Proof.
  intros run. unfold run, execute.
  destruct (get_tool (registry ex) tool_id) as [tool|] eqn:Htool.
  2:{ cbn. repeat split; try done. by intros (tool & ? & _). }
  destruct (check_permission tool context) eqn:Hperm; cbn [negb].
  2:{ cbn. repeat split; try done.
      - intros (tool' & [= <-] & ? & _). congruence.
      - intros tool' [= <-] ?. congruence. }
  destruct (validate_input tool params) as [[|]|e0] eqn:Hvalid.
  - unfold _execute_in_sandbox, _execute_with_timeout.
    assert ((if enable_sandbox ex && sandbox_required (tool_metadata tool)
             then tool_execute tool context params
                    (effective_timeout ex (tool_metadata tool) timeout)
             else tool_execute tool context params
                    (effective_timeout ex (tool_metadata tool) timeout)) =
            tool_execute tool context params
              (effective_timeout ex (tool_metadata tool) timeout)) as ->.
    { by destruct (enable_sandbox ex && sandbox_required (tool_metadata tool)). }
    destruct (tool_execute tool context params
                (effective_timeout ex (tool_metadata tool) timeout))
      as [[r|e1]|] eqn:Hrun; cbn [outcome registry_after calls].
    + split; [|split]; try done.
      * intros e. split; [done|]. intros (tool' & [= <-] & _ & ?). congruence.
      * intros tool' [= <-] _ _. rewrite Hrun. by exists r.
    + split; [|split]; try done.
      * intros e. split; [done|]. intros (tool' & [= <-] & _ & ?). congruence.
      * intros tool' [= <-] _ _. rewrite Hrun. by eexists.
    + split; [|split]; try done.
      * intros e. split; [done|]. intros (tool' & [= <-] & _ & ?). congruence.
      * intros tool' [= <-] _ _. rewrite Hrun. by eexists.
  - cbn. split; [|split]; try done.
    + intros e. split; [done|]. intros (tool' & [= <-] & _ & ?). congruence.
    + intros tool' [= <-] _ ?. congruence.
  - cbn. split; [|split].
    + intros e. split.
      * intros [= <-]. by exists tool.
      * intros (tool' & [= <-] & _ & ?). congruence.
    + done.
    + intros tool' [= <-] _ ?. congruence.
Qed.

(** The two ways past the registry lookup: the tool is run (found,
    permitted, input valid), or the call is denied for its permissions. *)
Definition runs_tool (ex : ToolExecutor) (tool_id : pystr) (context : ToolContext)
    (params : pydict) : bool :=
  match get_tool (registry ex) tool_id with
  | Some tool =>
      check_permission tool context &&
      match validate_input tool params with
      | Returned true => true
      | _ => false
      end
  | None => false
  end.

Definition denies (ex : ToolExecutor) (tool_id : pystr) (context : ToolContext)
    : bool :=
  match get_tool (registry ex) tool_id with
  | Some tool => negb (check_permission tool context)
  | None => false
  end.

(** Which calls reach the audit callback.  With a callback set, [execute]
    calls it once when the permissions are denied and once when the tool
    was run (whether it returned, raised or timed out), and not at all when
    the tool is not registered or its input is not valid: these two
    refusals leave no audit record.  The tool's [execute] is called at most
    once, and only after the permission check and the validation; the
    statistics change only when it was called.  An audit record carries the
    tool id and the user and session of the calling context. *)
Theorem execute_audit_coverage (ex : ToolExecutor) (tool_id : pystr)
    (context : ToolContext) (params : pydict) (timeout : option Z)
    (elapsed_ms : Q) (callback : audit_data -> pyresult unit) :
  _audit_callback ex = Some callback ->
  let run := execute ex tool_id context params timeout elapsed_ms in
  length (List.filter is_audit (calls run)) =
    (if runs_tool ex tool_id context params || denies ex tool_id context
     then 1 else 0)%nat /\
  length (List.filter is_execute (calls run)) =
    (if runs_tool ex tool_id context params then 1 else 0)%nat /\
  (runs_tool ex tool_id context params = false ->
   registry_after run = registry ex) /\
  Forall (fun c => match c with
                   | CallAudit a => a_tool_id a = tool_id /\
                                    a_user_id a = user_id context /\
                                    a_session_id a = session_id context
                   | _ => True
                   end) (calls run).
Proof.
  intros Hcb run. unfold run, runs_tool, denies, execute.
  destruct (get_tool (registry ex) tool_id) as [tool|] eqn:Htool.
  2:{ cbn. repeat split; try done. }
  destruct (check_permission tool context) eqn:Hperm; cbn [negb andb orb].
  2:{ cbn [calls registry_after]. unfold _audit. rewrite Hcb.
      destruct (callback _); cbn; repeat split; try done; by repeat constructor. }
  destruct (validate_input tool params) as [[|]|e0] eqn:Hvalid.
  - destruct (if enable_sandbox ex && sandbox_required (tool_metadata tool)
              then _ else _) as [[r|e1]|];
      cbn [calls registry_after]; unfold _audit; rewrite Hcb;
      destruct (callback _); cbn; repeat split; try done; by repeat constructor.
  - cbn. repeat split; try done; by repeat constructor.
  - cbn. repeat split; try done; by repeat constructor.
Qed.

(** ** Registries as the operations build them *)

Section RegistryFacts.
Context `{Repr}.

(** The registries that can come about: a new one, and what [register],
    [unregister] and the executor's [execute] make of one. *)
Inductive built : ToolRegistry -> Prop :=
| built_new : built new_registry
| built_register reg tool_id tool :
    built reg -> built (register reg tool_id tool)
| built_unregister reg tool_id :
    built reg -> built (unregister reg tool_id).2
| built_execute ex tool_id context params timeout elapsed_ms :
    built (registry ex) ->
    built (registry_after (execute ex tool_id context params timeout elapsed_ms)).

Definition consistent (reg : ToolRegistry) : Prop :=
  (forall tool_id st, _stats reg !! tool_id = Some st ->
     call_count st = (success_count st + error_count st)%nat) /\
  (forall tool_id, _metadata reg !! tool_id = tool_metadata <$> _tools reg !! tool_id) /\
  (forall tool_id, is_Some (_tools reg !! tool_id) -> is_Some (_stats reg !! tool_id)).

Lemma record_call_consistent (reg : ToolRegistry) (tool_id : pystr) (ok : bool)
    (time_ms : Q) :
  consistent reg -> consistent (record_call reg tool_id ok time_ms).
Proof.
  intros (Hcount & Hmeta & Hstats). unfold record_call.
  destruct (_stats reg !! tool_id) as [st|] eqn:Hst; [|done].
  split; [|split]; cbn [_stats _metadata _tools]; [|done|].
  - intros id st'. destruct (decide (tool_id = id)) as [<-|Hne].
    + rewrite lookup_insert_eq. intros [= <-]. cbn.
      specialize (Hcount _ _ Hst). destruct ok; lia.
    + rewrite lookup_insert_ne by done. apply Hcount.
  - intros id Hid. destruct (decide (tool_id = id)) as [<-|Hne].
    + rewrite lookup_insert_eq. by eexists.
    + rewrite lookup_insert_ne by done. by apply Hstats.
Qed.

Lemma execute_registry (ex : ToolExecutor) tool_id context params timeout elapsed_ms :
  registry_after (execute ex tool_id context params timeout elapsed_ms) = registry ex \/
  exists ok, registry_after (execute ex tool_id context params timeout elapsed_ms) =
             record_call (registry ex) tool_id ok elapsed_ms.
Proof.
  unfold execute.
  destruct (get_tool (registry ex) tool_id) as [tool|]; [|by left].
  destruct (negb (check_permission tool context)); [by left|].
  destruct (validate_input tool params) as [[|]|e0]; [|by left|by left].
  destruct (if enable_sandbox ex && sandbox_required (tool_metadata tool)
            then _ else _) as [[r|e1]|]; right; by eexists.
Qed.

Lemma built_consistent (reg : ToolRegistry) : built reg -> consistent reg.
Proof.
  induction 1 as [|reg tool_id tool Hb IH|reg tool_id Hb IH
                  |ex tool_id context params timeout elapsed_ms Hb IH].
  - split; [|split]; intros id; cbn; rewrite ?lookup_empty; try done.
  - destruct IH as (Hcount & Hmeta & Hstats).
    split; [|split]; intros id; cbn [register _stats _metadata _tools].
    + intros st. destruct (decide (tool_id = id)) as [<-|Hne].
      * rewrite lookup_insert_eq. by intros [= <-].
      * rewrite lookup_insert_ne by done. apply Hcount.
    + destruct (decide (tool_id = id)) as [<-|Hne].
      * by rewrite !lookup_insert_eq.
      * rewrite !lookup_insert_ne by done. apply Hmeta.
    + destruct (decide (tool_id = id)) as [<-|Hne].
      * rewrite !lookup_insert_eq. by eexists.
      * rewrite !lookup_insert_ne by done. apply Hstats.
  - destruct IH as (Hcount & Hmeta & Hstats). unfold unregister.
    destruct (_tools reg !! tool_id) as [tool|] eqn:Htool; [|done].
    rewrite Hmeta, Htool. cbn.
    split; [|split]; intros id; cbn [_stats _metadata _tools]; [apply Hcount| |].
    + destruct (decide (tool_id = id)) as [<-|Hne].
      * by rewrite !lookup_delete_eq.
      * rewrite !lookup_delete_ne by done. apply Hmeta.
    + destruct (decide (tool_id = id)) as [<-|Hne].
      * rewrite lookup_delete_eq. by intros [? ?].
      * rewrite lookup_delete_ne by done. apply Hstats.
  - destruct (execute_registry ex tool_id context params timeout elapsed_ms)
      as [->|[ok ->]]; [done|]. by apply record_call_consistent.
Qed.

(** Whatever sequence of [register], [unregister] and [execute] calls a
    registry has been through: in every statistics record
    [call_count = success_count + error_count]; the metadata kept for an id
    is that of the tool kept for it; every registered tool has a statistics
    record; and [unregister] does not raise. *)
Theorem built_registry_is_consistent (reg : ToolRegistry) :
  built reg ->
  (forall tool_id st, get_stats reg tool_id = Some st ->
     call_count st = (success_count st + error_count st)%nat) /\
  (forall tool_id, get_metadata reg tool_id = tool_metadata <$> get_tool reg tool_id) /\
  (forall tool_id, is_Some (get_tool reg tool_id) -> is_Some (get_stats reg tool_id)) /\
  (forall tool_id,
     (unregister reg tool_id).1 = Returned (bool_decide (is_Some (get_tool reg tool_id)))).
Proof.
  intros Hb. destruct (built_consistent reg Hb) as (Hcount & Hmeta & Hstats).
  split; [done|]. split; [done|]. split; [done|].
  intros tool_id. unfold unregister, get_tool.
  destruct (_tools reg !! tool_id) as [tool|] eqn:Htool.
  - rewrite Hmeta, Htool. cbn [fmap option_fmap option_map fst].
    by rewrite bool_decide_eq_true_2.
  - cbn [fst]. rewrite bool_decide_eq_false_2; [done|]. by intros [? ?].
Qed.

(** A call that runs the tool is counted once: on a registry built by the
    operations above, a call that passes the permission check and the
    validation adds one to the tool's [call_count], and one to
    [success_count] or to [error_count] according to the [success] of the
    result that [execute] returns; the records of the other tools stay as
    they are. *)
Theorem executed_call_is_counted_once (ex : ToolExecutor) (tool_id : pystr)
    (tool : ToolInterface) (context : ToolContext) (params : pydict)
    (timeout : option Z) (elapsed_ms : Q) :
  built (registry ex) ->
  get_tool (registry ex) tool_id = Some tool ->
  check_permission tool context = true ->
  validate_input tool params = Returned true ->
  let run := execute ex tool_id context params timeout elapsed_ms in
  exists result st,
    outcome run = Returned result /\
    get_stats (registry ex) tool_id = Some st /\
    get_stats (registry_after run) tool_id =
      Some {| call_count := S (call_count st);
              success_count := if success result then S (success_count st)
                               else success_count st;
              error_count := if success result then error_count st
                             else S (error_count st);
              total_time_ms := total_time_ms st + elapsed_ms |} /\
    (forall other, other <> tool_id ->
       get_stats (registry_after run) other = get_stats (registry ex) other) /\
    get_tool (registry_after run) tool_id = Some tool.
Proof.
  intros Hb Htool Hperm Hvalid run.
  destruct (built_consistent _ Hb) as (_ & _ & Hstats).
  destruct (Hstats tool_id) as [st Hst]; [by exists tool|].
  assert (exists result,
             outcome run = Returned result /\
             registry_after run =
               record_call (registry ex) tool_id (success result) elapsed_ms)
    as (result & Hout & Hreg).
  { unfold run, execute. rewrite Htool, Hperm, Hvalid. cbn [negb].
    destruct (if enable_sandbox ex && sandbox_required (tool_metadata tool)
              then _ else _) as [[r|e1]|]; by eexists. }
  exists result, st. split; [done|]. split; [done|].
  rewrite Hreg. unfold get_stats, get_tool, record_call. rewrite Hst.
  cbn [_stats _tools]. split; [by rewrite lookup_insert_eq|].
  split; [|done]. intros other Hother. by rewrite lookup_insert_ne.
Qed.

(** After [unregister] the tool is gone and its statistics are not: the id
    is not found by [get_tool] and by [execute], which returns the
    tool-not-found failure without a call or an audit record, while
    [get_stats] answers as before.  Registering the id again starts its
    statistics from zero. *)
Theorem unregistered_tool_is_not_found (ex : ToolExecutor) (tool_id : pystr)
    (context : ToolContext) (params : pydict) (timeout : option Z)
    (elapsed_ms : Q) (tool : ToolInterface) :
  let reg' := (unregister (registry ex) tool_id).2 in
  let ex' := {| registry := reg'; default_timeout := default_timeout ex;
                enable_sandbox := enable_sandbox ex;
                _audit_callback := _audit_callback ex |} in
  get_tool reg' tool_id = None /\
  get_stats reg' tool_id = get_stats (registry ex) tool_id /\
  (forall other, other <> tool_id ->
     get_tool reg' other = get_tool (registry ex) other) /\
  execute ex' tool_id context params timeout elapsed_ms =
    {| outcome := Returned (failure (ToolNotFound tool_id));
       registry_after := reg'; calls := [] |} /\
  get_tool (register reg' tool_id tool) tool_id = Some tool /\
  get_stats (register reg' tool_id tool) tool_id =
    Some {| call_count := 0; success_count := 0; error_count := 0;
            total_time_ms := 0 |}.
Proof.
  intros reg' ex'.
  assert (get_tool reg' tool_id = None) as Hgone.
  { unfold reg', unregister, get_tool.
    destruct (_tools (registry ex) !! tool_id) as [t|] eqn:Ht; [|done].
    destruct (_metadata (registry ex) !! tool_id); cbn; by rewrite lookup_delete_eq. }
  split; [done|]. split; [|split; [|split; [|split]]].
  - unfold reg', unregister, get_stats.
    destruct (_tools (registry ex) !! tool_id); [|done].
    by destruct (_metadata (registry ex) !! tool_id).
  - intros other Hother. unfold reg', unregister, get_tool.
    destruct (_tools (registry ex) !! tool_id); [|done].
    destruct (_metadata (registry ex) !! tool_id); cbn; by rewrite lookup_delete_ne.
  - unfold execute. cbn [registry ex']. by rewrite Hgone.
  - unfold get_tool, register. cbn. by rewrite lookup_insert_eq.
  - unfold get_stats, register. cbn. by rewrite lookup_insert_eq.
Qed.

End RegistryFacts.

(** A tool that declares [database:write], called by a context that holds
    [database:read] only. *)
Definition writer_tool : ToolInterface :=
  {| tool_metadata :=
       {| id := lit "sql_writer"; name := lit "SQL writer";
          description := lit "writes rows"; category := lit "database";
          version := lit "1.0.0"; author := lit "Unknown"; license := lit "MIT";
          permissions := [DATABASE_READ; DATABASE_WRITE];
          dangerous := true; input_schema := []; output_schema := [];
          sandbox_required := true; network_access := false;
          filesystem_access := false; dependencies := [] |};
     validate_input := fun _ => Returned true;
     tool_execute := fun _ _ _ =>
       Finished (Returned {| success := true; data := PyInt 1; error := None;
                             metadata := [] |}) |}.

Definition reader_context : ToolContext :=
  {| user_id := lit "user-001"; tenant_id := lit "tenant-001";
     mode := lit "hybrid_shield"; session_id := lit "sess-001";
     ctx_permissions := [DATABASE_READ]; request_id := lit "req-001" |}.

Definition demo_executor : ToolExecutor :=
  {| registry := register {| _tools := ∅; _metadata := ∅; _stats := ∅ |}
                   (lit "sql_writer") writer_tool;
     default_timeout := 30;
     enable_sandbox := true;
     _audit_callback := Some (fun _ => Returned tt) |}.

(** The statement above at that tool and context: [database:write] is
    reported missing and only the audit callback runs. *)
Lemma permission_denied_never_executes_witness :
  let run := execute demo_executor (lit "sql_writer") reader_context [] None 0 in
  let missing_perms : gset Permission :=
    list_to_set (permissions (tool_metadata writer_tool)) ∖
    list_to_set (ctx_permissions reader_context) in
  outcome run = Returned (failure (PermissionDenied missing_perms)) /\
  success (failure (PermissionDenied missing_perms)) = false /\
  missing_perms <> ∅ /\
  (forall p, p ∈ missing_perms <->
             p ∈ permissions (tool_metadata writer_tool) /\
             p ∉ ctx_permissions reader_context) /\
  Forall (fun c => is_execute c = false) (calls run) /\
  Forall (fun c => is_audit c = true) (calls run) /\
  registry_after run = registry demo_executor.
Proof.
  apply (permission_denied_never_executes demo_executor (lit "sql_writer")
           writer_tool reader_context [] None 0).
  - vm_compute. reflexivity.
  - intros Hsub. specialize (Hsub DATABASE_WRITE).
    assert (DATABASE_WRITE ∈@{gset Permission} list_to_set [DATABASE_READ]) as Hin.
    { apply Hsub. apply elem_of_list_to_set.
      apply list_elem_of_further, list_elem_of_here. }
    apply elem_of_list_to_set, list_elem_of_singleton in Hin. discriminate.
Defined.

(** With the permission granted, the same call does run the tool. *)
Example granted_call_executes :
  let context :=
    {| user_id := lit "user-001"; tenant_id := lit "tenant-001";
       mode := lit "hybrid_shield"; session_id := lit "sess-001";
       ctx_permissions := [DATABASE_WRITE; DATABASE_READ];
       request_id := lit "req-001" |} in
  let run := execute demo_executor (lit "sql_writer") context [] None 0 in
  map is_execute (calls run) = [false; true; false] /\
  (exists r, outcome run = Returned r /\ success r = true).
Proof. split; [vm_compute; reflexivity|]. eexists. split; vm_compute; reflexivity. Qed.

(** A context that holds both permissions of the writer tool. *)
Definition writer_context : ToolContext :=
  {| user_id := lit "user-001"; tenant_id := lit "tenant-001";
     mode := lit "hybrid_shield"; session_id := lit "sess-001";
     ctx_permissions := [DATABASE_WRITE; DATABASE_READ];
     request_id := lit "req-001" |}.

(** The coverage of the audit callback on the denied call of the examples:
    one audit record, no call of the tool. *)
Lemma execute_audit_coverage_witness :
  let run := execute demo_executor (lit "sql_writer") reader_context [] None 0 in
  length (List.filter is_audit (calls run)) =
    (if runs_tool demo_executor (lit "sql_writer") reader_context [] ||
        denies demo_executor (lit "sql_writer") reader_context
     then 1 else 0)%nat /\
  length (List.filter is_execute (calls run)) =
    (if runs_tool demo_executor (lit "sql_writer") reader_context []
     then 1 else 0)%nat /\
  (runs_tool demo_executor (lit "sql_writer") reader_context [] = false ->
   registry_after run = registry demo_executor) /\
  Forall (fun c => match c with
                   | CallAudit a => a_tool_id a = lit "sql_writer" /\
                                    a_user_id a = user_id reader_context /\
                                    a_session_id a = session_id reader_context
                   | _ => True
                   end) (calls run).
Proof.
  apply (execute_audit_coverage demo_executor (lit "sql_writer") reader_context []
           None 0 (fun _ => Returned tt)).
  reflexivity.
Defined.

(** A [repr] for the examples: the text between single quotes, which is
    the interpreter's for a text without quotes, backslashes and control
    characters. *)
Definition quoted_repr : Repr := fun s => lit "'" ++ s ++ lit "'".

(** The registry of the examples is one the operations build. *)
Lemma built_registry_is_consistent_witness :
  let reg := registry demo_executor in
  (forall tool_id st, get_stats reg tool_id = Some st ->
     call_count st = (success_count st + error_count st)%nat) /\
  (forall tool_id, get_metadata reg tool_id = tool_metadata <$> get_tool reg tool_id) /\
  (forall tool_id, is_Some (get_tool reg tool_id) -> is_Some (get_stats reg tool_id)) /\
  (forall tool_id,
     (@unregister quoted_repr reg tool_id).1 =
     Returned (bool_decide (is_Some (get_tool reg tool_id)))).
Proof.
  apply (@built_registry_is_consistent quoted_repr (registry demo_executor)).
  apply (@built_register quoted_repr new_registry (lit "sql_writer") writer_tool), built_new.
Defined.

(** The permitted call of the writer tool is counted as one success. *)
Lemma executed_call_is_counted_once_witness :
  let run := execute demo_executor (lit "sql_writer") writer_context [] None 12 in
  exists result st,
    outcome run = Returned result /\
    get_stats (registry demo_executor) (lit "sql_writer") = Some st /\
    get_stats (registry_after run) (lit "sql_writer") =
      Some {| call_count := S (call_count st);
              success_count := if success result then S (success_count st)
                               else success_count st;
              error_count := if success result then error_count st
                             else S (error_count st);
              total_time_ms := total_time_ms st + 12 |} /\
    (forall other, other <> lit "sql_writer" ->
       get_stats (registry_after run) other =
       get_stats (registry demo_executor) other) /\
    get_tool (registry_after run) (lit "sql_writer") = Some writer_tool.
Proof.
  apply (@executed_call_is_counted_once quoted_repr demo_executor (lit "sql_writer") writer_tool
           writer_context [] None 12).
  - apply (@built_register quoted_repr new_registry (lit "sql_writer") writer_tool), built_new.
  - vm_compute. reflexivity.
  - vm_compute. reflexivity.
  - reflexivity.
Defined.

(** A tool that raises, and one that does not answer in time: [execute]
    returns a failure for both, and counts both as errors. *)
Example raising_tool_gives_failure_result :
  let raising (outcome : run_outcome) : ToolInterface :=
    {| tool_metadata := tool_metadata writer_tool;
       validate_input := fun _ => Returned true;
       tool_execute := fun _ _ _ => outcome |} in
  let ex (outcome : run_outcome) : ToolExecutor :=
    {| registry := register new_registry (lit "sql_writer") (raising outcome);
       default_timeout := 30; enable_sandbox := false;
       _audit_callback := None |} in
  let run (outcome : run_outcome) :=
    execute (ex outcome) (lit "sql_writer") writer_context [] None 5 in
  outcome (run (Finished (Raised (lit "boom")))) =
    Returned (failure (ExecutionException (lit "boom"))) /\
  outcome (run TimedOut) = Returned (failure (ExecutionTimeout (PyInt 30))) /\
  (error_count <$> get_stats (registry_after (run TimedOut)) (lit "sql_writer")) =
    Some 1%nat.
Proof. repeat split; vm_compute; reflexivity. Qed.

End Tools.

(* ===================================================================== *)
(** * The audit chain (audit_chain.py)                                    *)
(* ===================================================================== *)

Module Audit.
Import Py.

Inductive AuditLevel := DEBUG | INFO | WARNING | ERROR | CRITICAL.

Inductive AuditEventType :=
| MODE_DECISION | SECURITY_CHECK | DATA_OVERWRITE | EXECUTION_START
| EXECUTION_END | USER_CONFIRMATION | POLICY_VIOLATION.

#[global] Instance AuditLevel_eq_dec : EqDecision AuditLevel.
Proof. solve_decision. Defined.

#[global] Instance AuditEventType_eq_dec : EqDecision AuditEventType.
Proof. solve_decision. Defined.

(** [event_type.value]. *)
Definition AuditEventType_value (t : AuditEventType) : pystr :=
  match t with
  | MODE_DECISION => lit "mode_decision"
  | SECURITY_CHECK => lit "security_check"
  | DATA_OVERWRITE => lit "data_overwrite"
  | EXECUTION_START => lit "execution_start"
  | EXECUTION_END => lit "execution_end"
  | USER_CONFIRMATION => lit "user_confirmation"
  | POLICY_VIOLATION => lit "policy_violation"
  end.

(** An [AuditEntry] object.  [timestamp] is a [datetime], kept as the
    number of microseconds it stands for. *)
Record AuditEntry := {
  entry_id : pystr;
  timestamp : Z;
  level : AuditLevel;
  event_type : AuditEventType;
  session_id : pystr;
  request_id : pystr;
  action : pystr;
  description : pystr;
  user_id : option pystr;
  tenant_id : option pystr;
  details : pydict;
  decision : option pystr;
  reason : option pystr;
  confidence : option Q;
  success : bool;
  error_message : option pystr;
  duration_ms : option Q;
  entry_hash : option pystr;
  previous_hash : option pystr;
}.

(** Assignments to one attribute of an entry object: [entry.f = v]. *)
Definition set_entry_id (v : pystr) (e : AuditEntry) : AuditEntry :=
  {| entry_id := v; timestamp := timestamp e; level := level e;
     event_type := event_type e; session_id := session_id e;
     request_id := request_id e; action := action e;
     description := description e; user_id := user_id e;
     tenant_id := tenant_id e; details := details e; decision := decision e;
     reason := reason e; confidence := confidence e; success := success e;
     error_message := error_message e; duration_ms := duration_ms e;
     entry_hash := entry_hash e; previous_hash := previous_hash e |}.

Definition set_timestamp (v : Z) (e : AuditEntry) : AuditEntry :=
  {| entry_id := entry_id e; timestamp := v; level := level e;
     event_type := event_type e; session_id := session_id e;
     request_id := request_id e; action := action e;
     description := description e; user_id := user_id e;
     tenant_id := tenant_id e; details := details e; decision := decision e;
     reason := reason e; confidence := confidence e; success := success e;
     error_message := error_message e; duration_ms := duration_ms e;
     entry_hash := entry_hash e; previous_hash := previous_hash e |}.

Definition set_level (v : AuditLevel) (e : AuditEntry) : AuditEntry :=
  {| entry_id := entry_id e; timestamp := timestamp e; level := v;
     event_type := event_type e; session_id := session_id e;
     request_id := request_id e; action := action e;
     description := description e; user_id := user_id e;
     tenant_id := tenant_id e; details := details e; decision := decision e;
     reason := reason e; confidence := confidence e; success := success e;
     error_message := error_message e; duration_ms := duration_ms e;
     entry_hash := entry_hash e; previous_hash := previous_hash e |}.

Definition set_event_type (v : AuditEventType) (e : AuditEntry) : AuditEntry :=
  {| entry_id := entry_id e; timestamp := timestamp e; level := level e;
     event_type := v; session_id := session_id e; request_id := request_id e;
     action := action e; description := description e; user_id := user_id e;
     tenant_id := tenant_id e; details := details e; decision := decision e;
     reason := reason e; confidence := confidence e; success := success e;
     error_message := error_message e; duration_ms := duration_ms e;
     entry_hash := entry_hash e; previous_hash := previous_hash e |}.

Definition set_session_id (v : pystr) (e : AuditEntry) : AuditEntry :=
  {| entry_id := entry_id e; timestamp := timestamp e; level := level e;
     event_type := event_type e; session_id := v; request_id := request_id e;
     action := action e; description := description e; user_id := user_id e;
     tenant_id := tenant_id e; details := details e; decision := decision e;
     reason := reason e; confidence := confidence e; success := success e;
     error_message := error_message e; duration_ms := duration_ms e;
     entry_hash := entry_hash e; previous_hash := previous_hash e |}.

Definition set_request_id (v : pystr) (e : AuditEntry) : AuditEntry :=
  {| entry_id := entry_id e; timestamp := timestamp e; level := level e;
     event_type := event_type e; session_id := session_id e; request_id := v;
     action := action e; description := description e; user_id := user_id e;
     tenant_id := tenant_id e; details := details e; decision := decision e;
     reason := reason e; confidence := confidence e; success := success e;
     error_message := error_message e; duration_ms := duration_ms e;
     entry_hash := entry_hash e; previous_hash := previous_hash e |}.

Definition set_action (v : pystr) (e : AuditEntry) : AuditEntry :=
  {| entry_id := entry_id e; timestamp := timestamp e; level := level e;
     event_type := event_type e; session_id := session_id e;
     request_id := request_id e; action := v; description := description e;
     user_id := user_id e; tenant_id := tenant_id e; details := details e;
     decision := decision e; reason := reason e; confidence := confidence e;
     success := success e; error_message := error_message e;
     duration_ms := duration_ms e; entry_hash := entry_hash e;
     previous_hash := previous_hash e |}.

Definition set_description (v : pystr) (e : AuditEntry) : AuditEntry :=
  {| entry_id := entry_id e; timestamp := timestamp e; level := level e;
     event_type := event_type e; session_id := session_id e;
     request_id := request_id e; action := action e; description := v;
     user_id := user_id e; tenant_id := tenant_id e; details := details e;
     decision := decision e; reason := reason e; confidence := confidence e;
     success := success e; error_message := error_message e;
     duration_ms := duration_ms e; entry_hash := entry_hash e;
     previous_hash := previous_hash e |}.

Definition set_user_id (v : option pystr) (e : AuditEntry) : AuditEntry :=
  {| entry_id := entry_id e; timestamp := timestamp e; level := level e;
     event_type := event_type e; session_id := session_id e;
     request_id := request_id e; action := action e;
     description := description e; user_id := v; tenant_id := tenant_id e;
     details := details e; decision := decision e; reason := reason e;
     confidence := confidence e; success := success e;
     error_message := error_message e; duration_ms := duration_ms e;
     entry_hash := entry_hash e; previous_hash := previous_hash e |}.

Definition set_tenant_id (v : option pystr) (e : AuditEntry) : AuditEntry :=
  {| entry_id := entry_id e; timestamp := timestamp e; level := level e;
     event_type := event_type e; session_id := session_id e;
     request_id := request_id e; action := action e;
     description := description e; user_id := user_id e; tenant_id := v;
     details := details e; decision := decision e; reason := reason e;
     confidence := confidence e; success := success e;
     error_message := error_message e; duration_ms := duration_ms e;
     entry_hash := entry_hash e; previous_hash := previous_hash e |}.

Definition set_details (v : pydict) (e : AuditEntry) : AuditEntry :=
  {| entry_id := entry_id e; timestamp := timestamp e; level := level e;
     event_type := event_type e; session_id := session_id e;
     request_id := request_id e; action := action e;
     description := description e; user_id := user_id e;
     tenant_id := tenant_id e; details := v; decision := decision e;
     reason := reason e; confidence := confidence e; success := success e;
     error_message := error_message e; duration_ms := duration_ms e;
     entry_hash := entry_hash e; previous_hash := previous_hash e |}.

Definition set_decision (v : option pystr) (e : AuditEntry) : AuditEntry :=
  {| entry_id := entry_id e; timestamp := timestamp e; level := level e;
     event_type := event_type e; session_id := session_id e;
     request_id := request_id e; action := action e;
     description := description e; user_id := user_id e;
     tenant_id := tenant_id e; details := details e; decision := v;
     reason := reason e; confidence := confidence e; success := success e;
     error_message := error_message e; duration_ms := duration_ms e;
     entry_hash := entry_hash e; previous_hash := previous_hash e |}.

Definition set_reason (v : option pystr) (e : AuditEntry) : AuditEntry :=
  {| entry_id := entry_id e; timestamp := timestamp e; level := level e;
     event_type := event_type e; session_id := session_id e;
     request_id := request_id e; action := action e;
     description := description e; user_id := user_id e;
     tenant_id := tenant_id e; details := details e; decision := decision e;
     reason := v; confidence := confidence e; success := success e;
     error_message := error_message e; duration_ms := duration_ms e;
     entry_hash := entry_hash e; previous_hash := previous_hash e |}.

Definition set_confidence (v : option Q) (e : AuditEntry) : AuditEntry :=
  {| entry_id := entry_id e; timestamp := timestamp e; level := level e;
     event_type := event_type e; session_id := session_id e;
     request_id := request_id e; action := action e;
     description := description e; user_id := user_id e;
     tenant_id := tenant_id e; details := details e; decision := decision e;
     reason := reason e; confidence := v; success := success e;
     error_message := error_message e; duration_ms := duration_ms e;
     entry_hash := entry_hash e; previous_hash := previous_hash e |}.

Definition set_success (v : bool) (e : AuditEntry) : AuditEntry :=
  {| entry_id := entry_id e; timestamp := timestamp e; level := level e;
     event_type := event_type e; session_id := session_id e;
     request_id := request_id e; action := action e;
     description := description e; user_id := user_id e;
     tenant_id := tenant_id e; details := details e; decision := decision e;
     reason := reason e; confidence := confidence e; success := v;
     error_message := error_message e; duration_ms := duration_ms e;
     entry_hash := entry_hash e; previous_hash := previous_hash e |}.

Definition set_error_message (v : option pystr) (e : AuditEntry) : AuditEntry :=
  {| entry_id := entry_id e; timestamp := timestamp e; level := level e;
     event_type := event_type e; session_id := session_id e;
     request_id := request_id e; action := action e;
     description := description e; user_id := user_id e;
     tenant_id := tenant_id e; details := details e; decision := decision e;
     reason := reason e; confidence := confidence e; success := success e;
     error_message := v; duration_ms := duration_ms e;
     entry_hash := entry_hash e; previous_hash := previous_hash e |}.

Definition set_duration_ms (v : option Q) (e : AuditEntry) : AuditEntry :=
  {| entry_id := entry_id e; timestamp := timestamp e; level := level e;
     event_type := event_type e; session_id := session_id e;
     request_id := request_id e; action := action e;
     description := description e; user_id := user_id e;
     tenant_id := tenant_id e; details := details e; decision := decision e;
     reason := reason e; confidence := confidence e; success := success e;
     error_message := error_message e; duration_ms := v;
     entry_hash := entry_hash e; previous_hash := previous_hash e |}.

Definition set_entry_hash (v : option pystr) (e : AuditEntry) : AuditEntry :=
  {| entry_id := entry_id e; timestamp := timestamp e; level := level e;
     event_type := event_type e; session_id := session_id e;
     request_id := request_id e; action := action e;
     description := description e; user_id := user_id e;
     tenant_id := tenant_id e; details := details e; decision := decision e;
     reason := reason e; confidence := confidence e; success := success e;
     error_message := error_message e; duration_ms := duration_ms e;
     entry_hash := v; previous_hash := previous_hash e |}.

Definition set_previous_hash (v : option pystr) (e : AuditEntry) : AuditEntry :=
  {| entry_id := entry_id e; timestamp := timestamp e; level := level e;
     event_type := event_type e; session_id := session_id e;
     request_id := request_id e; action := action e;
     description := description e; user_id := user_id e;
     tenant_id := tenant_id e; details := details e; decision := decision e;
     reason := reason e; confidence := confidence e; success := success e;
     error_message := error_message e; duration_ms := duration_ms e;
     entry_hash := entry_hash e; previous_hash := v |}.

(** The dictionary [data] that [compute_hash] serialises. *)
Record hash_data := {
  h_entry_id : pystr;
  h_timestamp : Z;
  h_event_type : pystr;
  h_action : pystr;
  h_session_id : pystr;
  h_request_id : pystr;
  h_previous_hash : option pystr;
}.

(** [hashlib.sha256(json.dumps(data, sort_keys=True, default=str)
    .encode()).hexdigest()], with [timestamp.isoformat()] inside: the
    serialiser and the hash function are the interpreter's, and the model
    takes their composition as an interface. *)
Class Digest := digest : hash_data -> pystr.

(** Entries are objects: the chain and its indices hold references to
    them, and whoever holds a reference can assign to the attributes.  The
    heap maps an object's address to its present state. *)
Abbreviation loc := nat (only parsing).
Abbreviation heap := (loc -> AuditEntry) (only parsing).

Record AuditChainStatus := {
  total_entries : nat;
  valid : bool;
  broken_at : option pystr;
  first_timestamp : option Z;
  last_timestamp : option Z;
}.

Record AuditChain := {
  chain_id : pystr;
  _entries : list loc;
  _last_hash : option pystr;
  _index_by_session : gmap pystr (list loc);
  _index_by_user : gmap pystr (list loc);
}.

(** [AuditChain(chain_id)]. *)
Definition new_chain (cid : pystr) : AuditChain :=
  {| chain_id := cid; _entries := []; _last_hash := None;
     _index_by_session := ∅; _index_by_user := ∅ |}.

Section Chain.
Context `{Digest}.

Definition canonical (e : AuditEntry) : hash_data :=
  {| h_entry_id := entry_id e;
     h_timestamp := timestamp e;
     h_event_type := AuditEventType_value (event_type e);
     h_action := action e;
     h_session_id := session_id e;
     h_request_id := request_id e;
     h_previous_hash := previous_hash e |}.

Definition compute_hash (e : AuditEntry) : pystr := digest (canonical e).

(** [entry.finalize(previous_hash)]: two assignments, in this order. *)
Definition finalize (e : AuditEntry) (prev : option pystr) : AuditEntry :=
  let e1 := set_previous_hash prev e in
  set_entry_hash (Some (compute_hash e1)) e1.

(** [index.setdefault(key, []).append(entry)]. *)
Definition index_append (key : pystr) (l : loc) (index : gmap pystr (list loc))
    : gmap pystr (list loc) :=
  <[key := default [] (index !! key) ++ [l]]> index.

(** [chain.add(entry)] for the entry object at address [l]: the object is
    finalised in place and its reference appended. *)
Definition add (h : heap) (c : AuditChain) (l : loc) : heap * AuditChain :=
  let entry := finalize (h l) (_last_hash c) in
  (<[l := entry]> h,
   {| chain_id := chain_id c;
      _entries := _entries c ++ [l];
      _last_hash := entry_hash entry;
      _index_by_session :=
        if bool_decide (session_id entry = []) then _index_by_session c
        else index_append (session_id entry) l (_index_by_session c);
      _index_by_user :=
        match user_id entry with
        | Some ((_ :: _) as uid) => index_append uid l (_index_by_user c)
        | _ => _index_by_user c
        end |}).

(** [chain.create_entry(...)]: a new object, whose attributes are [entry]
    and whose address [l] is therefore that of no other object, is added. *)
Definition create_entry (h : heap) (c : AuditChain) (l : loc) (entry : AuditEntry)
    : heap * AuditChain :=
  add (<[l := entry]> h) c l.

(** The chain after [add] was called on the objects [ls], in this order. *)
Definition add_all (h : heap) (c : AuditChain) (ls : list loc) : heap * AuditChain :=
  foldl (fun st l => add (fst st) (snd st) l) (h, c) ls.

Definition invalid_status (h : heap) (all : list loc) (entry : AuditEntry)
    : AuditChainStatus :=
  {| total_entries := length all;
     valid := false;
     broken_at := Some (entry_id entry);
     first_timestamp := (fun l => timestamp (h l)) <$> head all;
     last_timestamp := (fun l => timestamp (h l)) <$> last all |}.

Definition valid_status (h : heap) (all : list loc) : AuditChainStatus :=
  {| total_entries := length all;
     valid := true;
     broken_at := None;
     first_timestamp := (fun l => timestamp (h l)) <$> head all;
     last_timestamp := (fun l => timestamp (h l)) <$> last all |}.

(** The loop of [verify_chain] over the entries still to visit. *)
Fixpoint verify_loop (h : heap) (all rest : list loc) (prev : option pystr)
    : AuditChainStatus :=
  match rest with
  | [] => valid_status h all
  | l :: rest' =>
      let entry := h l in
      if bool_decide (previous_hash entry <> prev) then invalid_status h all entry
      else if bool_decide (entry_hash entry <> Some (compute_hash entry))
      then invalid_status h all entry
      else verify_loop h all rest' (entry_hash entry)
  end.

Definition verify_chain (h : heap) (c : AuditChain) : AuditChainStatus :=
  match _entries c with
  | [] => {| total_entries := 0; valid := true; broken_at := None;
             first_timestamp := None; last_timestamp := None |}
  | _ => verify_loop h (_entries c) (_entries c) None
  end.

(** [del chain._entries[k:]]: the newest entries are dropped from the
    ledger, nothing else is touched. *)
Definition truncate (k : nat) (c : AuditChain) : AuditChain :=
  {| chain_id := chain_id c;
     _entries := take k (_entries c);
     _last_hash := _last_hash c;
     _index_by_session := _index_by_session c;
     _index_by_user := _index_by_user c |}.

(** The entries [ls] pass both tests of [verify_chain] when the walk
    reaches them with [prev]. *)
Fixpoint linked (h : heap) (prev : option pystr) (ls : list loc) : Prop :=
  match ls with
  | [] => True
  | l :: ls' =>
      previous_hash (h l) = prev /\
      entry_hash (h l) = Some (compute_hash (h l)) /\
      linked h (entry_hash (h l)) ls'
  end.

(** The hash the walk holds after [ls]. *)
Definition hash_after (h : heap) (prev : option pystr) (ls : list loc)
    : option pystr :=
  match last ls with
  | None => prev
  | Some l => entry_hash (h l)
  end.

(** Two states of an entry that [verify_chain] cannot tell apart: the
    attributes it reads are the same. *)
Definition same_integrity_fields (e e' : AuditEntry) : Prop :=
  entry_id e' = entry_id e /\ timestamp e' = timestamp e /\
  event_type e' = event_type e /\ action e' = action e /\
  session_id e' = session_id e /\ request_id e' = request_id e /\
  previous_hash e' = previous_hash e /\ entry_hash e' = entry_hash e.

End Chain.

(** ** Queries on the ledger *)

Section Queries.

(** [level.value]. *)
Definition AuditLevel_value (v : AuditLevel) : pystr :=
  match v with
  | DEBUG => lit "debug"
  | INFO => lit "info"
  | WARNING => lit "warning"
  | ERROR => lit "error"
  | CRITICAL => lit "critical"
  end.

(** The arguments of [search].  Times are those of [timestamp]; [limit] is
    any integer. *)
Record search_query := {
  q_event_type : option AuditEventType;
  q_user_id : option pystr;
  q_session_id : option pystr;
  q_start_time : option Z;
  q_end_time : option Z;
  q_level : option AuditLevel;
  q_limit : Z;
}.

(** An optional text used as a condition: [None] and the empty text are
    false. *)
Definition given (s : option pystr) : option pystr :=
  match s with
  | Some ((_ :: _) as x) => Some x
  | _ => None
  end.

(** The list that [search] walks: an index when the user or the session is
    given and known to it, the ledger otherwise. *)
Definition entries_to_search (c : AuditChain) (q : search_query) : list loc :=
  match u ← given (q_user_id q); _index_by_user c !! u with
  | Some indexed => indexed
  | None =>
      match s ← given (q_session_id q); _index_by_session c !! s with
      | Some indexed => indexed
      | None => _entries c
      end
  end.

(** The six tests of the loop: an entry that fails one is skipped. *)
Definition matches (h : heap) (q : search_query) (l : loc) : bool :=
  let entry := h l in
  match q_event_type q with
  | Some t => bool_decide (event_type entry = t)
  | None => true
  end &&
  match given (q_user_id q) with
  | Some u => bool_decide (user_id entry = Some u)
  | None => true
  end &&
  match given (q_session_id q) with
  | Some s => bool_decide (session_id entry = s)
  | None => true
  end &&
  match q_start_time q with
  | Some t => negb (timestamp entry <? t)%Z
  | None => true
  end &&
  match q_end_time q with
  | Some t => negb (t <? timestamp entry)%Z
  | None => true
  end &&
  match q_level q with
  | Some v => bool_decide (level entry = v)
  | None => true
  end.

(** The loop of [search]; the [break] returns the results as they are. *)
Fixpoint search_loop (h : heap) (q : search_query) (rest results : list loc)
    : list loc :=
  match rest with
  | [] => results
  | l :: rest' =>
      if matches h q l then
        let results' := results ++ [l] in
        if (q_limit q <=? Z.of_nat (length results'))%Z then results'
        else search_loop h q rest' results'
      else search_loop h q rest' results
  end.

Definition search (h : heap) (c : AuditChain) (q : search_query) : list loc :=
  search_loop h q (entries_to_search c q) [].

(** [search(session_id=s)], every other argument at its default. *)
Definition by_session (s : pystr) : search_query :=
  {| q_event_type := None; q_user_id := None; q_session_id := Some s;
     q_start_time := None; q_end_time := None; q_level := None;
     q_limit := 100 |}.

(** [search(user_id=u)]. *)
Definition by_user (u : pystr) : search_query :=
  {| q_event_type := None; q_user_id := Some u; q_session_id := None;
     q_start_time := None; q_end_time := None; q_level := None;
     q_limit := 100 |}.

Definition get_session_timeline (c : AuditChain) (s : pystr) : list loc :=
  default [] (_index_by_session c !! s).

(** [d[k] = d.get(k, 0) + 1] on a dictionary of counts. *)
Fixpoint bump (k : pystr) (d : list (pystr * nat)) : list (pystr * nat) :=
  match d with
  | [] => [(k, 1%nat)]
  | (k', n) :: d' =>
      if decide (k = k') then (k', S n) :: d' else (k', n) :: bump k d'
  end.

(** [d.get(k, 0)]. *)
Fixpoint count_of (k : pystr) (d : list (pystr * nat)) : nat :=
  match d with
  | [] => 0%nat
  | (k', n) :: d' => if decide (k = k') then n else count_of k d'
  end.

(** The dictionary that [get_stats] returns; the empty chain's has neither
    [sessions] nor [users]. *)
Record chain_stats := {
  total : nat;
  by_type : list (pystr * nat);
  by_level : list (pystr * nat);
  sessions : option nat;
  users : option nat;
}.

Definition get_stats (h : heap) (c : AuditChain) : chain_stats :=
  match _entries c with
  | [] => {| total := 0; by_type := []; by_level := [];
             sessions := None; users := None |}
  | entries =>
      let counts :=
        foldl (fun acc l =>
                 (bump (AuditEventType_value (event_type (h l))) acc.1,
                  bump (AuditLevel_value (level (h l))) acc.2))
              ([], []) entries in
      {| total := length entries;
         by_type := counts.1;
         by_level := counts.2;
         sessions := Some (size (_index_by_session c));
         users := Some (size (_index_by_user c)) |}
  end.

(** What an index holds for a key when it is in step with the ledger: the
    entries of the ledger filed under the key, in ledger order, and no
    binding when there is none. *)
Definition filed (key : loc -> option pystr) (ls : list loc) (k : pystr)
    : option (list loc) :=
  match List.filter (fun l => bool_decide (key l = Some k)) ls with
  | [] => None
  | found => Some found
  end.

(** The key [add] files an entry under in each index. *)
Definition session_key (h : heap) (l : loc) : option pystr :=
  given (Some (session_id (h l))).

Definition user_key (h : heap) (l : loc) : option pystr :=
  given (user_id (h l)).

End Queries.

(** ** Facts about the walk of [verify_chain] *)

Section ChainFacts.
Context `{Digest}.

Lemma hash_after_snoc (h : heap) prev (ls : list loc) (l : loc) :
  hash_after h prev (ls ++ [l]) = entry_hash (h l).
Proof. unfold hash_after. by rewrite last_snoc. Qed.

Lemma hash_after_cons (h : heap) prev (l : loc) (ls : list loc) :
  hash_after h prev (l :: ls) = hash_after h (entry_hash (h l)) ls.
Proof.
  unfold hash_after. rewrite last_cons. by destruct (last ls).
Qed.

Lemma linked_app (h : heap) prev (a b : list loc) :
  linked h prev (a ++ b) <-> linked h prev a /\ linked h (hash_after h prev a) b.
Proof.
  revert prev. induction a as [|l a IH]; intros prev.
  - simpl. unfold hash_after. simpl. tauto.
  - simpl. rewrite IH, hash_after_cons. tauto.
Qed.

(** Entries that pass are walked over: the loop goes on after them. *)
Lemma verify_loop_linked (h : heap) (all ls rest : list loc) prev :
  linked h prev ls ->
  verify_loop h all (ls ++ rest) prev =
  verify_loop h all rest (hash_after h prev ls).
Proof.
  revert prev. induction ls as [|l ls IH]; intros prev Hl; [done|].
  destruct Hl as (Hprev & Hhash & Hl). simpl.
  rewrite bool_decide_eq_false_2 by (intros Hne; by apply Hne).
  rewrite bool_decide_eq_false_2 by (intros Hne; by apply Hne).
  rewrite IH by done. by rewrite hash_after_cons.
Qed.

Lemma verify_chain_linked (h : heap) (c : AuditChain) :
  linked h None (_entries c) ->
  valid (verify_chain h c) = true /\
  total_entries (verify_chain h c) = length (_entries c) /\
  broken_at (verify_chain h c) = None.
Proof.
  intros Hl. unfold verify_chain.
  destruct (_entries c) as [|l ls] eqn:He; [done|].
  pose proof (verify_loop_linked h (l :: ls) (l :: ls) [] None Hl) as Hwalk.
  rewrite app_nil_r in Hwalk. rewrite Hwalk. done.
Qed.

(** The walk reads the heap at the entries of the chain only. *)
Lemma linked_ext (h h' : heap) prev (ls : list loc) :
  (forall l, l ∈ ls -> h' l = h l) ->
  linked h prev ls -> linked h' prev ls.
Proof.
  revert prev. induction ls as [|l ls IH]; intros prev Hagree Hl; [done|].
  destruct Hl as (Hprev & Hhash & Hl). simpl.
  rewrite (Hagree l) by apply list_elem_of_here.
  repeat split; try done.
  apply IH; [|done]. intros l' Hin. apply Hagree. by apply list_elem_of_further.
Qed.

Lemma hash_after_ext (h h' : heap) prev (ls : list loc) :
  (forall l, l ∈ ls -> h' l = h l) ->
  hash_after h' prev ls = hash_after h prev ls.
Proof.
  intros Hagree. unfold hash_after.
  destruct (last ls) as [l|] eqn:Hlast; [|done].
  rewrite Hagree; [done|]. apply last_Some in Hlast as [ls' ->].
  apply elem_of_app. right. apply list_elem_of_here.
Qed.

(** In a stretch that passes, each entry's [previous_hash] is the
    [entry_hash] of the entry before it. *)
Lemma linked_lookup (h : heap) prev (ls : list loc) (i : nat) (l : loc) :
  linked h prev ls -> ls !! i = Some l ->
  previous_hash (h l) =
    match i with
    | O => prev
    | S j => l' ← ls !! j; entry_hash (h l')
    end.
Proof.
  revert prev i. induction ls as [|l0 ls IH]; intros prev i Hl Hi; [done|].
  destruct Hl as (Hprev & Hhash & Hl).
  destruct i as [|i]; simpl in Hi.
  - by injection Hi as <-.
  - rewrite (IH _ _ Hl Hi). by destruct i.
Qed.

Lemma linked_elem (h : heap) prev (ls : list loc) (l : loc) :
  linked h prev ls -> l ∈ ls -> entry_hash (h l) = Some (compute_hash (h l)).
Proof.
  revert prev. induction ls as [|l0 ls IH]; intros prev Hl Hin.
  - by apply elem_of_nil in Hin.
  - destruct Hl as (_ & Hhash & Hl).
    apply elem_of_cons in Hin as [->|Hin]; [done|]. by eapply IH.
Qed.

Lemma compute_hash_finalize (e : AuditEntry) prev :
  entry_hash (finalize e prev) = Some (compute_hash (finalize e prev)) /\
  previous_hash (finalize e prev) = prev.
Proof. done. Qed.

(** [add] keeps the ledger well linked, provided the object was not in it
    already. *)
Lemma add_linked (h : heap) (c : AuditChain) (l : loc) :
  l ∉ _entries c ->
  linked h None (_entries c) ->
  _last_hash c = hash_after h None (_entries c) ->
  linked (add h c l).1 None (_entries (add h c l).2) /\
  _last_hash (add h c l).2 = hash_after (add h c l).1 None (_entries (add h c l).2) /\
  _entries (add h c l).2 = _entries c ++ [l].
Proof.
  intros Hfresh Hl Hlast. unfold add. cbn [fst snd _entries _last_hash].
  set (entry := finalize (h l) (_last_hash c)).
  assert (forall l', l' ∈ _entries c -> (<[l:=entry]> h) l' = h l') as Hagree.
  { intros l' Hin. apply fn_lookup_insert_ne. intros ->. done. }
  rewrite hash_after_snoc, fn_lookup_insert.
  repeat split; try done.
  apply linked_app. split; [by apply (linked_ext h)|].
  rewrite (hash_after_ext h) by done. rewrite <- Hlast.
  simpl. rewrite fn_lookup_insert. done.
Qed.

Lemma add_all_snoc (h : heap) (c : AuditChain) (ls : list loc) (l : loc) :
  add_all h c (ls ++ [l]) = add (add_all h c ls).1 (add_all h c ls).2 l.
Proof. unfold add_all. by rewrite foldl_app. Qed.

Lemma add_all_linked (h0 : heap) (cid : pystr) (ls : list loc) :
  NoDup ls ->
  linked (add_all h0 (new_chain cid) ls).1 None ls /\
  _last_hash (add_all h0 (new_chain cid) ls).2 =
    hash_after (add_all h0 (new_chain cid) ls).1 None ls /\
  _entries (add_all h0 (new_chain cid) ls).2 = ls.
Proof.
  induction ls as [|l ls IH] using rev_ind; intros Hnd; [done|].
  apply NoDup_app in Hnd as (Hnd & Hnot & _).
  destruct (IH Hnd) as (Hl & Hlast & He).
  rewrite add_all_snoc.
  destruct (add_linked (add_all h0 (new_chain cid) ls).1
              (add_all h0 (new_chain cid) ls).2 l) as (Hl' & Hlast' & He').
  - rewrite He. intros Hin. apply (Hnot l Hin). apply list_elem_of_here.
  - by rewrite He.
  - by rewrite He.
  - rewrite He in He'. rewrite He' in Hl', Hlast'. done.
Qed.

(** A prefix of a stretch that passes passes. *)
Lemma linked_take (h : heap) prev (ls : list loc) (k : nat) :
  linked h prev ls -> linked h prev (take k ls).
Proof.
  intros Hl. rewrite <- (take_drop k ls) in Hl.
  by apply linked_app in Hl as [? _].
Qed.

(** The walk gives the same report on two heaps whose entries agree on
    the attributes it reads. *)
Lemma verify_loop_same_fields (h h' : heap) (all rest : list loc) prev :
  (forall l, same_integrity_fields (h l) (h' l)) ->
  verify_loop h' all rest prev = verify_loop h all rest prev.
Proof.
  intros Hsame.
  assert (forall l, compute_hash (h' l) = compute_hash (h l)) as Hhash.
  { intros l. destruct (Hsame l) as (H1 & H2 & H3 & H4 & H5 & H6 & H7 & _).
    unfold compute_hash, canonical. by rewrite H1, H2, H3, H4, H5, H6, H7. }
  assert (forall ls : list loc,
             (fun l => timestamp (h' l)) <$> ls = (fun l => timestamp (h l)) <$> ls)
    as Hts.
  { intros ls. apply list_fmap_ext. intros ? l _.
    by destruct (Hsame l) as (_ & -> & _). }
  assert (forall o : option loc,
             (fun l => timestamp (h' l)) <$> o = (fun l => timestamp (h l)) <$> o)
    as Hto.
  { intros [l|]; [|done]. simpl. by destruct (Hsame l) as (_ & -> & _). }
  revert prev. induction rest as [|l rest IH]; intros prev.
  - unfold verify_loop, valid_status. by rewrite !Hto.
  - simpl. rewrite Hhash.
    destruct (Hsame l) as (Hid & _ & _ & _ & _ & _ & Hp & He).
    rewrite Hp, He, IH. unfold invalid_status. by rewrite !Hto, Hid.
Qed.

Lemma verify_chain_same_fields (h h' : heap) (c : AuditChain) :
  (forall l, same_integrity_fields (h l) (h' l)) ->
  verify_chain h' c = verify_chain h c.
Proof.
  intros Hsame. unfold verify_chain.
  destruct (_entries c); [done|]. by apply verify_loop_same_fields.
Qed.

(** Assigning to an attribute outside the hashed tuple and the two hash
    fields changes nothing that [verify_chain] reads. *)
Lemma assign_same_fields (h : heap) (l : loc) (e' : AuditEntry) :
  same_integrity_fields (h l) e' ->
  forall l', same_integrity_fields (h l') ((<[l := e']> h) l').
Proof.
  intros Hsame l'. destruct (decide (l = l')) as [<-|Hne].
  - by rewrite fn_lookup_insert.
  - rewrite fn_lookup_insert_ne by done. by repeat split.
Qed.

End ChainFacts.

(** ** The chain after appends *)

Section ChainTheorems.
Context `{Digest}.

(** C4.  [N] entry objects, each added once to a fresh chain and none
    assigned to afterwards, give a chain that [verify_chain] reports valid
    with [total_entries = N] and no [broken_at]; and in it the
    [previous_hash] of the first entry is [None] and that of every other
    entry is the [entry_hash] of the entry before it. *)
Theorem fresh_chain_verifies (h0 : heap) (cid : pystr) (ls : list loc) :
  NoDup ls ->
  let h := (add_all h0 (new_chain cid) ls).1 in
  let c := (add_all h0 (new_chain cid) ls).2 in
  valid (verify_chain h c) = true /\
  total_entries (verify_chain h c) = length ls /\
  broken_at (verify_chain h c) = None /\
  _entries c = ls /\
  (forall i l, ls !! i = Some l ->
     is_Some (entry_hash (h l)) /\
     previous_hash (h l) =
       match i with
       | O => None
       | S j => l' ← ls !! j; entry_hash (h l')
       end).
Proof.
  intros Hnd h c. subst h c.
  destruct (add_all_linked h0 cid ls Hnd) as (Hl & Hlast & He).
  destruct (verify_chain_linked (add_all h0 (new_chain cid) ls).1
              (add_all h0 (new_chain cid) ls).2) as (Hv & Ht & Hb).
  { by rewrite He. }
  rewrite He in Ht. repeat split; try done.
  - rewrite (linked_elem _ _ _ l Hl); [by eexists|].
    apply list_elem_of_lookup. by exists i.
  - by eapply linked_lookup.
Qed.

(** C10.  Dropping the newest entries of such a chain from the ledger
    leaves a chain that [verify_chain] still reports valid, with
    [total_entries] the number of entries kept: the walk starts from the
    oldest entry and nothing it checks tells that newer ones existed. *)
Theorem truncated_chain_verifies (h0 : heap) (cid : pystr) (ls : list loc)
    (k : nat) :
  NoDup ls ->
  (k <= length ls)%nat ->
  let h := (add_all h0 (new_chain cid) ls).1 in
  let c := (add_all h0 (new_chain cid) ls).2 in
  valid (verify_chain h (truncate k c)) = true /\
  total_entries (verify_chain h (truncate k c)) = k /\
  broken_at (verify_chain h (truncate k c)) = None /\
  _entries (truncate k c) = take k ls.
Proof.
  intros Hnd Hk h c. subst h c.
  destruct (add_all_linked h0 cid ls Hnd) as (Hl & Hlast & He).
  destruct (verify_chain_linked (add_all h0 (new_chain cid) ls).1
              (truncate k (add_all h0 (new_chain cid) ls).2)) as (Hv & Ht & Hb).
  { cbn. rewrite He. by apply linked_take. }
  cbn in Ht. rewrite He, length_take in Ht.
  repeat split; try done; [lia|]. cbn. by rewrite He.
Qed.

(** C1, where the code departs from it.  [compute_hash] covers
    [entry_id], [timestamp], [event_type], [action], [session_id],
    [request_id] and [previous_hash] only, so an assignment to any other
    attribute of an entry (its description, user, tenant, level, details,
    decision, reason, confidence, success flag, error message or duration)
    leaves the report of [verify_chain] exactly as it was: on a valid chain
    it stays valid, and no [broken_at] is given. *)
Theorem unhashed_fields_escape_verification (h : heap) (c : AuditChain) (l : loc)
    (new_description : pystr) (new_user new_tenant : option pystr)
    (new_level : AuditLevel) (new_details : pydict)
    (new_decision new_reason : option pystr) (new_confidence : option Q)
    (new_success : bool) (new_error : option pystr) (new_duration : option Q) :
  verify_chain (<[l := set_description new_description (h l)]> h) c = verify_chain h c /\
  verify_chain (<[l := set_user_id new_user (h l)]> h) c = verify_chain h c /\
  verify_chain (<[l := set_level new_level (h l)]> h) c = verify_chain h c /\
  verify_chain (<[l := set_success new_success (h l)]> h) c = verify_chain h c /\
  verify_chain (<[l := set_tenant_id new_tenant (h l)]> h) c = verify_chain h c /\
  verify_chain (<[l := set_details new_details (h l)]> h) c = verify_chain h c /\
  verify_chain (<[l := set_decision new_decision (h l)]> h) c = verify_chain h c /\
  verify_chain (<[l := set_reason new_reason (h l)]> h) c = verify_chain h c /\
  verify_chain (<[l := set_confidence new_confidence (h l)]> h) c = verify_chain h c /\
  verify_chain (<[l := set_error_message new_error (h l)]> h) c = verify_chain h c /\
  verify_chain (<[l := set_duration_ms new_duration (h l)]> h) c = verify_chain h c.
Proof.
  repeat split;
    apply verify_chain_same_fields, assign_same_fields; by repeat split.
Qed.

(** An entry whose present state fails one of the two tests of the walk
    is where [verify_chain] reports the chain broken, the entries before
    it being intact. *)
Lemma verify_chain_breaks_at (h : heap) (c : AuditChain) (before after : list loc)
    (l : loc) :
  _entries c = before ++ l :: after ->
  linked h None before ->
  previous_hash (h l) <> hash_after h None before \/
  entry_hash (h l) <> Some (compute_hash (h l)) ->
  verify_chain h c = invalid_status h (_entries c) (h l).
Proof.
  intros He Hl Hbad. unfold verify_chain.
  destruct (_entries c) as [|l0 ls0] eqn:Hc.
  { by destruct before. }
  rewrite He at 2. rewrite (verify_loop_linked _ _ _ _ _ Hl). simpl.
  destruct (bool_decide (previous_hash (h l) <> hash_after h None before)) eqn:Hp;
    [done|].
  apply bool_decide_eq_false in Hp.
  destruct Hbad as [Hbad|Hbad]; [done|].
  by rewrite bool_decide_eq_true_2.
Qed.

(** An assignment to one of the attributes that [verify_chain] reads, on
    an entry of a chain built from distinct objects, is reported: to
    [previous_hash] or to [entry_hash] always, and to the hashed fields
    whenever the digest of the new state is not that of the old one.  The
    chain is then invalid and [broken_at] is the entry's id. *)
Theorem hashed_field_tamper_detected (h0 : heap) (cid : pystr) (ls : list loc)
    (i : nat) (l : loc) (e' : AuditEntry) :
  NoDup ls ->
  ls !! i = Some l ->
  let h := (add_all h0 (new_chain cid) ls).1 in
  let c := (add_all h0 (new_chain cid) ls).2 in
  (exists p, e' = set_previous_hash p (h l) /\ p <> previous_hash (h l)) \/
  (exists x, e' = set_entry_hash x (h l) /\ x <> entry_hash (h l)) \/
  (previous_hash e' = previous_hash (h l) /\ entry_hash e' = entry_hash (h l) /\
   compute_hash e' <> compute_hash (h l)) ->
  valid (verify_chain (<[l := e']> h) c) = false /\
  broken_at (verify_chain (<[l := e']> h) c) = Some (entry_id e') /\
  total_entries (verify_chain (<[l := e']> h) c) = length ls.
Proof.
  intros Hnd Hi h c Hcase.
  destruct (add_all_linked h0 cid ls Hnd) as (Hl & _ & He).
  fold h in Hl. fold c in He.
  assert (ls = take i ls ++ l :: drop (S i) ls) as Hsplit.
  { symmetry. by apply take_drop_middle. }
  assert (l ∉ take i ls) as Hfresh.
  { rewrite Hsplit in Hnd. apply NoDup_app in Hnd as (_ & Hnot & _).
    intros Hin. apply (Hnot l Hin). apply list_elem_of_here. }
  assert (forall l', l' ∈ take i ls -> (<[l:=e']> h) l' = h l') as Hagree.
  { intros l' Hin. apply fn_lookup_insert_ne. by intros ->. }
  pose proof Hl as Hl0. rewrite Hsplit in Hl0.
  apply linked_app in Hl0 as (Hbefore & Hprev & Hhash & _).
  rewrite (verify_chain_breaks_at (<[l:=e']> h) c (take i ls) (drop (S i) ls) l).
  - rewrite fn_lookup_insert. cbn. by rewrite He.
  - by rewrite He.
  - by apply (linked_ext h).
  - rewrite fn_lookup_insert, (hash_after_ext h) by done.
    destruct Hcase as [(p & -> & Hp)|[(x & -> & Hx)|(Hp & Hx & Hd)]].
    + left. cbn. by rewrite <- Hprev.
    + right. change (compute_hash (set_entry_hash x (h l)))
        with (compute_hash (h l)).
      cbn. by rewrite <- Hhash.
    + right. rewrite Hx, Hhash. intros Heq. apply Hd. by injection Heq.
Qed.

(** After an [add] the chain holds a last hash. *)
Lemma add_last_hash (h : heap) (c : AuditChain) (l : loc) :
  is_Some (_last_hash (add h c l).2).
Proof. by eexists. Qed.

Lemma add_all_last_hash (h : heap) (c : AuditChain) (ls : list loc) :
  ls <> [] -> is_Some (_last_hash (add_all h c ls).2).
Proof.
  destruct ls as [|l ls _] using rev_ind; [done|]. intros _.
  rewrite add_all_snoc. apply add_last_hash.
Qed.

Lemma add_all_entries (h : heap) (c : AuditChain) (ls : list loc) :
  _entries (add_all h c ls).2 = _entries c ++ ls.
Proof.
  induction ls as [|l ls IH] using rev_ind.
  - by rewrite app_nil_r.
  - rewrite add_all_snoc. cbn. by rewrite IH, app_assoc.
Qed.

(** [add] finalises the object it is given in place.  An object that is
    added a second time is therefore re-linked to the end of the chain where
    it already stands: when it was the first entry, its [previous_hash] is
    no longer [None] and [verify_chain] reports the chain broken at it. *)
Theorem readded_entry_breaks_chain (h0 : heap) (cid : pystr) (l : loc)
    (ls : list loc) :
  let h := (add_all h0 (new_chain cid) (l :: ls ++ [l])).1 in
  let c := (add_all h0 (new_chain cid) (l :: ls ++ [l])).2 in
  valid (verify_chain h c) = false /\
  broken_at (verify_chain h c) = Some (entry_id (h l)) /\
  total_entries (verify_chain h c) = S (S (length ls)).
Proof.
  intros h c.
  assert (_entries c = [] ++ l :: (ls ++ [l])) as He.
  { unfold c. by rewrite add_all_entries. }
  assert (is_Some (previous_hash (h l))) as [p Hp].
  { unfold h. rewrite app_comm_cons, add_all_snoc.
    unfold add at 1. cbn [fst]. rewrite fn_lookup_insert.
    rewrite (proj2 (compute_hash_finalize _ _)).
    by apply add_all_last_hash. }
  rewrite (verify_chain_breaks_at h c [] (ls ++ [l]) l He); [|done|].
  - cbn. rewrite He. cbn. rewrite length_app. cbn. repeat split. f_equal. lia.
  - left. unfold hash_after. cbn. by rewrite Hp.
Qed.

(** A walk that ends with a valid report went over entries that all
    pass. *)
Lemma verify_loop_valid_linked (h : heap) (all rest : list loc) prev :
  valid (verify_loop h all rest prev) = true -> linked h prev rest.
Proof.
  revert prev. induction rest as [|l rest IH]; intros prev Hv; [done|].
  simpl in Hv.
  destruct (bool_decide (previous_hash (h l) <> prev)) eqn:Hp; [done|].
  destruct (bool_decide (entry_hash (h l) <> Some (compute_hash (h l)))) eqn:Hh;
    [done|].
  apply bool_decide_eq_false in Hp, Hh.
  apply dec_stable in Hp, Hh. simpl. repeat split; try done. by apply IH.
Qed.

(** Whatever the chain and however it came about: when [verify_chain]
    reports it valid, it reports every prefix of its ledger valid too. *)
Theorem valid_chain_prefix_valid (h : heap) (c : AuditChain) (k : nat) :
  valid (verify_chain h c) = true ->
  valid (verify_chain h (truncate k c)) = true /\
  total_entries (verify_chain h (truncate k c)) = length (take k (_entries c)) /\
  broken_at (verify_chain h (truncate k c)) = None.
Proof.
  intros Hv. apply verify_chain_linked. cbn. apply linked_take.
  unfold verify_chain in Hv. destruct (_entries c) as [|l ls]; [done|].
  by eapply verify_loop_valid_linked.
Qed.

End ChainTheorems.

(** ** Searching the ledger *)

Section QueryFacts.
Context `{Digest}.

(** The loop collects matching entries until the results are as many as
    [limit] asks for, and never fewer than one. *)
Lemma search_loop_spec (h : heap) (q : search_query) (rest results : list loc) :
  (length results < Z.to_nat (Z.max 1 (q_limit q)))%nat ->
  search_loop h q rest results =
  results ++ take (Z.to_nat (Z.max 1 (q_limit q)) - length results)
                  (List.filter (matches h q) rest).
Proof.
  revert results. induction rest as [|l rest IH]; intros results Hlen.
  - cbn. by rewrite take_nil, app_nil_r.
  - cbn [search_loop List.filter]. destruct (matches h q l); [|by apply IH].
    destruct (q_limit q <=? Z.of_nat (length (results ++ [l])))%Z eqn:Hlim.
    + apply Z.leb_le in Hlim. rewrite length_app in Hlim. cbn in Hlim.
      replace (Z.to_nat (Z.max 1 (q_limit q)) - length results)%nat with 1%nat by lia.
      done.
    + apply Z.leb_gt in Hlim. rewrite IH.
      * rewrite length_app. cbn [length]. rewrite <- app_assoc. cbn. f_equal.
        replace (Z.to_nat (Z.max 1 (q_limit q)) - length results)%nat
          with (S (Z.to_nat (Z.max 1 (q_limit q)) - (length results + 1)))%nat.
        -- done.
        -- rewrite length_app in Hlim. cbn in Hlim. lia.
      * lia.
Qed.

Lemma search_spec (h : heap) (c : AuditChain) (q : search_query) :
  search h c q =
  take (Z.to_nat (Z.max 1 (q_limit q)))
       (List.filter (matches h q) (entries_to_search c q)).
Proof.
  unfold search. rewrite search_loop_spec by (cbn; lia).
  cbn. by rewrite Nat.sub_0_r.
Qed.

(** [search] returns the first entries of the list it walks that pass the
    tests of the query, in the order of that list, as many as [limit] says
    and at least one when there is one: a [limit] of zero or less gives one
    entry, not none. *)
Theorem search_returns_first_matches (h : heap) (c : AuditChain) (q : search_query) :
  search h c q =
    take (Z.to_nat (Z.max 1 (q_limit q)))
         (List.filter (matches h q) (entries_to_search c q)) /\
  Forall (fun l => matches h q l = true) (search h c q) /\
  (length (search h c q) <= Z.to_nat (Z.max 1 (q_limit q)))%nat /\
  ((q_limit q <= 0)%Z ->
   search h c q = take 1 (List.filter (matches h q) (entries_to_search c q))).
Proof.
  rewrite search_spec. repeat split.
  - apply Forall_take. apply Forall_forall. intros l Hl.
    apply list_elem_of_In, filter_In in Hl. tauto.
  - rewrite length_take. lia.
  - intros Hle. by replace (Z.max 1 (q_limit q)) with 1%Z by lia.
Qed.

(** *** The indices of a chain that was only appended to *)

Lemma given_Some (x : option pystr) (k : pystr) :
  given x = Some k <-> x = Some k /\ k <> [].
Proof.
  destruct x as [[|c s]|]; cbn; split; try done; try (by intros [? ?]).
  - intros [Heq Hne]. by injection Heq as <-.
  - intros [= <-]. done.
Qed.

Lemma filed_snoc (key : loc -> option pystr) (ls : list loc) (l : loc) (k : pystr) :
  filed key (ls ++ [l]) k =
  if decide (key l = Some k)
  then Some (default [] (filed key ls k) ++ [l])
  else filed key ls k.
Proof.
  unfold filed. rewrite List.filter_app. cbn [List.filter].
  destruct (decide (key l = Some k)) as [Hk|Hk].
  - rewrite bool_decide_eq_true_2 by done.
    destruct (List.filter _ ls) as [|x xs]; done.
  - rewrite bool_decide_eq_false_2 by done. by rewrite app_nil_r.
Qed.

Lemma filed_ext (key key' : loc -> option pystr) (ls : list loc) (k : pystr) :
  (forall l, key' l = key l) -> filed key' ls k = filed key ls k.
Proof.
  intros Hext. unfold filed.
  by rewrite (List.filter_ext _ (fun l => bool_decide (key l = Some k)))
    by (intros l; by rewrite Hext).
Qed.

Lemma filed_found (key : loc -> option pystr) (ls : list loc) (k : pystr) :
  default [] (filed key ls k) =
  List.filter (fun l => bool_decide (key l = Some k)) ls.
Proof. unfold filed. by destruct (List.filter _ ls). Qed.

(** Both indices hold, for every key, the entries of the ledger filed
    under it. *)
Definition in_step (h : heap) (c : AuditChain) : Prop :=
  (forall k, _index_by_session c !! k = filed (session_key h) (_entries c) k) /\
  (forall k, _index_by_user c !! k = filed (user_key h) (_entries c) k).

Lemma index_append_lookup (key k : pystr) (l : loc) (index : gmap pystr (list loc)) :
  index_append key l index !! k =
  if decide (key = k) then Some (default [] (index !! key) ++ [l]) else index !! k.
Proof.
  unfold index_append. destruct (decide (key = k)) as [->|Hne].
  - by rewrite lookup_insert_eq.
  - by rewrite lookup_insert_ne.
Qed.

Lemma add_keeps_keys (h : heap) (c : AuditChain) (l l' : loc) :
  session_id ((add h c l).1 l') = session_id (h l') /\
  user_id ((add h c l).1 l') = user_id (h l').
Proof.
  unfold add. cbn [fst]. destruct (decide (l = l')) as [<-|Hne].
  - by rewrite fn_lookup_insert.
  - by rewrite fn_lookup_insert_ne.
Qed.

Lemma add_in_step (h : heap) (c : AuditChain) (l : loc) :
  in_step h c -> in_step (add h c l).1 (add h c l).2.
Proof.
  intros [Hs Hu].
  assert (forall l', session_key (add h c l).1 l' = session_key h l') as Hks.
  { intros l'. unfold session_key. by rewrite (proj1 (add_keeps_keys h c l l')). }
  assert (forall l', user_key (add h c l).1 l' = user_key h l') as Hku.
  { intros l'. unfold user_key. by rewrite (proj2 (add_keeps_keys h c l l')). }
  split; intros k.
  - rewrite (filed_ext (session_key h)) by done.
    unfold add. cbn [snd _entries _index_by_session]. rewrite filed_snoc.
    change (session_id (finalize (h l) (_last_hash c))) with (session_id (h l)).
    destruct (decide (session_key h l = Some k)) as [Hk|Hk].
    + unfold session_key in Hk. apply given_Some in Hk as [[= Hk] Hne]. rewrite Hk.
      rewrite bool_decide_eq_false_2 by done.
      rewrite index_append_lookup, decide_True by done. by rewrite Hs.
    + destruct (bool_decide (session_id (h l) = [])) eqn:Hb; [apply Hs|].
      apply bool_decide_eq_false in Hb.
      rewrite index_append_lookup, decide_False; [apply Hs|].
      intros Heq. apply Hk. unfold session_key. apply given_Some.
      split; [by rewrite Heq|]. by rewrite <- Heq.
  - rewrite (filed_ext (user_key h)) by done.
    unfold add. cbn [snd _entries _index_by_user]. rewrite filed_snoc.
    change (user_id (finalize (h l) (_last_hash c))) with (user_id (h l)).
    destruct (decide (user_key h l = Some k)) as [Hk|Hk].
    + unfold user_key in Hk. apply given_Some in Hk as [Hk Hne]. rewrite Hk.
      destruct k as [|a s]; [done|].
      rewrite index_append_lookup, decide_True by done. by rewrite Hu.
    + destruct (user_id (h l)) as [[|a s]|] eqn:Huid; [apply Hu| |apply Hu].
      rewrite index_append_lookup, decide_False; [apply Hu|].
      intros Heq. apply Hk. unfold user_key. rewrite Huid. cbn. by rewrite Heq.
Qed.

Lemma add_all_in_step (h : heap) (c : AuditChain) (ls : list loc) :
  in_step h c -> in_step (add_all h c ls).1 (add_all h c ls).2.
Proof.
  induction ls as [|l ls IH] using rev_ind; [done|].
  intros Hin. rewrite add_all_snoc. by apply add_in_step, IH.
Qed.

Lemma new_chain_in_step (h : heap) (cid : pystr) : in_step h (new_chain cid).
Proof. split; intros k; apply lookup_empty. Qed.

Lemma filter_filter_implied {A} (f g : A -> bool) (ls : list A) :
  (forall x, f x = true -> g x = true) ->
  List.filter f (List.filter g ls) = List.filter f ls.
Proof.
  intros Himp. induction ls as [|x ls IH]; [done|].
  cbn. destruct (g x) eqn:Hg; cbn.
  - by rewrite IH.
  - destruct (f x) eqn:Hf; [|done]. apply Himp in Hf. congruence.
Qed.

Lemma matches_user (h : heap) (q : search_query) (u : pystr) (l : loc) :
  given (q_user_id q) = Some u -> matches h q l = true ->
  bool_decide (user_key h l = Some u) = true.
Proof.
  intros Hu Hm. unfold matches in Hm. rewrite Hu in Hm.
  rewrite !andb_true_iff in Hm. destruct Hm as (((((_ & Hm) & _) & _) & _) & _).
  apply bool_decide_eq_true in Hm. apply bool_decide_eq_true.
  unfold user_key. rewrite Hm. apply given_Some in Hu as [_ Hne].
  by destruct u.
Qed.

Lemma matches_session (h : heap) (q : search_query) (s : pystr) (l : loc) :
  given (q_session_id q) = Some s -> matches h q l = true ->
  bool_decide (session_key h l = Some s) = true.
Proof.
  intros Hs Hm. unfold matches in Hm. rewrite Hs in Hm.
  rewrite !andb_true_iff in Hm. destruct Hm as (((((_ & _) & Hm) & _) & _) & _).
  apply bool_decide_eq_true in Hm. apply bool_decide_eq_true.
  unfold session_key. rewrite Hm. apply given_Some in Hs as [_ Hne].
  by destruct s.
Qed.

(** On a chain whose indices are in step with its ledger, walking an index
    finds what walking the ledger finds. *)
Lemma in_step_search (h : heap) (c : AuditChain) (q : search_query) :
  in_step h c ->
  List.filter (matches h q) (entries_to_search c q) =
  List.filter (matches h q) (_entries c).
Proof.
  intros [Hs Hu]. unfold entries_to_search.
  destruct (given (q_user_id q)) as [u|] eqn:Hgu; cbn [mbind option_bind].
  - rewrite Hu. destruct (filed (user_key h) (_entries c) u) as [found|] eqn:Hf.
    + pose proof (filed_found (user_key h) (_entries c) u) as Hfound.
      rewrite Hf in Hfound. cbn in Hfound. rewrite Hfound.
      apply filter_filter_implied. intros l. by apply matches_user.
    + destruct (given (q_session_id q)) as [s|] eqn:Hgs; cbn [mbind option_bind];
        [|done].
      rewrite Hs. destruct (filed (session_key h) (_entries c) s) as [found|] eqn:Hf';
        [|done].
      pose proof (filed_found (session_key h) (_entries c) s) as Hfound.
      rewrite Hf' in Hfound. cbn in Hfound. rewrite Hfound.
      apply filter_filter_implied. intros l. by apply matches_session.
  - destruct (given (q_session_id q)) as [s|] eqn:Hgs; cbn [mbind option_bind];
      [|done].
    rewrite Hs. destruct (filed (session_key h) (_entries c) s) as [found|] eqn:Hf';
      [|done].
    pose proof (filed_found (session_key h) (_entries c) s) as Hfound.
    rewrite Hf' in Hfound. cbn in Hfound. rewrite Hfound.
    apply filter_filter_implied. intros l. by apply matches_session.
Qed.

Lemma grown_chain_in_step (h0 : heap) (cid : pystr) (ls : list loc) :
  in_step (add_all h0 (new_chain cid) ls).1 (add_all h0 (new_chain cid) ls).2 /\
  _entries (add_all h0 (new_chain cid) ls).2 = ls.
Proof.
  split; [apply add_all_in_step, new_chain_in_step|].
  by rewrite add_all_entries.
Qed.

(** On a chain that was only appended to, the indices are an optimisation
    and nothing more: whatever the query, [search] returns the first
    matching entries of the whole ledger, in ledger order, whether it
    walked an index or the ledger. *)
Theorem search_index_agrees_with_scan (h0 : heap) (cid : pystr) (ls : list loc)
    (q : search_query) :
  let h := (add_all h0 (new_chain cid) ls).1 in
  let c := (add_all h0 (new_chain cid) ls).2 in
  search h c q =
    take (Z.to_nat (Z.max 1 (q_limit q))) (List.filter (matches h q) ls).
Proof.
  intros h c. destruct (grown_chain_in_step h0 cid ls) as [Hstep He].
  rewrite search_spec, (in_step_search h c q Hstep). fold c in He. by rewrite He.
Qed.

(** Entries appended under one session id are all returned by a search for
    that session, in the order they were appended (the first hundred of
    them, as the default [limit] has it), and [get_session_timeline] gives
    them all. *)
Theorem session_search_returns_session_entries (h0 : heap) (cid : pystr)
    (ls : list loc) (s : pystr) :
  let h := (add_all h0 (new_chain cid) ls).1 in
  let c := (add_all h0 (new_chain cid) ls).2 in
  let of_session := List.filter (fun l => bool_decide (session_id (h l) = s)) ls in
  (forall l, session_id (h l) = session_id (h0 l)) /\
  (s <> [] -> search h c (by_session s) = take 100 of_session) /\
  (s <> [] -> get_session_timeline c s = of_session) /\
  (s <> [] -> Forall (fun l => session_id (h l) = s) ls ->
   (length ls <= 100)%nat -> search h c (by_session s) = ls).
Proof.
  intros h c of_session.
  destruct (grown_chain_in_step h0 cid ls) as [Hstep He].
  fold h c in Hstep, He.
  assert (forall l, session_id (h l) = session_id (h0 l)) as Hsid.
  { intros l. unfold h. clear. induction ls as [|l' ls IH] using rev_ind; [done|].
    rewrite add_all_snoc. by rewrite (proj1 (add_keeps_keys _ _ _ _)). }
  assert (s <> [] -> search h c (by_session s) = take 100 of_session) as Hsearch.
  { intros Hne. rewrite search_spec, (in_step_search h c _ Hstep), He.
    cbn [by_session q_limit]. change (Z.to_nat (Z.max 1 100)) with 100%nat.
    f_equal. apply List.filter_ext. intros l. unfold matches. cbn.
    destruct s; [done|]. cbn. by rewrite !andb_true_r. }
  split; [done|]. split; [done|]. split.
  - intros Hne. unfold get_session_timeline. rewrite (proj1 Hstep), He.
    rewrite filed_found. apply List.filter_ext. intros l. unfold session_key.
    destruct (session_id (h l)) as [|a t] eqn:Hl; cbn.
    + rewrite !bool_decide_eq_false_2; [done| |done]. by intros <-.
    + apply bool_decide_ext. split; [by intros [= <-]|by intros <-].
  - intros Hne Hall Hlen. rewrite Hsearch by done.
    assert (of_session = ls) as ->.
    { unfold of_session. apply forallb_filter_id, forallb_forall.
      intros l Hl. apply bool_decide_eq_true.
      rewrite Forall_forall in Hall. by apply Hall, list_elem_of_In. }
    by apply take_ge.
Qed.

(** The indices are filled when an entry is appended and never afterwards:
    an entry whose [user_id] is assigned later stays filed under its old
    user.  A search for the new user that walks the index (some other entry
    being filed under that user) does not return the entry, whatever the
    other arguments, although the entry is in the ledger, carries the user
    and passes the tests of [search(user_id=u)]. *)
Theorem search_misses_reassigned_user (h0 : heap) (cid : pystr) (ls : list loc)
    (l l0 : loc) (u : pystr) (q : search_query) :
  l ∈ ls -> l0 ∈ ls -> u <> [] ->
  q_user_id q = Some u ->
  let h := (add_all h0 (new_chain cid) ls).1 in
  let c := (add_all h0 (new_chain cid) ls).2 in
  user_id (h l0) = Some u ->
  user_id (h l) <> Some u ->
  let h' := <[l := set_user_id (Some u) (h l)]> h in
  (l ∉ search h' c q) /\
  l ∈ _entries c /\
  user_id (h' l) = Some u /\
  matches h' (by_user u) l = true.
Proof.
  intros Hl Hl0 Hu Hq h c Hu0 Hul h'.
  destruct (grown_chain_in_step h0 cid ls) as [[_ Hstep] He].
  fold h c in Hstep, He.
  assert (given (q_user_id q) = Some u) as Hg.
  { rewrite Hq. by destruct u. }
  assert (entries_to_search c q =
          List.filter (fun x => bool_decide (user_key h x = Some u)) ls) as Hwalk.
  { unfold entries_to_search. rewrite Hg. cbn [mbind option_bind].
    rewrite Hstep, He.
    pose proof (filed_found (user_key h) ls u) as Hfound.
    destruct (filed (user_key h) ls u) as [found|] eqn:Hf; [done|].
    cbn in Hfound. exfalso.
    assert (l0 ∈ List.filter (fun x => bool_decide (user_key h x = Some u)) ls) as Hin.
    { apply list_elem_of_In, filter_In. split; [by apply list_elem_of_In|].
      apply bool_decide_eq_true. unfold user_key. rewrite Hu0. by destruct u. }
    rewrite <- Hfound in Hin. by apply elem_of_nil in Hin. }
  assert (user_id (h' l) = Some u) as Hnew.
  { unfold h'. by rewrite fn_lookup_insert. }
  split; [|split; [by rewrite He|split; [done|]]].
  - rewrite search_spec, Hwalk. intros Hin.
    apply subseteq_take in Hin.
    apply list_elem_of_In, filter_In in Hin as [Hin _].
    apply filter_In in Hin as [_ Hin]. apply bool_decide_eq_true in Hin.
    unfold user_key in Hin. apply given_Some in Hin as [Hin _]. done.
  - unfold matches. cbn [by_user q_event_type q_user_id q_session_id q_start_time
                           q_end_time q_level given].
    destruct u as [|a t]; [done|]. rewrite Hnew. cbn.
    by rewrite bool_decide_eq_true_2.
Qed.

(** *** Statistics *)

Lemma count_of_bump (k k' : pystr) (d : list (pystr * nat)) :
  count_of k (bump k' d) =
  if decide (k = k') then S (count_of k d) else count_of k d.
Proof.
  induction d as [|[k0 n] d IH]; cbn.
  - destruct (decide (k = k')); done.
  - destruct (decide (k' = k0)) as [->|Hne]; cbn.
    + destruct (decide (k = k0)); done.
    + destruct (decide (k = k0)) as [->|Hne'].
      * by rewrite decide_False by done.
      * apply IH.
Qed.

Lemma sum_bump (k : pystr) (d : list (pystr * nat)) :
  sum_list (bump k d).*2 = S (sum_list d.*2).
Proof.
  induction d as [|[k0 n] d IH]; cbn; [done|].
  destruct (decide (k = k0)); cbn; [done|]. rewrite IH. lia.
Qed.

Lemma keys_bump (k : pystr) (d : list (pystr * nat)) (x : pystr) :
  x ∈ (bump k d).*1 <-> x = k \/ x ∈ d.*1.
Proof.
  induction d as [|[k0 n] d IH]; cbn.
  - rewrite list_elem_of_singleton. split; [by left|].
    intros [?|Hin]; [done|]. by apply elem_of_nil in Hin.
  - destruct (decide (k = k0)) as [->|Hne]; cbn.
    + rewrite elem_of_cons. tauto.
    + rewrite !elem_of_cons, IH. tauto.
Qed.

Lemma NoDup_bump (k : pystr) (d : list (pystr * nat)) :
  NoDup d.*1 -> NoDup (bump k d).*1.
Proof.
  induction d as [|[k0 n] d IH]; cbn; intros Hnd.
  - apply NoDup_singleton.
  - apply NoDup_cons in Hnd as [Hnot Hnd].
    destruct (decide (k = k0)) as [->|Hne]; cbn.
    + by apply NoDup_cons.
    + apply NoDup_cons. split; [|by apply IH].
      rewrite keys_bump. intros [->|?]; done.
Qed.

Lemma AuditEventType_value_inj (t t' : AuditEventType) :
  AuditEventType_value t = AuditEventType_value t' -> t = t'.
Proof. destruct t, t'; intros Heq; try done; by vm_compute in Heq. Qed.

Lemma AuditLevel_value_inj (v v' : AuditLevel) :
  AuditLevel_value v = AuditLevel_value v' -> v = v'.
Proof. destruct v, v'; intros Heq; try done; by vm_compute in Heq. Qed.

(** What the counting loop of [get_stats] leaves in a dictionary of
    counts. *)
Lemma counting_loop {A} (key : A -> pystr) (xs : list A) (d : list (pystr * nat)) :
  let d' := foldl (fun acc x => bump (key x) acc) d xs in
  (forall k, count_of k d' =
             (count_of k d + length (List.filter (fun x => bool_decide (key x = k)) xs))%nat) /\
  sum_list d'.*2 = (sum_list d.*2 + length xs)%nat /\
  (NoDup d.*1 -> NoDup d'.*1).
Proof.
  revert d. induction xs as [|x xs IH]; intros d; cbn.
  - repeat split; try done; intros; lia.
  - destruct (IH (bump (key x) d)) as (Hc & Hs & Hn). repeat split.
    + intros k. rewrite Hc, count_of_bump.
      destruct (decide (k = key x)) as [->|Hne].
      * rewrite bool_decide_eq_true_2 by done. cbn. lia.
      * rewrite bool_decide_eq_false_2 by done. done.
    + rewrite Hs, sum_bump. lia.
    + intros Hnd. by apply Hn, NoDup_bump.
Qed.

Lemma foldl_pair {A B C} (f : B -> A -> B) (g : C -> A -> C) (xs : list A) b c :
  foldl (fun acc x => (f acc.1 x, g acc.2 x)) (b, c) xs =
  (foldl f b xs, foldl g c xs).
Proof. revert b c. induction xs as [|x xs IH]; intros b c; [done|]. cbn. apply IH. Qed.

(** [get_stats] counts every entry of the ledger once by event type and
    once by level: the count under a type (a level) is the number of
    entries of that type (level), no key stands twice, and each of the two
    dictionaries adds up to [total], the length of the ledger.  The report
    of an empty chain has no [sessions] and no [users]. *)
Theorem get_stats_counts_every_entry (h : heap) (c : AuditChain) :
  let s := get_stats h c in
  total s = length (_entries c) /\
  (forall t, count_of (AuditEventType_value t) (by_type s) =
     length (List.filter (fun l => bool_decide (event_type (h l) = t)) (_entries c))) /\
  (forall v, count_of (AuditLevel_value v) (by_level s) =
     length (List.filter (fun l => bool_decide (level (h l) = v)) (_entries c))) /\
  sum_list (by_type s).*2 = total s /\
  sum_list (by_level s).*2 = total s /\
  NoDup (by_type s).*1 /\ NoDup (by_level s).*1 /\
  (sessions s = None <-> _entries c = []) /\
  (users s = None <-> _entries c = []).
Proof.
  intros s. unfold s, get_stats.
  destruct (_entries c) as [|l0 ls0] eqn:He.
  { cbn. repeat split; try done; apply NoDup_nil_2. }
  set (entries := l0 :: ls0).
  rewrite (foldl_pair
             (fun acc l => bump (AuditEventType_value (event_type (h l))) acc)
             (fun acc l => bump (AuditLevel_value (level (h l))) acc)).
  cbn [total by_type by_level sessions users fst snd].
  destruct (counting_loop (fun l => AuditEventType_value (event_type (h l)))
              entries []) as (Hc1 & Hs1 & Hn1).
  destruct (counting_loop (fun l => AuditLevel_value (level (h l)))
              entries []) as (Hc2 & Hs2 & Hn2).
  repeat split; try done.
  - intros t. rewrite Hc1. cbn [count_of]. cbn [Nat.add]. f_equal.
    apply List.filter_ext. intros l. apply bool_decide_ext.
    split; [apply AuditEventType_value_inj|by intros ->].
  - intros v. rewrite Hc2. cbn [count_of]. cbn [Nat.add]. f_equal.
    apply List.filter_ext. intros l. apply bool_decide_ext.
    split; [apply AuditLevel_value_inj|by intros ->].
  - apply Hn1, NoDup_nil_2.
  - apply Hn2, NoDup_nil_2.
Qed.

End QueryFacts.

(** ** The chain of the examples *)

(** A stand-in for the SHA-256 of the JSON text, to run the examples with:
    it writes the seven fields out one after the other. *)
Definition demo_digest : Digest :=
  fun d =>
    h_entry_id d ++ lit "|" ++ str_of_int (h_timestamp d) ++ lit "|" ++
    h_event_type d ++ lit "|" ++ h_action d ++ lit "|" ++
    h_session_id d ++ lit "|" ++ h_request_id d ++ lit "|" ++
    from_option id (lit "null") (h_previous_hash d).

(** The entry objects of the examples, as their constructor leaves them:
    the object at address [n] is the [n]-th step of one session. *)
Definition demo_heap : heap :=
  fun n =>
    {| entry_id := lit "entry-" ++ str_of_int (Z.of_nat n);
       timestamp := 1700000000000000 + Z.of_nat n;
       level := INFO;
       event_type := EXECUTION_START;
       session_id := lit "sess-001";
       request_id := lit "req-" ++ str_of_int (Z.of_nat n);
       action := lit "action_" ++ str_of_int (Z.of_nat n);
       description := lit "Step " ++ str_of_int (Z.of_nat n);
       user_id := Some (lit "user-001");
       tenant_id := None;
       details := [];
       decision := None;
       reason := None;
       confidence := None;
       success := true;
       error_message := None;
       duration_ms := None;
       entry_hash := None;
       previous_hash := None |}.

Definition three_entries : (loc -> AuditEntry) * AuditChain :=
  @add_all demo_digest demo_heap (new_chain (lit "default")) [0; 1; 2]%nat.

(** The statement of [fresh_chain_verifies] at three entries. *)
Lemma fresh_chain_verifies_witness :
  let h := (@add_all demo_digest demo_heap (new_chain (lit "default"))
              [0; 1; 2]%nat).1 in
  let c := (@add_all demo_digest demo_heap (new_chain (lit "default"))
              [0; 1; 2]%nat).2 in
  valid (@verify_chain demo_digest h c) = true /\
  total_entries (@verify_chain demo_digest h c) = length [0; 1; 2]%nat /\
  broken_at (@verify_chain demo_digest h c) = None /\
  _entries c = [0; 1; 2]%nat /\
  (forall i l, [0; 1; 2]%nat !! i = Some l ->
     is_Some (entry_hash (h l)) /\
     previous_hash (h l) =
       match i with
       | O => None
       | S j => l' ← [0; 1; 2]%nat !! j; entry_hash (h l')
       end).
Proof.
  apply (@fresh_chain_verifies demo_digest demo_heap (lit "default") [0; 1; 2]%nat).
  refine (bool_decide_unpack _ _). vm_compute. exact I.
Defined.

(** The statement of [truncated_chain_verifies] at the same chain, cut
    down to its two oldest entries. *)
Lemma truncated_chain_verifies_witness :
  let h := (@add_all demo_digest demo_heap (new_chain (lit "default"))
              [0; 1; 2]%nat).1 in
  let c := (@add_all demo_digest demo_heap (new_chain (lit "default"))
              [0; 1; 2]%nat).2 in
  valid (@verify_chain demo_digest h (truncate 2 c)) = true /\
  total_entries (@verify_chain demo_digest h (truncate 2 c)) = 2%nat /\
  broken_at (@verify_chain demo_digest h (truncate 2 c)) = None /\
  _entries (truncate 2 c) = take 2 [0; 1; 2]%nat.
Proof.
  apply (@truncated_chain_verifies demo_digest demo_heap (lit "default")
           [0; 1; 2]%nat 2).
  - refine (bool_decide_unpack _ _). vm_compute. exact I.
  - simpl. lia.
Defined.

(** Rewriting the description, the user and the success flag of the second
    of three entries: the chain verifies as before. *)
Example rewritten_description_verifies :
  let h := three_entries.1 in
  let c := three_entries.2 in
  let forged :=
    set_success false
      (set_user_id (Some (lit "someone-else"))
         (set_description (lit "nothing happened") (h 1%nat))) in
  description forged <> description (h 1%nat) /\
  @verify_chain demo_digest (<[1%nat := forged]> h) c = @verify_chain demo_digest h c /\
  valid (@verify_chain demo_digest (<[1%nat := forged]> h) c) = true /\
  broken_at (@verify_chain demo_digest (<[1%nat := forged]> h) c) = None.
Proof. vm_compute. repeat split; discriminate. Qed.

(** The statement of [hashed_field_tamper_detected] at the same chain:
    the action of the second entry is rewritten. *)
Lemma hashed_field_tamper_detected_witness :
  let h := (@add_all demo_digest demo_heap (new_chain (lit "default"))
              [0; 1; 2]%nat).1 in
  let c := (@add_all demo_digest demo_heap (new_chain (lit "default"))
              [0; 1; 2]%nat).2 in
  let e' := set_action (lit "action_9") (h 1%nat) in
  valid (@verify_chain demo_digest (<[1%nat := e']> h) c) = false /\
  broken_at (@verify_chain demo_digest (<[1%nat := e']> h) c) = Some (entry_id e') /\
  total_entries (@verify_chain demo_digest (<[1%nat := e']> h) c)
    = length [0; 1; 2]%nat.
Proof.
  apply (@hashed_field_tamper_detected demo_digest demo_heap (lit "default")
           [0; 1; 2]%nat 1 1).
  - refine (bool_decide_unpack _ _). vm_compute. exact I.
  - reflexivity.
  - right. right. repeat split. vm_compute. discriminate.
Defined.

(** The statement of [valid_chain_prefix_valid] at the same chain and its
    oldest entry. *)
Lemma valid_chain_prefix_valid_witness :
  valid (@verify_chain demo_digest three_entries.1 (truncate 1 three_entries.2))
    = true /\
  total_entries (@verify_chain demo_digest three_entries.1
                   (truncate 1 three_entries.2))
    = length (take 1 (_entries three_entries.2)) /\
  broken_at (@verify_chain demo_digest three_entries.1
               (truncate 1 three_entries.2)) = None.
Proof.
  apply (@valid_chain_prefix_valid demo_digest three_entries.1 three_entries.2 1).
  vm_compute. reflexivity.
Defined.

(** The same three objects, the first being Alice's and the others
    Bob's. *)
Definition two_user_heap : nat -> AuditEntry :=
  fun n =>
    set_user_id (Some (match n with O => lit "alice" | _ => lit "bob" end))
      (demo_heap n).

(** With [limit=0] a search for the session still returns its first
    entry. *)
Example search_limit_zero_returns_one :
  search three_entries.1 three_entries.2
    {| q_event_type := None; q_user_id := None;
       q_session_id := Some (lit "sess-001"); q_start_time := None;
       q_end_time := None; q_level := None; q_limit := 0 |} = [0%nat].
Proof. vm_compute. reflexivity. Qed.

(** The statement of [search_misses_reassigned_user] there: Alice's entry
    is handed to Bob after the appends, and a search for Bob's entries does
    not return it. *)
Lemma search_misses_reassigned_user_witness :
  let h := (@add_all demo_digest two_user_heap (new_chain (lit "default"))
              [0; 1; 2]%nat).1 in
  let c := (@add_all demo_digest two_user_heap (new_chain (lit "default"))
              [0; 1; 2]%nat).2 in
  let h' := <[0%nat := set_user_id (Some (lit "bob")) (h 0%nat)]> h in
  (0%nat ∉ search h' c (by_user (lit "bob"))) /\
  0%nat ∈ _entries c /\
  user_id (h' 0%nat) = Some (lit "bob") /\
  matches h' (by_user (lit "bob")) 0%nat = true.
Proof.
  apply (@search_misses_reassigned_user demo_digest two_user_heap (lit "default")
           [0; 1; 2]%nat 0%nat 1%nat (lit "bob") (by_user (lit "bob"))).
  - apply list_elem_of_here.
  - apply list_elem_of_further, list_elem_of_here.
  - discriminate.
  - reflexivity.
  - vm_compute. reflexivity.
  - vm_compute. discriminate.
Defined.

End Audit.

(* ===================================================================== *)
(** * The mode engine (dynamic_mode_engine.py)                            *)
(* ===================================================================== *)

Module ModeEngine.
Import Py.
Open Scope Q_scope.

(** Scores, thresholds and confidences are Python floats.  The model
    computes with them as exact rationals: the decimal literals of the
    source stand for the fractions they spell, comparisons are those of the
    source, and arithmetic is exact. *)

Inductive ExecutionMode := LOCAL_ONLY | HYBRID | CLOUD_SANDBOX.

#[global] Instance ExecutionMode_eq_dec : EqDecision ExecutionMode.
Proof. solve_decision. Defined.

(** The text of [ModeDecision.reason], by the f-string that builds it. *)
Inductive decision_reason :=
| ContentOverride
| UserOverride (user_id : pystr)
| AboveLocalThreshold (score threshold : Q)
| BelowCloudThreshold (score threshold : Q)
| DefaultHybrid (score : Q)
| ReasonText (s : pystr).

Record ModeDecision := {
  mode : ExecutionMode;
  confidence : Q;
  reason : decision_reason;
  sensitivity_score : Q;
  requires_confirmation : bool;
  suggested_actions : list pystr;
}.

Record SensitivityRule := {
  pattern : pystr;
  score : Q;
  category : pystr;
  is_regex : bool;
}.

(** [re.compile(pattern, re.IGNORECASE).search(content)] found a match:
    the regular-expression engine is the interpreter's. *)
Class Regex := re_search_ignorecase : pystr -> pystr -> bool.

(** [hash(content)] of a string, which the interpreter salts per process. *)
Class StrHash := py_hash : pystr -> Z.

(** [min(a, b)] and [max(a, b)] of the interpreter: the first argument
    stays unless the second is strictly beyond it. *)
Definition py_min (a b : Q) : Q := if Qlt_le_dec b a then b else a.
Definition py_max (a b : Q) : Q := if Qlt_le_dec a b then b else a.

(** [max(xs)] over a non-empty sequence. *)
Definition py_max_list (x : Q) (xs : list Q) : Q := fold_left py_max xs x.

(** [round(x, 2)]: to the nearest hundredth, a tie going to the even
    one. *)
Definition round2 (x : Q) : Q :=
  let n := x * 100 in
  let f := Qfloor n in
  let r := n - inject_Z f in
  let k := if Qlt_le_dec r (1#2) then f
           else if Qlt_le_dec (1#2) r then (f + 1)%Z
           else if Z.even f then f else (f + 1)%Z in
  inject_Z k / 100.

(** The patterns of [DEFAULT_RULES], as code points. *)
(** r"密碼|密码|password|密鑰|密钥|private.?key" *)
Definition default_pattern_0 : pystr :=
  [23494; 30908; 124; 23494; 30721; 124; 112; 97; 115; 115; 119; 111; 114;
  100; 124; 23494; 38000; 124; 23494; 38053; 124; 112; 114; 105; 118; 97;
  116; 101; 46; 63; 107; 101; 121]%N.
(** r"信用卡|credit.?card|CVV|\b\d{16}\b" *)
Definition default_pattern_1 : pystr :=
  [20449; 29992; 21345; 124; 99; 114; 101; 100; 105; 116; 46; 63; 99; 97;
  114; 100; 124; 67; 86; 86; 124; 92; 98; 92; 100; 123; 49; 54; 125; 92; 98]%N.
(** r"轉帳|转账|匯款|汇款|transfer|balance" *)
Definition default_pattern_2 : pystr :=
  [36681; 24115; 124; 36716; 36134; 124; 21295; 27454; 124; 27719; 27454;
  124; 116; 114; 97; 110; 115; 102; 101; 114; 124; 98; 97; 108; 97; 110; 99;
  101]%N.
(** r"銀行帳號|银行账号|account.?number" *)
Definition default_pattern_3 : pystr :=
  [37504; 34892; 24115; 34399; 124; 38134; 34892; 36134; 21495; 124; 97; 99;
  99; 111; 117; 110; 116; 46; 63; 110; 117; 109; 98; 101; 114]%N.
(** r"身份證|身份证|ID.?card|身分證|身分证" *)
Definition default_pattern_4 : pystr :=
  [36523; 20221; 35657; 124; 36523; 20221; 35777; 124; 73; 68; 46; 63; 99;
  97; 114; 100; 124; 36523; 20998; 35657; 124; 36523; 20998; 35777]%N.
(** r"護照|护照|passport" *)
Definition default_pattern_5 : pystr :=
  [35703; 29031; 124; 25252; 29031; 124; 112; 97; 115; 115; 112; 111; 114;
  116]%N.
(** r"手機號|手机号|phone|\b\d{11}\b" *)
Definition default_pattern_6 : pystr :=
  [25163; 27231; 34399; 124; 25163; 26426; 21495; 124; 112; 104; 111; 110;
  101; 124; 92; 98; 92; 100; 123; 49; 49; 125; 92; 98]%N.
(** r"地址|address|住址" *)
Definition default_pattern_7 : pystr :=
  [22320; 22336; 124; 97; 100; 100; 114; 101; 115; 115; 124; 20303; 22336]%N.
(** r"姓名|name" *)
Definition default_pattern_8 : pystr :=
  [22995; 21517; 124; 110; 97; 109; 101]%N.
(** r"刪除|删除|delete|drop|truncate" *)
Definition default_pattern_9 : pystr :=
  [21034; 38500; 124; 21024; 38500; 124; 100; 101; 108; 101; 116; 101; 124;
  100; 114; 111; 112; 124; 116; 114; 117; 110; 99; 97; 116; 101]%N.
(** r"修改|update|alter" *)
Definition default_pattern_10 : pystr :=
  [20462; 25913; 124; 117; 112; 100; 97; 116; 101; 124; 97; 108; 116; 101;
  114]%N.
(** r"執行|执行|exec|eval|system" *)
Definition default_pattern_11 : pystr :=
  [22519; 34892; 124; 25191; 34892; 124; 101; 120; 101; 99; 124; 101; 118;
  97; 108; 124; 115; 121; 115; 116; 101; 109]%N.
(** r"rm\s+-rf|chmod\s+777" *)
Definition default_pattern_12 : pystr :=
  [114; 109; 92; 115; 43; 45; 114; 102; 124; 99; 104; 109; 111; 100; 92; 115;
  43; 55; 55; 55]%N.
(** r"營業額|营业额|revenue|profit" *)
Definition default_pattern_13 : pystr :=
  [29151; 26989; 38989; 124; 33829; 19994; 39069; 124; 114; 101; 118; 101;
  110; 117; 101; 124; 112; 114; 111; 102; 105; 116]%N.
(** r"客戶名單|客户名单|customer.?list" *)
Definition default_pattern_14 : pystr :=
  [23458; 25142; 21517; 21934; 124; 23458; 25143; 21517; 21333; 124; 99; 117;
  115; 116; 111; 109; 101; 114; 46; 63; 108; 105; 115; 116]%N.
(** r"合約|合约|contract|agreement" *)
Definition default_pattern_15 : pystr :=
  [21512; 32004; 124; 21512; 32422; 124; 99; 111; 110; 116; 114; 97; 99; 116;
  124; 97; 103; 114; 101; 101; 109; 101; 110; 116]%N.

Definition DEFAULT_RULES : list SensitivityRule :=
  [ {| pattern := default_pattern_0; score := 0.95; category := lit "credential";
       is_regex := true |};
    {| pattern := default_pattern_1; score := 0.9; category := lit "financial";
       is_regex := true |};
    {| pattern := default_pattern_2; score := 0.85; category := lit "financial";
       is_regex := true |};
    {| pattern := default_pattern_3; score := 0.8; category := lit "financial";
       is_regex := true |};
    {| pattern := default_pattern_4; score := 0.95; category := lit "identity";
       is_regex := true |};
    {| pattern := default_pattern_5; score := 0.9; category := lit "identity";
       is_regex := true |};
    {| pattern := default_pattern_6; score := 0.7; category := lit "identity";
       is_regex := true |};
    {| pattern := default_pattern_7; score := 0.6; category := lit "identity";
       is_regex := true |};
    {| pattern := default_pattern_8; score := 0.5; category := lit "identity";
       is_regex := true |};
    {| pattern := default_pattern_9; score := 0.85; category := lit "system";
       is_regex := true |};
    {| pattern := default_pattern_10; score := 0.75; category := lit "system";
       is_regex := true |};
    {| pattern := default_pattern_11; score := 0.7; category := lit "system";
       is_regex := true |};
    {| pattern := default_pattern_12; score := 0.95; category := lit "system";
       is_regex := true |};
    {| pattern := default_pattern_13; score := 0.75; category := lit "business";
       is_regex := true |};
    {| pattern := default_pattern_14; score := 0.8; category := lit "business";
       is_regex := true |};
    {| pattern := default_pattern_15; score := 0.6; category := lit "business";
       is_regex := true |} ].

(** "建議使用本地模型處理", "敏感數據將完全隔離", "雲端僅接收脫敏後的元數據" *)
Definition local_actions : list pystr :=
  [ [24314; 35696; 20351; 29992; 26412; 22320; 27169; 22411; 34389; 29702]%N;
    [25935; 24863; 25976; 25818; 23559; 23436; 20840; 38548; 38626]%N;
    [38642; 31471; 20677; 25509; 25910; 33067; 25935; 24460; 30340; 20803;
    25976; 25818]%N ].
(** "可使用雲端模型加速處理", "數據已自動脫敏" *)
Definition cloud_actions : list pystr :=
  [ [21487; 20351; 29992; 38642; 31471; 27169; 22411; 21152; 36895; 34389;
    29702]%N;
    [25976; 25818; 24050; 33258; 21205; 33067; 25935]%N ].
(** "雲端負責推理規劃", "本地執行實際操作", "最終結果本地覆寫" *)
Definition hybrid_actions : list pystr :=
  [ [38642; 31471; 36000; 36012; 25512; 29702; 35215; 21123]%N;
    [26412; 22320; 22519; 34892; 23526; 38555; 25805; 20316]%N;
    [26368; 32066; 32080; 26524; 26412; 22320; 35206; 23531]%N ].

(** ** SensitivityAnalyzer *)

(** The analyzer's rules; [_pattern_cache] only remembers compiled patterns
    and is left out. *)
Record SensitivityAnalyzer := {
  rules : list SensitivityRule;
}.

(** [SensitivityAnalyzer(custom_rules)]: [custom_rules or DEFAULT_RULES]. *)
Definition new_analyzer (custom_rules : option (list SensitivityRule))
    : SensitivityAnalyzer :=
  match custom_rules with
  | Some ((_ :: _) as custom) => {| rules := custom |}
  | _ => {| rules := DEFAULT_RULES |}
  end.

Definition add_rule (an : SensitivityAnalyzer) (rule : SensitivityRule)
    : SensitivityAnalyzer :=
  {| rules := rules an ++ [rule] |}.

Record analysis_details := {
  rule_count : nat;
  content_length : nat;
  has_pii : bool;
  has_credential : bool;
}.

(** The dictionary that [analyze] returns. *)
Record analysis := {
  a_score : Q;
  matched_rules : list SensitivityRule;
  categories : gset pystr;
  a_details : analysis_details;
}.

Definition is_str (s : pystr) (v : option pyval) : bool :=
  match v with
  | Some (PyStr s') => bool_decide (s' = s)
  | _ => false
  end.

(** [context.get(key)] as a condition. *)
Definition flag (key : pystr) (context : pydict) : bool :=
  from_option truthy false (dict_get key context).

Definition _adjust_by_context (score : Q) (context : pydict) : Q :=
  let score := if flag (lit "user_marked_sensitive") context
               then py_max score 0.9 else score in
  let score := if flag (lit "is_admin") context
               then py_min (score * 1.1) 1.0 else score in
  let score := if is_str (lit "production") (dict_get (lit "environment") context)
               then py_min (score * 1.15) 1.0 else score in
  score.

Section Analyzer.
Context `{UnicodeTables} `{Regex}.

Definition _matches (content : pystr) (rule : SensitivityRule) : bool :=
  if is_regex rule then re_search_ignorecase (pattern rule) content
  else contains (lower (pattern rule)) content.

(** The rules that match, in the order of [self.rules]. *)
Definition matching (an : SensitivityAnalyzer) (content : pystr)
    : list SensitivityRule :=
  List.filter (_matches content) (rules an).

(** [final_score] as it stands before the context adjustment. *)
Definition base_score (matched : list SensitivityRule) : Q :=
  match map score matched with
  | [] => 0.1
  | s :: ss =>
      let base_score := py_max_list s ss in
      let count_bonus := py_min (inject_Z (Z.of_nat (length matched)) * 0.05) 0.15 in
      py_min (base_score + count_bonus) 1.0
  end.

Definition analyze (an : SensitivityAnalyzer) (content : pystr)
    (context : option pydict) : analysis :=
  let matched := matching an content in
  let cats : gset pystr := list_to_set (map category matched) in
  let final_score := base_score matched in
  let final_score :=
    match context with
    | Some ((_ :: _) as ctx) => _adjust_by_context final_score ctx
    | _ => final_score
    end in
  {| a_score := round2 final_score;
     matched_rules := matched;
     categories := cats;
     a_details :=
       {| rule_count := length matched;
          content_length := length content;
          has_pii := bool_decide (lit "identity" ∈ cats);
          has_credential := bool_decide (lit "credential" ∈ cats) |} |}.

End Analyzer.

(** ** DynamicModeEngine *)

(** What a decision hook is called with. *)
Record hook_input := {
  hi_content : pystr;
  hi_score : Q;
  hi_analysis : analysis;
  hi_context : option pydict;
}.

(** [_user_overrides] is keyed by the number [hash(content) % 10000] or by
    the text ["user:" + user_id]. *)
Record DynamicModeEngine := {
  analyzer : SensitivityAnalyzer;
  local_threshold : Q;
  cloud_threshold : Q;
  default_mode : ExecutionMode;
  _user_overrides : gmap (Z + pystr) ExecutionMode;
  _decision_hooks : list (hook_input -> option ModeDecision);
}.

(** [DynamicModeEngine()]: the default thresholds, no override, no hook. *)
Definition new_engine : DynamicModeEngine :=
  {| analyzer := new_analyzer None;
     local_threshold := 0.8;
     cloud_threshold := 0.3;
     default_mode := HYBRID;
     _user_overrides := ∅;
     _decision_hooks := [] |}.

Definition set_override (engine : DynamicModeEngine) (key : Z + pystr)
    (m : ExecutionMode) : DynamicModeEngine :=
  {| analyzer := analyzer engine;
     local_threshold := local_threshold engine;
     cloud_threshold := cloud_threshold engine;
     default_mode := default_mode engine;
     _user_overrides := <[key := m]> (_user_overrides engine);
     _decision_hooks := _decision_hooks engine |}.

Definition add_decision_hook (engine : DynamicModeEngine)
    (hook : hook_input -> option ModeDecision) : DynamicModeEngine :=
  {| analyzer := analyzer engine;
     local_threshold := local_threshold engine;
     cloud_threshold := cloud_threshold engine;
     default_mode := default_mode engine;
     _user_overrides := _user_overrides engine;
     _decision_hooks := _decision_hooks engine ++ [hook] |}.

Definition _make_decision (engine : DynamicModeEngine) (score : Q)
    (an : analysis) (context : option pydict) : ModeDecision :=
  if Qle_bool (local_threshold engine) score then
    {| mode := LOCAL_ONLY;
       confidence := 0.95;
       reason := AboveLocalThreshold score (local_threshold engine);
       sensitivity_score := score;
       requires_confirmation := true;
       suggested_actions := local_actions |}
  else if Qle_bool score (cloud_threshold engine) then
    {| mode := CLOUD_SANDBOX;
       confidence := 0.85;
       reason := BelowCloudThreshold score (cloud_threshold engine);
       sensitivity_score := score;
       requires_confirmation := false;
       suggested_actions := cloud_actions |}
  else
    {| mode := HYBRID;
       confidence := 0.8;
       reason := DefaultHybrid score;
       sensitivity_score := score;
       requires_confirmation := negb (Qle_bool score 0.5);
       suggested_actions := hybrid_actions |}.

(** The loop over [self._decision_hooks]: the first decision a hook
    gives. *)
Fixpoint first_hook_decision (hooks : list (hook_input -> option ModeDecision))
    (input : hook_input) : option ModeDecision :=
  match hooks with
  | [] => None
  | hook :: hooks' =>
      match hook input with
      | Some custom_decision => Some custom_decision
      | None => first_hook_decision hooks' input
      end
  end.

Section Engine.
Context `{UnicodeTables} `{Regex} `{StrHash}.

Definition _check_override (engine : DynamicModeEngine) (content : pystr)
    (user_id : option pystr) : option ModeDecision :=
  let content_hash := (py_hash content mod 10000)%Z in
  match _user_overrides engine !! inl content_hash with
  | Some m =>
      Some {| mode := m; confidence := 1.0; reason := ContentOverride;
              sensitivity_score := 0.0; requires_confirmation := false;
              suggested_actions := [] |}
  | None =>
      match user_id with
      | Some ((_ :: _) as uid) =>
          match _user_overrides engine !! inr (lit "user:" ++ uid) with
          | Some m =>
              Some {| mode := m; confidence := 1.0; reason := UserOverride uid;
                      sensitivity_score := 0.0; requires_confirmation := false;
                      suggested_actions := [] |}
          | None => None
          end
      | _ => None
      end
  end.

Definition decide (engine : DynamicModeEngine) (content : pystr)
    (user_id : option pystr) (context : option pydict) : ModeDecision :=
  match _check_override engine content user_id with
  | Some override => override
  | None =>
      let an := analyze (analyzer engine) content context in
      let score := a_score an in
      match first_hook_decision (_decision_hooks engine)
              {| hi_content := content; hi_score := score;
                 hi_analysis := an; hi_context := context |}
      with
      | Some custom_decision => custom_decision
      | None => _make_decision engine score an context
      end
  end.

End Engine.

(** How much of the work a mode keeps on the machine: the order of the
    three modes from the least to the most restrictive. *)
Definition restrictiveness (m : ExecutionMode) : nat :=
  match m with
  | CLOUD_SANDBOX => 0
  | HYBRID => 1
  | LOCAL_ONLY => 2
  end%nat.

(** ** Facts about the score *)

Lemma py_min_spec (a b : Q) : py_min a b == Qmin a b.
Proof.
  unfold py_min. destruct (Qlt_le_dec b a) as [Hlt|Hle].
  - symmetry. apply Q.min_r. by apply Qlt_le_weak.
  - symmetry. by apply Q.min_l.
Qed.

Lemma py_min_le_l (a b : Q) : py_min a b <= a.
Proof. unfold py_min. destruct (Qlt_le_dec b a); lra. Qed.

Lemma py_min_le_r (a b : Q) : py_min a b <= b.
Proof. unfold py_min. destruct (Qlt_le_dec b a); lra. Qed.

Lemma py_min_ge (a b c : Q) : c <= a -> c <= b -> c <= py_min a b.
Proof. unfold py_min. destruct (Qlt_le_dec b a); lra. Qed.

Lemma py_max_ge_l (a b : Q) : a <= py_max a b.
Proof. unfold py_max. destruct (Qlt_le_dec a b); lra. Qed.

Lemma py_max_ge_r (a b : Q) : b <= py_max a b.
Proof. unfold py_max. destruct (Qlt_le_dec a b); lra. Qed.

Lemma py_max_le (a b c : Q) : a <= c -> b <= c -> py_max a b <= c.
Proof. unfold py_max. destruct (Qlt_le_dec a b); lra. Qed.

Lemma py_max_choice (a b : Q) : py_max a b = a \/ py_max a b = b.
Proof. unfold py_max. destruct (Qlt_le_dec a b); auto. Qed.

(** [max] over a sequence is one of its members and bounds them all. *)
Lemma py_max_list_member (x : Q) (xs : list Q) :
  py_max_list x xs ∈ x :: xs.
Proof.
  unfold py_max_list. revert x. induction xs as [|y xs IH]; intros x; simpl.
  - apply list_elem_of_here.
  - specialize (IH (py_max x y)).
    apply elem_of_cons in IH as [IH|IH].
    + rewrite IH. destruct (py_max_choice x y) as [-> | ->].
      * apply list_elem_of_here.
      * apply list_elem_of_further, list_elem_of_here.
    + by do 2 apply list_elem_of_further.
Qed.

Lemma py_max_list_ge_first (x : Q) (xs : list Q) : x <= py_max_list x xs.
Proof.
  unfold py_max_list. revert x. induction xs as [|y xs IH]; intros x; simpl.
  - lra.
  - specialize (IH (py_max x y)). pose proof (py_max_ge_l x y). lra.
Qed.

Lemma py_max_list_upper (x : Q) (xs : list Q) (y : Q) :
  y ∈ x :: xs -> y <= py_max_list x xs.
Proof.
  unfold py_max_list. revert x. induction xs as [|z xs IH]; intros x Hin.
  - apply list_elem_of_singleton in Hin as ->. simpl. lra.
  - simpl. apply elem_of_cons in Hin as [->|Hin].
    + pose proof (py_max_list_ge_first (py_max x z) xs) as Hge.
      unfold py_max_list in Hge. pose proof (py_max_ge_l x z). lra.
    + apply elem_of_cons in Hin as [->|Hin].
      * pose proof (py_max_list_ge_first (py_max x z) xs) as Hge.
        unfold py_max_list in Hge. pose proof (py_max_ge_r x z). lra.
      * apply IH. by apply list_elem_of_further.
Qed.


Lemma _adjust_by_context_unit (s : Q) (context : pydict) :
  0 <= s <= 1 -> 0 <= _adjust_by_context s context <= 1.
Proof.
  intros Hs. unfold _adjust_by_context.
  set (s1 := if flag _ context then py_max s 0.9 else s).
  assert (0 <= s1 <= 1) as Hs1.
  { unfold s1. destruct (flag (lit "user_marked_sensitive") context); [|done].
    split.
    - pose proof (py_max_ge_l s 0.9). lra.
    - apply py_max_le; lra. }
  set (s2 := if flag _ context then py_min (s1 * 1.1) 1.0 else s1).
  assert (0 <= s2 <= 1) as Hs2.
  { unfold s2. destruct (flag (lit "is_admin") context); [|done]. split.
    - apply py_min_ge; lra.
    - pose proof (py_min_le_r (s1 * 1.1) 1.0). lra. }
  destruct (is_str _ _); [|done]. split.
  - apply py_min_ge; lra.
  - pose proof (py_min_le_r (s2 * 1.15) 1.0). lra.
Qed.

Lemma base_score_unit (matched : list SensitivityRule) :
  Forall (fun r => 0 <= score r <= 1) matched ->
  0 <= base_score matched <= 1.
Proof.
  intros Hall. unfold base_score.
  destruct matched as [|r rs]; simpl; [lra|].
  set (top := py_max_list (score r) (map score rs)).
  set (bonus := py_min _ 0.15).
  assert (0 <= top) as Htop.
  { pose proof (py_max_list_ge_first (score r) (map score rs)) as Hge.
    inversion Hall as [|? ? [Hr0 _] _]; subst. unfold top. lra. }
  assert (0 <= bonus) as Hbonus.
  { unfold bonus. apply py_min_ge; [|lra].
    assert (0 <= inject_Z (Z.of_nat (S (length rs)))) as Hlen.
    { change 0 with (inject_Z 0). rewrite <- Zle_Qle. lia. }
    nra. }
  split.
  - apply py_min_ge; lra.
  - pose proof (py_min_le_r (top + bonus) 1.0). lra.
Qed.

(** The value before the context adjustment, in the words of the
    description: 0.1 without a match, otherwise the highest matched score
    plus a bonus of 0.05 per match, at most 0.15, the sum capped at 1. *)
Lemma base_score_formula (matched : list SensitivityRule) :
  (matched = [] -> base_score matched == 0.1) /\
  (matched <> [] ->
   exists top,
     top ∈ matched /\
     (forall r, r ∈ matched -> score r <= score top) /\
     base_score matched ==
       Qmin 1.0 (score top +
                 Qmin (0.05 * inject_Z (Z.of_nat (length matched))) 0.15)).
Proof.
  split; [by intros ->|].
  intros Hne. destruct matched as [|r rs]; [done|].
  pose proof (py_max_list_member (score r) (map score rs)) as Hmem.
  change (score r :: map score rs) with (map score (r :: rs)) in Hmem.
  apply list_elem_of_fmap in Hmem as (top & Htop & Hin).
  exists top. split; [done|]. split.
  - intros r' Hr'. rewrite <- Htop.
    apply py_max_list_upper.
    change (score r :: map score rs) with (map score (r :: rs)).
    by apply list_elem_of_fmap_2.
  - unfold base_score. cbn [map]. rewrite Htop.
    rewrite !py_min_spec. rewrite Q.min_comm.
    apply Q.min_compat; [reflexivity|].
    apply Qplus_comp; [reflexivity|].
    apply Q.min_compat; [|reflexivity]. apply Qmult_comm.
Qed.

(** ** The analyzer and the decision *)

Section EngineTheorems.
Context `{UnicodeTables} `{Regex} `{StrHash}.


(** C5.  With no override registered for the content or the user, and no
    hook giving a decision, [decide] answers by the thresholds on the
    analyzed score [s]: at or above [local_threshold], LOCAL_ONLY with
    confidence 0.95 and confirmation required; otherwise, at or below
    [cloud_threshold], CLOUD_SANDBOX with confidence 0.85 and no
    confirmation; otherwise HYBRID with confidence 0.8 and confirmation
    required exactly when [s > 0.5].  The decision carries [s].  When the
    thresholds are in order ([cloud_threshold < local_threshold], as the
    defaults 0.3 and 0.8 are), the second case needs no "otherwise". *)
Theorem default_rule_decides (engine : DynamicModeEngine) (content : pystr)
    (user_id : option pystr) (context : option pydict) :
  _user_overrides engine !! inl (py_hash content mod 10000)%Z = None ->
  (forall uid, user_id = Some uid ->
     _user_overrides engine !! inr (lit "user:" ++ uid) = None) ->
  let an := analyze (analyzer engine) content context in
  let s := a_score an in
  Forall (fun hook => hook {| hi_content := content; hi_score := s;
                              hi_analysis := an; hi_context := context |} = None)
         (_decision_hooks engine) ->
  let d := decide engine content user_id context in
  sensitivity_score d = s /\
  (local_threshold engine <= s ->
     mode d = LOCAL_ONLY /\ confidence d = 0.95 /\
     requires_confirmation d = true) /\
  (~ local_threshold engine <= s -> s <= cloud_threshold engine ->
     mode d = CLOUD_SANDBOX /\ confidence d = 0.85 /\
     requires_confirmation d = false) /\
  (~ local_threshold engine <= s -> ~ s <= cloud_threshold engine ->
     mode d = HYBRID /\ confidence d = 0.8 /\
     (requires_confirmation d = true <-> 0.5 < s)) /\
  (cloud_threshold engine < local_threshold engine ->
     s <= cloud_threshold engine ->
     mode d = CLOUD_SANDBOX /\ confidence d = 0.85 /\
     requires_confirmation d = false).
Proof.
  intros Hcontent Huser an s Hhooks d.
  assert (_check_override engine content user_id = None) as Hno.
  { unfold _check_override. rewrite Hcontent.
    destruct user_id as [[|c uid]|]; try done.
    by rewrite (Huser (c :: uid) eq_refl). }
  assert (forall hooks input,
             Forall (fun hook => hook input = None) hooks ->
             first_hook_decision hooks input = None) as Hfirst.
  { intros hooks input Hall. induction Hall as [|hook hooks Hh _ IH]; [done|].
    simpl. by rewrite Hh. }
  assert (d = _make_decision engine s an context) as ->.
  { unfold d, decide. rewrite Hno. fold an. fold s.
    by rewrite (Hfirst _ _ Hhooks). }
  clear Hhooks. clearbody s.
  set (d := _make_decision engine s an context).
  enough (sensitivity_score d = s /\
          (local_threshold engine <= s ->
             mode d = LOCAL_ONLY /\ confidence d = 0.95 /\
             requires_confirmation d = true) /\
          (~ local_threshold engine <= s -> s <= cloud_threshold engine ->
             mode d = CLOUD_SANDBOX /\ confidence d = 0.85 /\
             requires_confirmation d = false) /\
          (~ local_threshold engine <= s -> ~ s <= cloud_threshold engine ->
             mode d = HYBRID /\ confidence d = 0.8 /\
             (requires_confirmation d = true <-> 0.5 < s)))
    as (Hs & Hlocal & Hcloud & Hhybrid).
  { split; [done|]. split; [done|]. split; [done|]. split; [done|].
    intros Hord Hle. apply Hcloud; [|done]. intros Hge. lra. }
  unfold d, _make_decision.
  destruct (Qle_bool (local_threshold engine) s) eqn:Hlocal.
  - apply Qle_bool_iff in Hlocal. cbn. repeat split; try done.
  - assert (~ local_threshold engine <= s) as Hnl.
    { intros Hle. apply Qle_bool_iff in Hle. congruence. }
    destruct (Qle_bool s (cloud_threshold engine)) eqn:Hcloud.
    + apply Qle_bool_iff in Hcloud. cbn. repeat split; try done.
    + assert (~ s <= cloud_threshold engine) as Hnc.
      { intros Hle. apply Qle_bool_iff in Hle. congruence. }
      cbn. repeat split; try done.
      * intros Hrc. apply negb_true_iff in Hrc.
        apply Qnot_le_lt. intros Hle. apply Qle_bool_iff in Hle. congruence.
      * intros Hlt. apply negb_true_iff.
        destruct (Qle_bool s 0.5) eqn:Hb; [|done].
        apply Qle_bool_iff in Hb. lra.
Qed.

End EngineTheorems.

(** ** Rounding and the context adjustment *)

Lemma round2_hundredths (x : Q) :
  exists k : Z,
    round2 x = inject_Z k / 100 /\
    x * 100 - (1#2) <= inject_Z k <= x * 100 + (1#2) /\
    (Qfloor (x * 100) <= k <= Qfloor (x * 100) + 1)%Z /\
    (x * 100 - inject_Z (Qfloor (x * 100)) < 1#2 -> k = Qfloor (x * 100)) /\
    (1#2 < x * 100 - inject_Z (Qfloor (x * 100)) -> k = (Qfloor (x * 100) + 1)%Z) /\
    (x * 100 - inject_Z (Qfloor (x * 100)) == 1#2 ->
     k = if Z.even (Qfloor (x * 100)) then Qfloor (x * 100)
         else (Qfloor (x * 100) + 1)%Z).
Proof.
  unfold round2. set (n := x * 100). set (f := Qfloor n).
  pose proof (Qfloor_le n) as Hf1. pose proof (Qlt_floor n) as Hf2.
  fold f in Hf1, Hf2. rewrite inject_Z_plus in Hf2.
  change (inject_Z 1) with 1 in Hf2.
  destruct (Qlt_le_dec (n - inject_Z f) (1#2)) as [Hr|Hr].
  - exists f. repeat split; try lra; try lia.
  - destruct (Qlt_le_dec (1#2) (n - inject_Z f)) as [Hr'|Hr'].
    + exists (f + 1)%Z. rewrite inject_Z_plus. change (inject_Z 1) with 1.
      repeat split; try lra; try lia.
    + destruct (Z.even f) eqn:Hev.
      * exists f. repeat split; try lra; try lia.
      * exists (f + 1)%Z. rewrite inject_Z_plus. change (inject_Z 1) with 1.
        repeat split; try lra; try lia.
Qed.

(** [round(x, 2)] keeps the order and is off by half a hundredth at most. *)
Lemma round2_mono (x y : Q) : x <= y -> round2 x <= round2 y.
Proof.
  intros Hxy.
  destruct (round2_hundredths x) as (kx & -> & _ & Fx & Lx & Ux & Ex).
  destruct (round2_hundredths y) as (ky & -> & _ & Fy & Ly & Uy & Ey).
  assert (Qfloor (x * 100) <= Qfloor (y * 100))%Z as Hfloor.
  { apply Qfloor_resp_le. lra. }
  assert (kx <= ky)%Z as Hk.
  { destruct (Z.eq_dec (Qfloor (x * 100)) (Qfloor (y * 100))) as [Heq|Hne]; [|lia].
    rewrite <- Heq in *.
    set (f := Qfloor (x * 100)) in *.
    destruct (Qlt_le_dec (x * 100 - inject_Z f) (1#2)) as [Hx|Hx].
    { rewrite (Lx Hx). lia. }
    destruct (Qlt_le_dec (1#2) (x * 100 - inject_Z f)) as [Hx'|Hx'].
    { rewrite (Ux Hx'), Uy; [lia|lra]. }
    assert (x * 100 - inject_Z f == 1#2) as Hhalf by lra.
    destruct (Qlt_le_dec (1#2) (y * 100 - inject_Z f)) as [Hy|Hy].
    { rewrite (Uy Hy). lia. }
    rewrite (Ex Hhalf), Ey; [lia|lra]. }
  rewrite Zle_Qle in Hk. unfold Qdiv. apply Qmult_le_compat_r; [done|discriminate].
Qed.

Lemma round2_lower (x : Q) : x - (1#200) <= round2 x.
Proof.
  destruct (round2_hundredths x) as (k & -> & [Hlo _] & _).
  unfold Qdiv. change (/ 100) with (1#100). lra.
Qed.

Lemma _adjust_by_context_raises (s : Q) (context : pydict) :
  0 <= s <= 1 -> s <= _adjust_by_context s context.
Proof.
  intros Hs. unfold _adjust_by_context.
  set (s1 := if flag (lit "user_marked_sensitive") context then py_max s 0.9 else s).
  assert (s <= s1 /\ 0 <= s1 <= 1) as (Hs1 & Hb1).
  { unfold s1. destruct (flag (lit "user_marked_sensitive") context); [|lra].
    pose proof (py_max_ge_l s 0.9). pose proof (py_max_le s 0.9 1). lra. }
  clearbody s1.
  set (s2 := if flag (lit "is_admin") context then py_min (s1 * 1.1) 1.0 else s1).
  assert (s1 <= s2 /\ 0 <= s2 <= 1) as (Hs2 & Hb2).
  { unfold s2. destruct (flag (lit "is_admin") context); [|lra].
    pose proof (py_min_le_r (s1 * 1.1) 1.0).
    pose proof (py_min_ge (s1 * 1.1) 1.0 s1). lra. }
  clearbody s2.
  destruct (is_str _ _); [|lra].
  pose proof (py_min_ge (s2 * 1.15) 1.0 s2). lra.
Qed.

(** A context that marks the content as sensitive lifts the score to 0.9
    at least. *)
Lemma _adjust_by_context_marked (s : Q) (context : pydict) :
  flag (lit "user_marked_sensitive") context = true ->
  0.9 <= _adjust_by_context s context.
Proof.
  intros Hmark. unfold _adjust_by_context. rewrite Hmark.
  pose proof (py_max_ge_r s 0.9) as Hs1.
  set (s1 := py_max s 0.9) in *. clearbody s1.
  set (s2 := if flag (lit "is_admin") context then py_min (s1 * 1.1) 1.0 else s1).
  assert (0.9 <= s2) as Hs2.
  { unfold s2. destruct (flag (lit "is_admin") context); [|done].
    apply py_min_ge; lra. }
  clearbody s2.
  destruct (is_str _ _); [|done]. apply py_min_ge; lra.
Qed.

(** ** The decision *)

Lemma _make_decision_score (engine : DynamicModeEngine) (s : Q) (an : analysis)
    (context : option pydict) :
  sensitivity_score (_make_decision engine s an context) = s.
Proof.
  unfold _make_decision.
  destruct (Qle_bool (local_threshold engine) s); [done|].
  by destruct (Qle_bool s (cloud_threshold engine)).
Qed.

Lemma _make_decision_local (engine : DynamicModeEngine) (s : Q) (an : analysis)
    (context : option pydict) :
  local_threshold engine <= s ->
  mode (_make_decision engine s an context) = LOCAL_ONLY /\
  requires_confirmation (_make_decision engine s an context) = true.
Proof.
  intros Hs. apply Qle_bool_iff in Hs. unfold _make_decision. by rewrite Hs.
Qed.

(** A higher score never gives a less restrictive mode, and never drops
    the confirmation, whatever the thresholds. *)
Lemma _make_decision_mono (engine : DynamicModeEngine) (s1 s2 : Q)
    (an1 an2 : analysis) (c1 c2 : option pydict) :
  s1 <= s2 ->
  (restrictiveness (mode (_make_decision engine s1 an1 c1)) <=
   restrictiveness (mode (_make_decision engine s2 an2 c2)))%nat /\
  (requires_confirmation (_make_decision engine s1 an1 c1) = true ->
   requires_confirmation (_make_decision engine s2 an2 c2) = true).
Proof.
  intros Hs. unfold _make_decision.
  destruct (Qle_bool (local_threshold engine) s2) eqn:Hl2.
  { cbn. split; [|done].
    destruct (Qle_bool (local_threshold engine) s1); [done|].
    destruct (Qle_bool s1 (cloud_threshold engine)); cbn; lia. }
  assert (Qle_bool (local_threshold engine) s1 = false) as Hl1.
  { apply not_true_iff_false. rewrite Qle_bool_iff. intros Hle.
    apply not_true_iff_false in Hl2. apply Hl2, Qle_bool_iff. lra. }
  rewrite Hl1.
  destruct (Qle_bool s2 (cloud_threshold engine)) eqn:Hc2.
  { assert (Qle_bool s1 (cloud_threshold engine) = true) as ->.
    { apply Qle_bool_iff. apply Qle_bool_iff in Hc2. lra. }
    done. }
  destruct (Qle_bool s1 (cloud_threshold engine)) eqn:Hc1; cbn.
  { split; [lia|done]. }
  split; [lia|]. rewrite !negb_true_iff. intros H1.
  apply not_true_iff_false. apply not_true_iff_false in H1.
  rewrite Qle_bool_iff in *. lra.
Qed.

(** An ASCII code point of a text has its converted form in the converted
    text. *)
Lemma case_map_keeps_ascii asc uni (s : pystr) (c : N) :
  c ∈ s -> is_ascii c = true -> asc c ∈ case_map asc uni s.
Proof.
  revert uni. induction s as [|x s IH]; intros uni Hc Ha.
  - by apply elem_of_nil in Hc.
  - change (x :: s) with ([x] ++ s). rewrite PyFacts.case_map_app.
    apply elem_of_app. apply elem_of_cons in Hc as [->|Hc].
    + left. unfold case_map. cbn. rewrite Ha. apply list_elem_of_here.
    + right. by apply IH.
Qed.

Section EngineFacts.
Context `{UnicodeTables} `{Regex} `{StrHash}.

(** A decision of [decide] when no override applies and no hook is
    registered. *)
Lemma decide_by_score (engine : DynamicModeEngine) (content : pystr)
    (user_id : option pystr) (context : option pydict) :
  _check_override engine content user_id = None ->
  _decision_hooks engine = [] ->
  decide engine content user_id context =
  _make_decision engine (a_score (analyze (analyzer engine) content context))
    (analyze (analyzer engine) content context) context.
Proof. intros Ho Hh. unfold decide. by rewrite Ho, Hh. Qed.

Lemma matching_scores (an : SensitivityAnalyzer) (content : pystr) :
  Forall (fun r => 0 <= score r <= 1) (rules an) ->
  Forall (fun r => 0 <= score r <= 1) (matching an content).
Proof.
  intros Hrules. unfold matching. rewrite Forall_forall in Hrules |- *.
  intros r Hr. apply Hrules. apply list_elem_of_In in Hr.
  apply filter_In in Hr as [Hr _]. by apply list_elem_of_In.
Qed.

(** [decide(content, user_id, context)] against [decide(content, user_id)]:
    on an engine without hooks whose rules score in [0, 1], handing a
    context over never lowers the score and never relaxes the decision: the
    mode is at least as restrictive and a confirmation that was required
    stays required. *)
Theorem context_never_relaxes_decision (engine : DynamicModeEngine)
    (content : pystr) (user_id : option pystr) (context : pydict) :
  Forall (fun r => 0 <= score r <= 1) (rules (analyzer engine)) ->
  _decision_hooks engine = [] ->
  let bare := decide engine content user_id None in
  let informed := decide engine content user_id (Some context) in
  a_score (analyze (analyzer engine) content None) <=
    a_score (analyze (analyzer engine) content (Some context)) /\
  matched_rules (analyze (analyzer engine) content (Some context)) =
    matched_rules (analyze (analyzer engine) content None) /\
  (restrictiveness (mode bare) <= restrictiveness (mode informed))%nat /\
  (requires_confirmation bare = true -> requires_confirmation informed = true).
Proof.
  intros Hrules Hhooks bare informed.
  assert (a_score (analyze (analyzer engine) content None) <=
          a_score (analyze (analyzer engine) content (Some context))) as Hscore.
  { unfold analyze. cbn [a_score]. apply round2_mono.
    destruct context as [|item ctx]; [lra|].
    apply _adjust_by_context_raises, base_score_unit.
    by apply matching_scores. }
  split; [done|]. split; [done|].
  unfold bare, informed, decide.
  destruct (_check_override engine content user_id) as [override|]; [done|].
  rewrite Hhooks. cbn [first_hook_decision].
  by apply _make_decision_mono.
Qed.

(** A context in which [user_marked_sensitive] is true lifts the score to
    0.9 at least; with a [local_threshold] of 0.9 or less (the default is
    0.8), no override and no hook, the decision is LOCAL_ONLY with
    confirmation, whatever the content. *)
Theorem marked_sensitive_is_kept_local (engine : DynamicModeEngine)
    (content : pystr) (user_id : option pystr) (context : pydict) :
  flag (lit "user_marked_sensitive") context = true ->
  0.9 <= a_score (analyze (analyzer engine) content (Some context)) /\
  (local_threshold engine <= 0.9 ->
   _check_override engine content user_id = None ->
   _decision_hooks engine = [] ->
   mode (decide engine content user_id (Some context)) = LOCAL_ONLY /\
   requires_confirmation (decide engine content user_id (Some context)) = true).
Proof.
  intros Hmark.
  assert (0.9 <= a_score (analyze (analyzer engine) content (Some context)))
    as Hscore.
  { unfold analyze. cbn [a_score].
    destruct context as [|item ctx]; [done|].
    assert (0.9 <= round2 0.9) as Hfix by (apply Qle_bool_iff; by vm_compute).
    apply (Qle_trans _ (round2 0.9)); [exact Hfix|]. apply round2_mono.
    by apply _adjust_by_context_marked. }
  split; [done|]. intros Hthr Ho Hh.
  rewrite decide_by_score by done. apply _make_decision_local. lra.
Qed.

(** Content that a rule scoring [local_threshold] or more matches is kept
    local: with the rules scoring in [0, 1], no override and no hook, the
    decision is LOCAL_ONLY with confirmation, whatever else matches and
    whatever the context. *)
Theorem matching_rule_forces_local (engine : DynamicModeEngine) (content : pystr)
    (user_id : option pystr) (context : option pydict) (rule : SensitivityRule) :
  Forall (fun r => 0 <= score r <= 1) (rules (analyzer engine)) ->
  rule ∈ rules (analyzer engine) ->
  _matches content rule = true ->
  local_threshold engine <= score rule ->
  _check_override engine content user_id = None ->
  _decision_hooks engine = [] ->
  let d := decide engine content user_id context in
  mode d = LOCAL_ONLY /\ requires_confirmation d = true /\
  local_threshold engine <= sensitivity_score d.
Proof.
  intros Hrules Hrule Hm Hthr Ho Hh d.
  set (matched := matching (analyzer engine) content).
  assert (rule ∈ matched) as Hin.
  { apply list_elem_of_In, filter_In. split; [by apply list_elem_of_In|done]. }
  assert (0 <= score rule <= 1) as Hr.
  { rewrite Forall_forall in Hrules. by apply Hrules. }
  pose proof (base_score_unit matched (matching_scores _ content Hrules)) as Hunit.
  assert (score rule + 0.05 <= base_score matched \/ base_score matched == 1)
    as Hbase.
  { destruct (base_score_formula matched) as [_ Hf].
    destruct Hf as (top & Htop & Hmax & Heq).
    { intros Hnil. rewrite Hnil in Hin. by apply elem_of_nil in Hin. }
    specialize (Hmax rule Hin).
    assert (1 <= inject_Z (Z.of_nat (length matched))) as Hlen.
    { change 1 with (inject_Z 1). rewrite <- Zle_Qle.
      destruct matched; [by apply elem_of_nil in Hin|cbn; lia]. }
    rewrite Heq.
    destruct (Q.min_spec 1.0 (score top +
                Qmin (0.05 * inject_Z (Z.of_nat (length matched))) 0.15))
      as [[_ ->]|[Hle ->]]; [by right|left].
    destruct (Q.min_spec (0.05 * inject_Z (Z.of_nat (length matched))) 0.15)
      as [[_ ->]|[_ ->]]; nra. }
  set (x := match context with
            | Some ((_ :: _) as ctx) => _adjust_by_context (base_score matched) ctx
            | _ => base_score matched
            end).
  assert (base_score matched <= x /\ x <= 1) as [Hx Hx1].
  { unfold x. destruct context as [[|item ctx]|]; try lra.
    split; [by apply _adjust_by_context_raises|].
    by apply _adjust_by_context_unit. }
  assert (local_threshold engine <= round2 x) as Hscore.
  { destruct Hbase as [Hbase|Hbase].
    - pose proof (round2_lower x). lra.
    - assert (1 <= round2 1) as Hfix by (apply Qle_bool_iff; by vm_compute).
      pose proof (round2_mono 1 x). lra. }
  assert (d = _make_decision engine (round2 x)
                (analyze (analyzer engine) content context) context) as ->.
  { unfold d. by rewrite decide_by_score. }
  destruct (_make_decision_local engine (round2 x)
              (analyze (analyzer engine) content context) context Hscore) as [Hmode Hconf].
  by rewrite _make_decision_score.
Qed.

(** An override registered for a user decides for that user before anything
    else is looked at: whatever the content, its score, the context and the
    hooks, [decide] returns the overriding mode with confidence 1.0, a
    sensitivity score of 0.0 and no confirmation (no override being
    registered for the content itself).  The decisions for every other user
    stay as they were. *)
Theorem user_override_decides (engine : DynamicModeEngine) (uid : pystr)
    (m : ExecutionMode) (content : pystr) (context : option pydict) :
  uid <> [] ->
  _user_overrides engine !! inl (py_hash content mod 10000)%Z = None ->
  let engine' := set_override engine (inr (lit "user:" ++ uid)) m in
  decide engine' content (Some uid) context =
    {| mode := m; confidence := 1.0; reason := UserOverride uid;
       sensitivity_score := 0.0; requires_confirmation := false;
       suggested_actions := [] |} /\
  (forall other content' context',
     other <> Some uid ->
     decide engine' content' other context' = decide engine content' other context').
Proof.
  intros Hne Hcontent engine'. split.
  - unfold decide, _check_override, engine', set_override.
    cbn [_user_overrides].
    rewrite lookup_insert_ne by done. rewrite Hcontent.
    destruct uid as [|a uid]; [done|]. by rewrite lookup_insert_eq.
  - intros other content' context' Hother.
    assert (_check_override engine' content' other =
            _check_override engine content' other) as Hsame.
    { unfold _check_override, engine', set_override. cbn [_user_overrides].
      rewrite lookup_insert_ne by done.
      destruct (_user_overrides engine !! inl (py_hash content' mod 10000)%Z);
        [done|].
      destruct other as [[|a other]|]; try done.
      rewrite lookup_insert_ne; [done|].
      intros [= Heq]. apply Hother. by rewrite Heq. }
    unfold decide. by rewrite Hsame.
Qed.

(** The default engine, asked without a context: content that none of the
    default rules matches scores 0.1 and goes to the cloud sandbox without
    confirmation; content that some default rule matches scores above 0.5,
    never goes to the cloud sandbox and always requires confirmation. *)
Theorem default_engine_cloud_iff_no_match (content : pystr) (user_id : option pystr) :
  let d := decide new_engine content user_id None in
  let matched := matching (analyzer new_engine) content in
  (matched = [] ->
   mode d = CLOUD_SANDBOX /\ sensitivity_score d == 0.1 /\
   requires_confirmation d = false) /\
  (matched <> [] ->
   mode d <> CLOUD_SANDBOX /\ 0.5 < sensitivity_score d /\
   requires_confirmation d = true).
Proof.
  intros d matched.
  assert (d = _make_decision new_engine (round2 (base_score matched))
                (analyze (analyzer new_engine) content None) None) as ->.
  { unfold d. rewrite decide_by_score; [done| |done].
    unfold _check_override. cbn [new_engine _user_overrides].
    rewrite lookup_empty. by destruct user_id as [[|a uid]|]. }
  split.
  - intros ->. change (base_score []) with 0.1.
    unfold _make_decision. cbn [new_engine local_threshold cloud_threshold].
    replace (Qle_bool 0.8 (round2 0.1)) with false by (by vm_compute).
    replace (Qle_bool (round2 0.1) 0.3) with true by (by vm_compute).
    cbn. split; [done|]. split; [by vm_compute|done].
  - intros Hne.
    assert (Forall (fun r => 0.5 <= score r <= 1) DEFAULT_RULES) as Hdefault.
    { repeat constructor; vm_compute; discriminate. }
    assert (Forall (fun r => 0.5 <= score r <= 1) matched) as Hmatched.
    { rewrite Forall_forall in Hdefault |- *. intros r Hr. apply Hdefault.
      apply list_elem_of_In, filter_In in Hr as [Hr _]. by apply list_elem_of_In. }
    assert (0.55 <= base_score matched) as Hbase.
    { destruct (base_score_formula matched) as [_ Hf].
      destruct (Hf Hne) as (top & Htop & _ & Heq).
      rewrite Forall_forall in Hmatched. specialize (Hmatched top Htop).
      assert (1 <= inject_Z (Z.of_nat (length matched))) as Hlen.
      { change 1 with (inject_Z 1). rewrite <- Zle_Qle.
        destruct matched; [done|cbn; lia]. }
      rewrite Heq.
      destruct (Q.min_spec 1.0 (score top +
                  Qmin (0.05 * inject_Z (Z.of_nat (length matched))) 0.15))
        as [[_ ->]|[Hle ->]]; [lra|].
      destruct (Q.min_spec (0.05 * inject_Z (Z.of_nat (length matched))) 0.15)
        as [[_ ->]|[_ ->]]; nra. }
    assert (0.55 <= round2 (base_score matched)) as Hscore.
    { assert (0.55 <= round2 0.55) as Hfix by (apply Qle_bool_iff; by vm_compute).
      apply (Qle_trans _ (round2 0.55)); [done|]. by apply round2_mono. }
    set (s := round2 (base_score matched)) in *. clearbody s.
    unfold _make_decision. cbn [new_engine local_threshold cloud_threshold].
    destruct (Qle_bool 0.8 s) eqn:Hl; cbn.
    { split; [done|]. split; [lra|done]. }
    assert (Qle_bool s 0.3 = false) as ->.
    { apply not_true_iff_false. rewrite Qle_bool_iff. lra. }
    cbn. split; [done|]. split; [lra|].
    apply negb_true_iff, not_true_iff_false. rewrite Qle_bool_iff. lra.
Qed.

(** A rule that is not a regular expression is looked for as it stands in
    lower case, in the content as it stands: content without a lower-case
    ASCII letter (a text in capitals, say) is matched by no keyword rule
    whose pattern has an ASCII letter, the keyword's own spelling in
    capitals included. *)
Theorem keyword_rule_is_case_sensitive (rule : SensitivityRule) (content : pystr)
    (c : N) :
  is_regex rule = false ->
  c ∈ pattern rule ->
  (65 <= c <= 90 \/ 97 <= c <= 122)%N ->
  Forall (fun x => ~ (97 <= x <= 122)%N) content ->
  _matches content rule = false.
Proof.
  intros Hkw Hc Hletter Hcaps. unfold _matches. rewrite Hkw.
  apply not_true_iff_false. intros Hin.
  apply PyFacts.contains_inv in Hin as (pre & post & ->).
  assert (ascii_lower c ∈ lower (pattern rule)) as Hlow.
  { apply case_map_keeps_ascii; [done|]. apply N.ltb_lt. lia. }
  assert (97 <= ascii_lower c <= 122)%N as Hrange.
  { unfold ascii_lower.
    destruct ((65 <=? c)%N && (c <=? 90)%N) eqn:Hup.
    - apply andb_true_iff in Hup as [?%N.leb_le ?%N.leb_le]. lia.
    - destruct Hletter as [Hletter|Hletter]; [|done].
      apply andb_false_iff in Hup as [?%N.leb_gt|?%N.leb_gt]; lia. }
  rewrite !Forall_app in Hcaps. destruct Hcaps as (_ & Hcaps & _).
  rewrite Forall_forall in Hcaps. by apply (Hcaps _ Hlow).
Qed.

End EngineFacts.

(** The three modes are three bands of the score: a higher score never
    gives a less restrictive mode and never drops a confirmation that a
    lower score requires, whatever the thresholds of the engine are and
    however they are ordered. *)
Theorem higher_score_never_relaxes_mode (engine : DynamicModeEngine) (s1 s2 : Q)
    (an1 an2 : analysis) (c1 c2 : option pydict) :
  s1 <= s2 ->
  (restrictiveness (mode (_make_decision engine s1 an1 c1)) <=
   restrictiveness (mode (_make_decision engine s2 an2 c2)))%nat /\
  (requires_confirmation (_make_decision engine s1 an1 c1) = true ->
   requires_confirmation (_make_decision engine s2 an2 c2) = true) /\
  sensitivity_score (_make_decision engine s1 an1 c1) = s1 /\
  sensitivity_score (_make_decision engine s2 an2 c2) = s2.
Proof.
  intros Hs. destruct (_make_decision_mono engine s1 s2 an1 an2 c1 c2 Hs) as [Hm Hc].
  by rewrite !_make_decision_score.
Qed.

(** ** The engine of the examples *)

(** A regular-expression engine that finds nothing, and a constant string
    hash: stand-ins to run the examples with, whose one matching rule is a
    literal keyword. *)
Definition no_regex : Regex := fun _ _ => false.
Definition zero_hash : StrHash := fun _ => 0%Z.

Definition password_rule : SensitivityRule :=
  {| pattern := lit "password"; score := 0.95; category := lit "credential";
     is_regex := false |}.

Definition demo_engine : DynamicModeEngine :=
  {| analyzer := add_rule (new_analyzer None) password_rule;
     local_threshold := 0.8;
     cloud_threshold := 0.3;
     default_mode := HYBRID;
     _user_overrides := ∅;
     _decision_hooks := [fun _ => None] |}.

Definition demo_content : pystr := lit "my password is secret123".

(** On that engine the content scores 1.0 and is kept local. *)
Example decide_password_local :
  let d := @decide ascii_only_tables no_regex zero_hash demo_engine
             demo_content None None in
  mode d = LOCAL_ONLY /\ sensitivity_score d == 1 /\
  requires_confirmation d = true.
Proof. vm_compute. repeat split; discriminate. Qed.


(** The statement of [default_rule_decides] at that engine. *)
Lemma default_rule_decides_witness :
  let an := @analyze ascii_only_tables no_regex (analyzer demo_engine)
              demo_content None in
  let s := a_score an in
  let d := @decide ascii_only_tables no_regex zero_hash demo_engine
             demo_content (Some (lit "user-001")) None in
  sensitivity_score d = s /\
  (local_threshold demo_engine <= s ->
     mode d = LOCAL_ONLY /\ confidence d = 0.95 /\
     requires_confirmation d = true) /\
  (~ local_threshold demo_engine <= s -> s <= cloud_threshold demo_engine ->
     mode d = CLOUD_SANDBOX /\ confidence d = 0.85 /\
     requires_confirmation d = false) /\
  (~ local_threshold demo_engine <= s -> ~ s <= cloud_threshold demo_engine ->
     mode d = HYBRID /\ confidence d = 0.8 /\
     (requires_confirmation d = true <-> 0.5 < s)) /\
  (cloud_threshold demo_engine < local_threshold demo_engine ->
     s <= cloud_threshold demo_engine ->
     mode d = CLOUD_SANDBOX /\ confidence d = 0.85 /\
     requires_confirmation d = false).
Proof.
  apply (@default_rule_decides ascii_only_tables no_regex zero_hash demo_engine
           demo_content (Some (lit "user-001")) None).
  - vm_compute. reflexivity.
  - intros uid _. vm_compute. reflexivity.
  - repeat constructor.
Defined.

(** An engine with the keyword rule added to the default ones and no
    hook. *)
Definition keyword_engine : DynamicModeEngine :=
  {| analyzer := add_rule (new_analyzer None) password_rule;
     local_threshold := 0.8;
     cloud_threshold := 0.3;
     default_mode := HYBRID;
     _user_overrides := ∅;
     _decision_hooks := [] |}.

Definition admin_context : pydict := [(lit "is_admin", PyBool true)].

Definition marked_context : pydict := [(lit "user_marked_sensitive", PyBool true)].

(** The keyword rule does not see its keyword in capitals, and the content
    goes to the cloud sandbox. *)
Example capitals_escape_keyword_rule :
  let d := @decide ascii_only_tables no_regex zero_hash keyword_engine
             (lit "MY PASSWORD IS SECRET123") None None in
  mode d = CLOUD_SANDBOX /\ requires_confirmation d = false.
Proof. vm_compute. done. Qed.

(** The statement of [context_never_relaxes_decision] at that engine. *)
Lemma context_never_relaxes_decision_witness :
  let bare := @decide ascii_only_tables no_regex zero_hash keyword_engine
                demo_content None None in
  let informed := @decide ascii_only_tables no_regex zero_hash keyword_engine
                    demo_content None (Some admin_context) in
  a_score (@analyze ascii_only_tables no_regex (analyzer keyword_engine)
             demo_content None) <=
    a_score (@analyze ascii_only_tables no_regex (analyzer keyword_engine)
               demo_content (Some admin_context)) /\
  matched_rules (@analyze ascii_only_tables no_regex (analyzer keyword_engine)
                   demo_content (Some admin_context)) =
    matched_rules (@analyze ascii_only_tables no_regex (analyzer keyword_engine)
                     demo_content None) /\
  (restrictiveness (mode bare) <= restrictiveness (mode informed))%nat /\
  (requires_confirmation bare = true -> requires_confirmation informed = true).
Proof.
  apply (@context_never_relaxes_decision ascii_only_tables no_regex zero_hash
           keyword_engine demo_content None admin_context).
  - repeat constructor; vm_compute; discriminate.
  - reflexivity.
Defined.

(** The statement of [marked_sensitive_is_kept_local] at the default
    engine and a harmless content. *)
Lemma marked_sensitive_is_kept_local_witness :
  0.9 <= a_score (@analyze ascii_only_tables no_regex (analyzer new_engine)
                    (lit "what is the weather") (Some marked_context)) /\
  (local_threshold new_engine <= 0.9 ->
   @_check_override zero_hash new_engine (lit "what is the weather") None = None ->
   _decision_hooks new_engine = [] ->
   mode (@decide ascii_only_tables no_regex zero_hash new_engine
           (lit "what is the weather") None (Some marked_context)) = LOCAL_ONLY /\
   requires_confirmation
     (@decide ascii_only_tables no_regex zero_hash new_engine
        (lit "what is the weather") None (Some marked_context)) = true).
Proof.
  apply (@marked_sensitive_is_kept_local ascii_only_tables no_regex zero_hash
           new_engine (lit "what is the weather") None marked_context).
  reflexivity.
Defined.

(** The statement of [matching_rule_forces_local] at the keyword rule. *)
Lemma matching_rule_forces_local_witness :
  let d := @decide ascii_only_tables no_regex zero_hash keyword_engine
             demo_content None None in
  mode d = LOCAL_ONLY /\ requires_confirmation d = true /\
  local_threshold keyword_engine <= sensitivity_score d.
Proof.
  apply (@matching_rule_forces_local ascii_only_tables no_regex zero_hash
           keyword_engine demo_content None None password_rule).
  - repeat constructor; vm_compute; discriminate.
  - apply elem_of_app. right. apply list_elem_of_here.
  - vm_compute. reflexivity.
  - vm_compute. discriminate.
  - vm_compute. reflexivity.
  - reflexivity.
Defined.

(** The statement of [user_override_decides]: the user sends everything to
    the cloud sandbox, the password included. *)
Lemma user_override_decides_witness :
  let engine' := set_override demo_engine (inr (lit "user:" ++ lit "user-001"))
                   CLOUD_SANDBOX in
  @decide ascii_only_tables no_regex zero_hash engine' demo_content
    (Some (lit "user-001")) None =
    {| mode := CLOUD_SANDBOX; confidence := 1.0;
       reason := UserOverride (lit "user-001");
       sensitivity_score := 0.0; requires_confirmation := false;
       suggested_actions := [] |} /\
  (forall other content' context',
     other <> Some (lit "user-001") ->
     @decide ascii_only_tables no_regex zero_hash engine' content' other context' =
     @decide ascii_only_tables no_regex zero_hash demo_engine content' other context').
Proof.
  apply (@user_override_decides ascii_only_tables no_regex zero_hash demo_engine
           (lit "user-001") CLOUD_SANDBOX demo_content None).
  - discriminate.
  - vm_compute. reflexivity.
Defined.

(** The statement of [keyword_rule_is_case_sensitive] at the keyword rule
    and its keyword in capitals. *)
Lemma keyword_rule_is_case_sensitive_witness :
  @_matches ascii_only_tables no_regex (lit "MY PASSWORD IS SECRET123")
    password_rule = false.
Proof.
  apply (@keyword_rule_is_case_sensitive ascii_only_tables no_regex password_rule
           (lit "MY PASSWORD IS SECRET123") 112%N).
  - reflexivity.
  - apply list_elem_of_here.
  - right. lia.
  - refine (bool_decide_unpack _ _). vm_compute. exact I.
Defined.

(** The statement of [higher_score_never_relaxes_mode] at the scores 0.2
    and 0.9. *)
Lemma higher_score_never_relaxes_mode_witness :
  let an := @analyze ascii_only_tables no_regex (analyzer demo_engine)
              demo_content None in
  (restrictiveness (mode (_make_decision demo_engine 0.2 an None)) <=
   restrictiveness (mode (_make_decision demo_engine 0.9 an None)))%nat /\
  (requires_confirmation (_make_decision demo_engine 0.2 an None) = true ->
   requires_confirmation (_make_decision demo_engine 0.9 an None) = true) /\
  sensitivity_score (_make_decision demo_engine 0.2 an None) = 0.2 /\
  sensitivity_score (_make_decision demo_engine 0.9 an None) = 0.9.
Proof.
  apply (higher_score_never_relaxes_mode demo_engine 0.2 0.9).
  vm_compute. discriminate.
Defined.

End ModeEngine.

(* ===================================================================== *)
(** * The execution core (soul_core.py)                                   *)
(* ===================================================================== *)

Module Core.
Import Py.

(** ** ExecutionContext and ExecutionResult *)

Inductive ExecutionStage :=
| INIT | ANALYZING | DECIDING | SECURITY_CHECK | EXECUTING | OVERWRITING
| COMPLETED | FAILED.

#[global] Instance ExecutionStage_eq_dec : EqDecision ExecutionStage.
Proof. solve_decision. Defined.

Record ExecutionContext := {
  request_id : pystr;
  session_id : pystr;
  user_id : option pystr;
  tenant_id : option pystr;
  input_content : pystr;
  input_metadata : pydict;
  granted_permissions : list pystr;
  user_preferences : pydict;
  start_time : Q;
  stage : ExecutionStage;
}.

(** [context.stage = s]. *)
Definition set_stage (s : ExecutionStage) (context : ExecutionContext)
    : ExecutionContext :=
  {| request_id := request_id context; session_id := session_id context;
     user_id := user_id context; tenant_id := tenant_id context;
     input_content := input_content context;
     input_metadata := input_metadata context;
     granted_permissions := granted_permissions context;
     user_preferences := user_preferences context;
     start_time := start_time context; stage := s |}.

(** The field [request_id] of the result is [result_request_id] here. *)
Record ExecutionResult := {
  success : bool;
  result_request_id : pystr;
  mode : ModeEngine.ExecutionMode;
  mode_decision : option ModeEngine.ModeDecision;
  output : pystr;
  output_metadata : pydict;
  security_report : option Security.SecurityReport;
  overwrite_stats : option pydict;
  total_time_ms : Q;
  stage_timings : list (pystr * Q);
  error : option pystr;
  error_stage : option ExecutionStage;
}.

(** ** SoulCore *)

(** An executor: an awaitable of the context and the decision that gives
    the raw output, a text, or raises. *)
Definition executor : Type :=
  ExecutionContext -> ModeEngine.ModeDecision -> pyresult pystr.

(** An entry of [_stats["by_mode"]]: the keys [total] and [success]. *)
Record mode_stats := {
  ms_total : nat;
  ms_success : nat;
}.

(** [_stats]; [by_mode] is keyed by [mode.value], in insertion order. *)
Record core_stats := {
  total_executions : nat;
  successful : nat;
  failed : nat;
  by_mode : list (pystr * mode_stats);
}.

Record SoulCore := {
  mode_engine : ModeEngine.DynamicModeEngine;
  security_system : Security.LayeredSecuritySystem;
  overwriter : Overwrite.ZeroHallucinationOverwriter;
  audit_chain : option Audit.AuditChain;
  _executors : ModeEngine.ExecutionMode -> option executor;
  _stats : core_stats;
}.

(** The entry objects of the audit chain live in a store of their own: the
    objects by address, and how many there are.  A new object takes the
    next address. *)
Record memory := {
  objects : nat -> Audit.AuditEntry;
  allocated : nat;
}.

(** [mode.value]. *)
Definition ExecutionMode_value (m : ModeEngine.ExecutionMode) : pystr :=
  match m with
  | ModeEngine.LOCAL_ONLY => lit "local_only"
  | ModeEngine.HYBRID => lit "hybrid"
  | ModeEngine.CLOUD_SANDBOX => lit "cloud_sandbox"
  end.

(** [phase.name]. *)
Definition SecurityPhase_name (ph : Security.SecurityPhase) : pystr :=
  match ph with
  | Security.ENTRY => lit "ENTRY"
  | Security.CONTENT => lit "CONTENT"
  | Security.BEHAVIOR => lit "BEHAVIOR"
  | Security.EXECUTION => lit "EXECUTION"
  end.

Section Construction.
Context `{UnicodeTables} `{Rendering}.

(** [SoulCore(local_threshold, cloud_threshold, enable_audit,
    fail_fast_security)].  [LayeredSecuritySystem(fail_fast)] registers its
    default checks, the authentication check first; the seven that follow
    it are [default_checks].  [ZeroHallucinationOverwriter()] registers the
    SQL runner, which reports [runner_time_ms] as its execution time. *)
Definition new_core (local_threshold cloud_threshold : Q)
    (enable_audit fail_fast_security : bool)
    (default_checks : list Security.SecurityCheck) (runner_time_ms : Q)
    : SoulCore :=
  {| mode_engine :=
       {| ModeEngine.analyzer := ModeEngine.new_analyzer None;
          ModeEngine.local_threshold := local_threshold;
          ModeEngine.cloud_threshold := cloud_threshold;
          ModeEngine.default_mode := ModeEngine.HYBRID;
          ModeEngine._user_overrides := ∅;
          ModeEngine._decision_hooks := [] |};
     security_system :=
       {| Security.checks := Security.AuthenticationCheck :: default_checks;
          Security.fail_fast := fail_fast_security |};
     overwriter :=
       {| Overwrite.data_sources := ∅;
          Overwrite.rules := ∅;
          Overwrite.query_runners := fun t =>
            if decide (t = Overwrite.SQL)
            then Some (Overwrite.SQLQueryRunner_execute runner_time_ms)
            else None |};
     audit_chain := if enable_audit then Some (Audit.new_chain (lit "default"))
                    else None;
     _executors := fun _ => None;
     _stats := {| total_executions := 0; successful := 0; failed := 0;
                  by_mode := [] |} |}.

End Construction.

Definition register_executor (core : SoulCore) (m : ModeEngine.ExecutionMode)
    (ex : executor) : SoulCore :=
  {| mode_engine := mode_engine core;
     security_system := security_system core;
     overwriter := overwriter core;
     audit_chain := audit_chain core;
     _executors := <[m := Some ex]> (_executors core);
     _stats := _stats core |}.

Definition register_data_source (core : SoulCore) (source : Overwrite.DataSource)
    : SoulCore :=
  {| mode_engine := mode_engine core;
     security_system := security_system core;
     overwriter := Overwrite.register_data_source (overwriter core) source;
     audit_chain := audit_chain core;
     _executors := _executors core;
     _stats := _stats core |}.

Definition register_overwrite_rule (core : SoulCore) (rule : Overwrite.OverwriteRule)
    : SoulCore :=
  {| mode_engine := mode_engine core;
     security_system := security_system core;
     overwriter := Overwrite.register_rule (overwriter core) rule;
     audit_chain := audit_chain core;
     _executors := _executors core;
     _stats := _stats core |}.

(** [_get_required_permissions(mode)]. *)
Definition _get_required_permissions (m : ModeEngine.ExecutionMode) : list pystr :=
  let base_permissions := [lit "ai:use"] in
  let base_permissions :=
    if bool_decide (m = ModeEngine.CLOUD_SANDBOX)
    then base_permissions ++ [lit "ai:cloud"] else base_permissions in
  let base_permissions :=
    if bool_decide (m = ModeEngine.LOCAL_ONLY)
    then base_permissions ++ [lit "ai:local"] else base_permissions in
  base_permissions.

(** The update of [_stats["by_mode"]]: the entry of the mode is created at
    zero when it is missing, then counted up. *)
Fixpoint count_mode (mode_str : pystr) (ok : bool) (d : list (pystr * mode_stats))
    : list (pystr * mode_stats) :=
  match d with
  | [] => [(mode_str, {| ms_total := 1; ms_success := if ok then 1 else 0 |})]
  | (k, s) :: d' =>
      if decide (mode_str = k)
      then (k, {| ms_total := S (ms_total s);
                  ms_success := if ok then S (ms_success s) else ms_success s |})
           :: d'
      else (k, s) :: count_mode mode_str ok d'
  end.

Definition _update_stats (core : SoulCore) (m : ModeEngine.ExecutionMode)
    (ok : bool) : SoulCore :=
  let st := _stats core in
  {| mode_engine := mode_engine core;
     security_system := security_system core;
     overwriter := overwriter core;
     audit_chain := audit_chain core;
     _executors := _executors core;
     _stats :=
       {| total_executions := S (total_executions st);
          successful := if ok then S (successful st) else successful st;
          failed := if ok then failed st else S (failed st);
          by_mode := count_mode (ExecutionMode_value m) ok (by_mode st) |} |}.

(** What [get_stats] returns: [_stats], the success rate when there was an
    execution, and the statistics of the audit chain when there is one.
    The rate is a float; the model keeps the exact quotient. *)
Record stats_report := {
  sr_stats : core_stats;
  success_rate : option Q;
  audit : option Audit.chain_stats;
}.

Definition get_stats (core : SoulCore) (mem : memory) : stats_report :=
  let st := _stats core in
  {| sr_stats := st;
     success_rate :=
       if (0 <? total_executions st)%nat
       then Some (inject_Z (Z.of_nat (successful st)) /
                  inject_Z (Z.of_nat (total_executions st)))%Q
       else None;
     audit := Audit.get_stats (objects mem) <$> audit_chain core |}.

(** ** _audit *)

(** What [create_entry] draws by itself: [str(uuid.uuid4())] and
    [datetime.utcnow()]. *)
Record stamp := {
  stamp_id : pystr;
  stamp_time : Z;
}.

(** The arguments of one [_audit] call; [details], [decision], [reason] and
    [confidence] are the keyword arguments passed on to [AuditEntry], at the
    defaults of the entry when the call leaves them out. *)
Record audit_call := {
  ac_event_type : Audit.AuditEventType;
  ac_action : pystr;
  ac_description : pystr;
  ac_success : bool;
  ac_level : Audit.AuditLevel;
  ac_details : pydict;
  ac_decision : option pystr;
  ac_reason : option pystr;
  ac_confidence : option Q;
}.

Definition set_audit_chain (core : SoulCore) (chain : Audit.AuditChain) : SoulCore :=
  {| mode_engine := mode_engine core;
     security_system := security_system core;
     overwriter := overwriter core;
     audit_chain := Some chain;
     _executors := _executors core;
     _stats := _stats core |}.

Section Audited.
Context `{Audit.Digest}.

(** [self._audit(...)]: nothing without a chain; with one, [create_entry]
    builds the entry object and adds it. *)
Definition _audit (st : SoulCore * memory) (context : ExecutionContext)
    (call : audit_call) (s : stamp) : SoulCore * memory :=
  let (core, mem) := st in
  match audit_chain core with
  | None => st
  | Some chain =>
      let entry :=
        {| Audit.entry_id := stamp_id s;
           Audit.timestamp := stamp_time s;
           Audit.level := ac_level call;
           Audit.event_type := ac_event_type call;
           Audit.session_id := session_id context;
           Audit.request_id := request_id context;
           Audit.action := ac_action call;
           Audit.description := ac_description call;
           Audit.user_id := user_id context;
           Audit.tenant_id := tenant_id context;
           Audit.details := ac_details call;
           Audit.decision := ac_decision call;
           Audit.reason := ac_reason call;
           Audit.confidence := ac_confidence call;
           Audit.success := ac_success call;
           Audit.error_message := None;
           Audit.duration_ms := None;
           Audit.entry_hash := None;
           Audit.previous_hash := None |} in
      let (h, chain') :=
        Audit.create_entry (objects mem) chain (allocated mem) entry in
      (set_audit_chain core chain',
       {| objects := h; allocated := S (allocated mem) |})
  end.

(** [verify_audit_chain()]. *)
Definition verify_audit_chain (core : SoulCore) (mem : memory) : bool :=
  match audit_chain core with
  | None => true
  | Some chain => Audit.valid (Audit.verify_chain (objects mem) chain)
  end.

End Audited.

(** ** execute *)

(** The six [_audit] calls of [execute]. *)
Inductive audit_site :=
| AtModeDecision | AtSecurityCheck | AtExecutionStart | AtExecutionEnd
| AtDataOverwrite | AtExecutionFailed.

(** What one [execute] reads from outside: the clock, at each
    [time.time()] of the source in turn ([t_end] is the reading of the
    branch that builds the result); the time stamp of the security report;
    the time the overwriter measured for itself, as it rounds it; and the
    id and time of the entry of each [_audit] call. *)
Record readings := {
  t_start : Q;
  t_analyzed : Q;
  t_security_start : Q;
  t_security_end : Q;
  t_execute_start : Q;
  t_execute_end : Q;
  t_overwrite_start : Q;
  t_overwrite_end : Q;
  t_end : Q;
  report_now : pystr;
  overwrite_time_ms : Q;
  entry_stamp : audit_site -> stamp;
}.

(** What [execute] ran besides the checks: the executor of a mode, the
    overwriter on a text. *)
Inductive event :=
| RanExecutor (m : ModeEngine.ExecutionMode)
| RanOverwrite (template : pystr).

(** One [execute]: the result, the core and the entry objects as it leaves
    them, [context.stage] as it leaves it, and what it ran. *)
Record execution := {
  result : ExecutionResult;
  core_after : SoulCore;
  memory_after : memory;
  stage_after : ExecutionStage;
  ran : list event;
}.

(** [f"{x:.2f}"] of a float: the interpreter's. *)
Class FloatFormat := format_2f : Q -> pystr.

(** "選擇執行模式: ", "安全檢查完成: ", "安全檢查未通過（關鍵風險）" *)
Definition msg_mode_chosen : pystr :=
  [36984; 25799; 22519; 34892; 27169; 24335; 58; 32].
Definition msg_security_done : pystr :=
  [23433; 20840; 27298; 26597; 23436; 25104; 58; 32].
Definition msg_security_refused : pystr :=
  [23433; 20840; 27298; 26597; 26410; 36890; 36942; 65288; 38364; 37749; 39080;
   38570; 65289].
(** "未找到模式 " and " 的執行器" *)
Definition msg_no_executor : pystr := [26410; 25214; 21040; 27169; 24335; 32].
Definition msg_executor : pystr := [32; 30340; 22519; 34892; 22120].
(** "開始執行: ", "執行完成", "數據覆寫完成: ", "執行失敗: " *)
Definition msg_execution_start : pystr := [38283; 22987; 22519; 34892; 58; 32].
Definition msg_execution_done : pystr := [22519; 34892; 23436; 25104].
Definition msg_overwrite_done : pystr :=
  [25976; 25818; 35206; 23531; 23436; 25104; 58; 32].
Definition msg_execution_failed : pystr := [22519; 34892; 22833; 25943; 58; 32].

(** [(later - earlier) * 1000]. *)
Definition elapsed_ms (later earlier : Q) : Q := ((later - earlier) * 1000)%Q.

(** [sum(timings.values())]. *)
Definition sum_values (timings : list (pystr * Q)) : Q :=
  foldl (fun acc kv => (acc + kv.2)%Q) 0%Q timings.

(** An optional text as a value: [None] or the text. *)
Definition text_or_none (s : option pystr) : pyval :=
  match s with
  | Some x => PyStr x
  | None => PyNone
  end.

(** An audit call with the defaults of [_audit]: successful, at level
    INFO, no keyword argument. *)
Definition plain_call (event_type : Audit.AuditEventType) (action description : pystr)
    : audit_call :=
  {| ac_event_type := event_type; ac_action := action;
     ac_description := description; ac_success := true;
     ac_level := Audit.INFO; ac_details := []; ac_decision := None;
     ac_reason := None; ac_confidence := None |}.

(** [security_report.phase_summary] as the value kept in the details of
    the audit entry.  Its keys are the members of [SecurityPhase]; they
    stand here under their names. *)
Definition phase_summary_value (ps : list (Security.SecurityPhase * Security.phase_counts))
    : pyval :=
  PyDict (map (fun '(ph, c) =>
                 (SecurityPhase_name ph,
                  PyDict [(lit "total", PyInt (Z.of_nat (Security.ps_total c)));
                          (lit "passed", PyInt (Z.of_nat (Security.ps_passed c)));
                          (lit "failed", PyInt (Z.of_nat (Security.ps_failed c)));
                          (lit "critical",
                           PyInt (Z.of_nat (Security.ps_critical c)))]))
              ps).

Section Execute.
Context `{UnicodeTables} `{Rendering} `{ModeEngine.Regex} `{ModeEngine.StrHash}.
Context `{Audit.Digest} `{FloatFormat}.

(** The text of [decision.reason], by the f-strings of
    dynamic_mode_engine.py. *)
Definition reason_str (r : ModeEngine.decision_reason) : pystr :=
  match r with
  | ModeEngine.ContentOverride =>
      [29992; 25142; 25351; 23450; 27169; 24335; 35206; 23531]
  | ModeEngine.UserOverride uid =>
      [29992; 25142; 32] ++ uid ++ [32; 40664; 35469; 27169; 24335]
  | ModeEngine.AboveLocalThreshold score threshold =>
      [25935; 24863; 24230; 32] ++ format_2f score ++
      [32; 36229; 36942; 26412; 22320; 38334; 20540; 32] ++ str_of_float threshold
  | ModeEngine.BelowCloudThreshold score threshold =>
      [25935; 24863; 24230; 32] ++ format_2f score ++
      [32; 20302; 26044; 38642; 31471; 38334; 20540; 32] ++ str_of_float threshold
  | ModeEngine.DefaultHybrid score =>
      [20351; 29992; 40664; 35469; 28151; 21512; 27169; 24335; 65288; 25935; 24863;
       24230; 58; 32] ++ format_2f score ++ [65289]
  | ModeEngine.ReasonText s => s
  end.

(** The dictionary under ["stats"] in what [overwrite] returns: the time
    is the integer 0 when the template has no placeholder. *)
Definition stats_dict (template : pystr) (out : Overwrite.OverwriteOutput)
    (time_ms : Q) : pydict :=
  [(lit "total", PyInt (Z.of_nat (Overwrite.stats_total out)));
   (lit "success", PyInt (Z.of_nat (Overwrite.stats_success out)));
   (lit "failed", PyInt (Z.of_nat (Overwrite.stats_failed out)));
   (lit "time_ms", match Overwrite.parse template with
                   | [] => PyInt 0
                   | _ => PyFloat time_ms
                   end)].

(** The [except Exception as e] branch; [e] is [str(e)], [at_stage] is
    [context.stage] when the exception came.  Every exception of the [try]
    comes after the decision was made, so the decision is there. *)
Definition failed_execution (st : SoulCore * memory) (context : ExecutionContext)
    (decision : ModeEngine.ModeDecision) (at_stage : ExecutionStage) (e : pystr)
    (timings : list (pystr * Q)) (env : readings) (events : list event)
    : execution :=
  let st :=
    _audit st context
      {| ac_event_type := Audit.EXECUTION_END;
         ac_action := lit "execution_failed";
         ac_description := msg_execution_failed ++ e;
         ac_success := false; ac_level := Audit.ERROR; ac_details := [];
         ac_decision := None; ac_reason := None; ac_confidence := None |}
      (entry_stamp env AtExecutionFailed) in
  let core := _update_stats st.1 (ModeEngine.mode decision) false in
  {| result :=
       {| success := false;
          result_request_id := request_id context;
          mode := ModeEngine.mode decision;
          mode_decision := Some decision;
          output := [];
          output_metadata := [];
          security_report := None;
          overwrite_stats := None;
          total_time_ms := elapsed_ms (t_end env) (start_time context);
          stage_timings := timings;
          error := Some e;
          error_stage := Some at_stage |};
     core_after := core;
     memory_after := st.2;
     stage_after := at_stage;
     ran := events |}.

(** The end of the [try]: the statistics are updated and the result is
    built. *)
Definition completed_execution (st : SoulCore * memory) (context : ExecutionContext)
    (decision : ModeEngine.ModeDecision)
    (report : option Security.SecurityReport) (final_output : pystr)
    (stats : option pydict) (timings : list (pystr * Q)) (env : readings)
    (events : list event) : execution :=
  let core := _update_stats st.1 (ModeEngine.mode decision) true in
  {| result :=
       {| success := true;
          result_request_id := request_id context;
          mode := ModeEngine.mode decision;
          mode_decision := Some decision;
          output := final_output;
          output_metadata := [];
          security_report := report;
          overwrite_stats := stats;
          total_time_ms := elapsed_ms (t_end env) (start_time context);
          stage_timings := timings;
          error := None;
          error_stage := None |};
     core_after := core;
     memory_after := st.2;
     stage_after := COMPLETED;
     ran := events |}.

(** Stages 3 and 4: the executor of the mode, then the overwriter. *)
Definition run_executor (st : SoulCore * memory) (context : ExecutionContext)
    (decision : ModeEngine.ModeDecision)
    (report : option Security.SecurityReport) (skip_overwrite : bool)
    (timings : list (pystr * Q)) (env : readings) : execution :=
  let m := ModeEngine.mode decision in
  match _executors st.1 m with
  | None =>
      failed_execution st context decision EXECUTING
        (msg_no_executor ++ ExecutionMode_value m ++ msg_executor) timings env []
  | Some executor =>
      let st :=
        _audit st context
          (plain_call Audit.EXECUTION_START (lit "execution_start")
             (msg_execution_start ++ ExecutionMode_value m))
          (entry_stamp env AtExecutionStart) in
      match executor (set_stage EXECUTING context) decision with
      | Raised e =>
          failed_execution st context decision EXECUTING e timings env
            [RanExecutor m]
      | Returned raw_output =>
          let timings :=
            timings ++ [(lit "execute",
                         elapsed_ms (t_execute_end env) (t_execute_start env))] in
          let st :=
            _audit st context
              (plain_call Audit.EXECUTION_END (lit "execution_end")
                 msg_execution_done)
              (entry_stamp env AtExecutionEnd) in
          if skip_overwrite then
            completed_execution st context decision report raw_output None
              timings env [RanExecutor m]
          else
            let overwrite_result :=
              Overwrite.overwrite (overwriter st.1) raw_output
                (Some [(lit "user_id", text_or_none (user_id context));
                       (lit "request_id", PyStr (request_id context))]) in
            let overwrite_stats :=
              stats_dict raw_output overwrite_result (overwrite_time_ms env) in
            let timings :=
              timings ++ [(lit "overwrite",
                           elapsed_ms (t_overwrite_end env)
                             (t_overwrite_start env))] in
            let st :=
              _audit st context
                {| ac_event_type := Audit.DATA_OVERWRITE;
                   ac_action := lit "data_overwrite";
                   ac_description :=
                     msg_overwrite_done ++ py_str (PyDict overwrite_stats);
                   ac_success := Overwrite.all_success overwrite_result;
                   ac_level := Audit.INFO;
                   ac_details := [(lit "stats", PyDict overwrite_stats)];
                   ac_decision := None; ac_reason := None;
                   ac_confidence := None |}
                (entry_stamp env AtDataOverwrite) in
            completed_execution st context decision report
              (Overwrite.final_output overwrite_result) (Some overwrite_stats)
              timings env [RanExecutor m; RanOverwrite raw_output]
      end
  end.

(** The dictionary that [execute] hands to the security gate. *)
Definition security_context (context : ExecutionContext)
    (m : ModeEngine.ExecutionMode) : pydict :=
  [(lit "user_id", text_or_none (user_id context));
   (lit "content", PyStr (input_content context));
   (lit "granted_permissions", PyList (map PyStr (granted_permissions context)));
   (lit "required_permissions", PyList (map PyStr (_get_required_permissions m)))].

(** [await core.execute(context, skip_security, skip_overwrite)]. *)
Definition execute (core : SoulCore) (mem : memory) (context : ExecutionContext)
    (skip_security skip_overwrite : bool) (env : readings) : execution :=
  let decision :=
    ModeEngine.decide (mode_engine core) (input_content context) (user_id context)
      (Some [(lit "user_preferences", PyDict (user_preferences context));
             (lit "is_admin",
              PyBool (bool_decide (lit "admin" ∈ granted_permissions context)))]) in
  let m := ModeEngine.mode decision in
  let timings := [(lit "analyze", elapsed_ms (t_analyzed env) (t_start env))] in
  let st :=
    _audit (core, mem) context
      {| ac_event_type := Audit.MODE_DECISION;
         ac_action := lit "mode_decision";
         ac_description := msg_mode_chosen ++ ExecutionMode_value m;
         ac_success := true; ac_level := Audit.INFO; ac_details := [];
         ac_decision := Some (ExecutionMode_value m);
         ac_reason := Some (reason_str (ModeEngine.reason decision));
         ac_confidence := Some (ModeEngine.confidence decision) |}
      (entry_stamp env AtModeDecision) in
  if skip_security then
    run_executor st context decision None skip_overwrite timings env
  else
    let security_report :=
      Security.run_all (security_system st.1) (security_context context m)
        (report_now env) in
    let timings :=
      timings ++ [(lit "security",
                   elapsed_ms (t_security_end env) (t_security_start env))] in
    let st :=
      _audit st context
        {| ac_event_type := Audit.SECURITY_CHECK;
           ac_action := lit "security_check";
           ac_description :=
             msg_security_done ++ Security.risk_level security_report;
           ac_success := Security.overall_passed security_report;
           ac_level := Audit.INFO;
           ac_details :=
             [(lit "risk_level", PyStr (Security.risk_level security_report));
              (lit "phase_summary",
               phase_summary_value (Security.phase_summary security_report))];
           ac_decision := None; ac_reason := None; ac_confidence := None |}
        (entry_stamp env AtSecurityCheck) in
    if bool_decide (Security.risk_level security_report = lit "critical") then
      {| result :=
           {| success := false;
              result_request_id := request_id context;
              mode := m;
              mode_decision := Some decision;
              output := [];
              output_metadata := [];
              security_report := Some security_report;
              overwrite_stats := None;
              total_time_ms := sum_values timings;
              stage_timings := timings;
              error := Some msg_security_refused;
              error_stage := Some SECURITY_CHECK |};
         core_after := st.1;
         memory_after := st.2;
         stage_after := SECURITY_CHECK;
         ran := [] |}
    else
      run_executor st context decision (Some security_report) skip_overwrite
        timings env.

End Execute.


(** ** Facts about [_audit] and [_update_stats] *)

Section AuditedFacts.
Context `{Audit.Digest}.

(** [_audit] touches the audit chain and the entry objects only. *)
Lemma _audit_keeps (st : SoulCore * memory) (context : ExecutionContext)
    (call : audit_call) (s : stamp) :
  mode_engine (_audit st context call s).1 = mode_engine st.1 /\
  security_system (_audit st context call s).1 = security_system st.1 /\
  overwriter (_audit st context call s).1 = overwriter st.1 /\
  _executors (_audit st context call s).1 = _executors st.1 /\
  _stats (_audit st context call s).1 = _stats st.1 /\
  (is_Some (audit_chain (_audit st context call s).1) <->
   is_Some (audit_chain st.1)).
Proof.
  destruct st as [core mem]. unfold _audit.
  destruct (audit_chain core) as [chain|] eqn:Hchain; [|done].
  cbn. rewrite Hchain. repeat split; by eexists.
Qed.

(** The entries of the chain of a core, none without a chain. *)
Definition trail (core : SoulCore) : list nat :=
  from_option Audit._entries [] (audit_chain core).

(** The chain of a core is well linked, and its entries are objects of the
    store. *)
Definition chain_sound (st : SoulCore * memory) : Prop :=
  match audit_chain st.1 with
  | None => True
  | Some chain =>
      Audit.linked (objects st.2) None (Audit._entries chain) /\
      Audit._last_hash chain =
        Audit.hash_after (objects st.2) None (Audit._entries chain) /\
      Forall (fun l => (l < allocated st.2)%nat) (Audit._entries chain)
  end.

(** What one [_audit] call adds to a chain: the object at the next
    address, which holds the entry as the call describes it; the objects
    that were there stay as they are. *)
Lemma _audit_adds (st : SoulCore * memory) (context : ExecutionContext)
    (call : audit_call) (s : stamp) :
  is_Some (audit_chain st.1) ->
  let st' := _audit st context call s in
  let l := allocated st.2 in
  let entry := objects st'.2 l in
  trail st'.1 = trail st.1 ++ [l] /\
  allocated st'.2 = S l /\
  (forall l', l' <> l -> objects st'.2 l' = objects st.2 l') /\
  Audit.event_type entry = ac_event_type call /\
  Audit.action entry = ac_action call /\
  Audit.level entry = ac_level call /\
  Audit.success entry = ac_success call /\
  Audit.session_id entry = session_id context /\
  Audit.request_id entry = request_id context /\
  Audit.user_id entry = user_id context.
Proof.
  destruct st as [core mem]. intros [chain Hchain]. cbn [fst snd] in *.
  unfold _audit, trail. rewrite Hchain. cbn.
  rewrite !fn_lookup_insert. repeat split; try done.
  intros l' Hne. rewrite fn_lookup_insert_ne by done.
  by rewrite fn_lookup_insert_ne.
Qed.

Lemma _audit_without_chain (st : SoulCore * memory) (context : ExecutionContext)
    (call : audit_call) (s : stamp) :
  audit_chain st.1 = None -> _audit st context call s = st.
Proof. destruct st as [core mem]. cbn. by intros ->. Qed.

Lemma _audit_sound (st : SoulCore * memory) (context : ExecutionContext)
    (call : audit_call) (s : stamp) :
  chain_sound st -> chain_sound (_audit st context call s).
Proof.
  destruct st as [core mem]. unfold chain_sound, _audit. cbn [fst snd].
  destruct (audit_chain core) as [chain|] eqn:Hchain; [|by cbn; rewrite Hchain].
  intros (Hlinked & Hlast & Hold). unfold Audit.create_entry.
  set (entry := {| Audit.entry_id := stamp_id s |}).
  set (h := <[allocated mem := entry]> (objects mem)).
  assert (forall l, l ∈ Audit._entries chain -> h l = objects mem l) as Hagree.
  { intros l Hin. apply fn_lookup_insert_ne.
    rewrite Forall_forall in Hold. specialize (Hold l Hin). lia. }
  destruct (Audit.add_linked h chain (allocated mem)) as (Hl' & Hlast' & He').
  - intros Hin. rewrite Forall_forall in Hold. specialize (Hold _ Hin). lia.
  - by apply (Audit.linked_ext (objects mem)).
  - by rewrite (Audit.hash_after_ext (objects mem)).
  - destruct (Audit.add h chain (allocated mem)) as [h' chain'] eqn:Hadd.
    cbn [fst snd] in *. split; [done|]. split; [done|].
    rewrite He'. apply Forall_app. split.
    + eapply Forall_impl; [exact Hold|]. cbn. lia.
    + constructor; [cbn; lia|constructor].
Qed.

End AuditedFacts.

(** The statistics add up: every execution is a success or a failure, and
    the counts by mode are those of the total. *)
Definition stats_sound (st : core_stats) : Prop :=
  total_executions st = (successful st + failed st)%nat /\
  sum_list (map (fun kv => ms_total kv.2) (by_mode st)) = total_executions st /\
  sum_list (map (fun kv => ms_success kv.2) (by_mode st)) = successful st /\
  NoDup (map fst (by_mode st)).

Lemma count_mode_totals (k : pystr) (ok : bool) (d : list (pystr * mode_stats)) :
  sum_list (map (fun kv => ms_total kv.2) (count_mode k ok d)) =
    S (sum_list (map (fun kv => ms_total kv.2) d)) /\
  sum_list (map (fun kv => ms_success kv.2) (count_mode k ok d)) =
    ((if ok then 1 else 0) + sum_list (map (fun kv => ms_success kv.2) d))%nat.
Proof.
  induction d as [|[k' s] d [IHt IHs]]; cbn.
  - destruct ok; split; lia.
  - destruct (decide (k = k')); cbn.
    + destruct ok; split; lia.
    + rewrite IHt, IHs. destruct ok; split; lia.
Qed.

Lemma count_mode_keys (k : pystr) (ok : bool) (d : list (pystr * mode_stats))
    (x : pystr) :
  x ∈ map fst (count_mode k ok d) <-> x = k \/ x ∈ map fst d.
Proof.
  induction d as [|[k' s] d IH]; cbn.
  - rewrite list_elem_of_singleton, elem_of_nil. tauto.
  - destruct (decide (k = k')) as [->|Hne]; cbn;
      rewrite !elem_of_cons; [tauto|]. rewrite IH. tauto.
Qed.

Lemma count_mode_NoDup (k : pystr) (ok : bool) (d : list (pystr * mode_stats)) :
  NoDup (map fst d) -> NoDup (map fst (count_mode k ok d)).
Proof.
  induction d as [|[k' s] d IH]; cbn; intros Hnd.
  - apply NoDup_singleton.
  - apply NoDup_cons in Hnd as [Hnot Hnd].
    destruct (decide (k = k')) as [->|Hne]; cbn.
    + by apply NoDup_cons.
    + apply NoDup_cons. split; [|by apply IH].
      rewrite count_mode_keys. intros [Heq|Hin]; [by subst|done].
Qed.

Lemma _update_stats_sound (core : SoulCore) (m : ModeEngine.ExecutionMode)
    (ok : bool) :
  stats_sound (_stats core) -> stats_sound (_stats (_update_stats core m ok)).
Proof.
  intros (Hsum & Htotal & Hsucc & Hnd). unfold stats_sound. cbn.
  destruct (count_mode_totals (ExecutionMode_value m) ok (by_mode (_stats core)))
    as [-> ->].
  repeat split.
  - destruct ok; lia.
  - lia.
  - destruct ok; lia.
  - by apply count_mode_NoDup.
Qed.

Lemma _update_stats_counts (core : SoulCore) (m : ModeEngine.ExecutionMode)
    (ok : bool) :
  total_executions (_stats (_update_stats core m ok)) =
    S (total_executions (_stats core)) /\
  successful (_stats (_update_stats core m ok)) =
    ((if ok then 1 else 0) + successful (_stats core))%nat /\
  failed (_stats (_update_stats core m ok)) =
    ((if ok then 0 else 1) + failed (_stats core))%nat.
Proof. cbn. by destruct ok. Qed.

(** ** Facts about [execute] *)

Section ExecuteFacts.
Context `{UnicodeTables} `{Rendering} `{ModeEngine.Regex} `{ModeEngine.StrHash}.
Context `{Audit.Digest} `{FloatFormat}.

(** A property of the core and the entry objects that [_audit] and
    [_update_stats] keep is kept by [execute]. *)
Lemma run_executor_preserves (P : SoulCore * memory -> Prop)
    (st : SoulCore * memory) (context : ExecutionContext)
    (decision : ModeEngine.ModeDecision)
    (report : option Security.SecurityReport) (skip_overwrite : bool)
    (timings : list (pystr * Q)) (env : readings) :
  (forall st ctx call s, P st -> P (_audit st ctx call s)) ->
  (forall st m ok, P st -> P (_update_stats st.1 m ok, st.2)) ->
  P st ->
  let run := run_executor st context decision report skip_overwrite timings env in
  P (core_after run, memory_after run).
Proof.
  intros Haudit Hstats Hst. unfold run_executor.
  destruct (_executors st.1 (ModeEngine.mode decision)) as [ex|].
  - destruct (ex _ decision) as [raw|e].
    + destruct skip_overwrite; cbn [core_after memory_after completed_execution];
        apply Hstats; repeat apply Haudit; done.
    + cbn [core_after memory_after failed_execution].
      apply Hstats; repeat apply Haudit; done.
  - cbn [core_after memory_after failed_execution].
    apply Hstats; repeat apply Haudit; done.
Qed.

Lemma execute_preserves (P : SoulCore * memory -> Prop)
    (core : SoulCore) (mem : memory) (context : ExecutionContext)
    (skip_security skip_overwrite : bool) (env : readings) :
  (forall st ctx call s, P st -> P (_audit st ctx call s)) ->
  (forall st m ok, P st -> P (_update_stats st.1 m ok, st.2)) ->
  P (core, mem) ->
  let run := execute core mem context skip_security skip_overwrite env in
  P (core_after run, memory_after run).
Proof.
  intros Haudit Hstats Hst. unfold execute.
  destruct skip_security.
  - apply run_executor_preserves; try done. by apply Haudit.
  - match goal with |- context [bool_decide ?c] => destruct (bool_decide c) end.
    + cbn [core_after memory_after]. rewrite <- surjective_pairing.
      by repeat apply Haudit.
    + apply run_executor_preserves; try done. by repeat apply Haudit.
Qed.

End ExecuteFacts.

(** ** What [execute] answers *)

Section ExecuteTheorems.
Context `{UnicodeTables} `{Rendering} `{ModeEngine.Regex} `{ModeEngine.StrHash}.
Context `{Audit.Digest} `{FloatFormat}.

(** The decision of stage 1 and the report of stage 2, as [execute] computes
    them. *)
Definition decision_of (core : SoulCore) (context : ExecutionContext)
    : ModeEngine.ModeDecision :=
  ModeEngine.decide (mode_engine core) (input_content context) (user_id context)
    (Some [(lit "user_preferences", PyDict (user_preferences context));
           (lit "is_admin",
            PyBool (bool_decide (lit "admin" ∈ granted_permissions context)))]).

Definition report_of (core : SoulCore) (context : ExecutionContext) (env : readings)
    : Security.SecurityReport :=
  Security.run_all (security_system core)
    (security_context context (ModeEngine.mode (decision_of core context)))
    (report_now env).

(** The refusal of stage 2. *)
Lemma critical_refusal (core : SoulCore) (mem : memory) (context : ExecutionContext)
    (skip_overwrite : bool) (env : readings) :
  Security.risk_level (report_of core context env) = lit "critical" ->
  let run := execute core mem context false skip_overwrite env in
  success (result run) = false /\
  error (result run) = Some msg_security_refused /\
  error_stage (result run) = Some SECURITY_CHECK /\
  output (result run) = [] /\
  overwrite_stats (result run) = None /\
  mode (result run) = ModeEngine.mode (decision_of core context) /\
  security_report (result run) = Some (report_of core context env) /\
  ran run = [] /\
  stage_after run = SECURITY_CHECK /\
  _stats (core_after run) = _stats core /\
  _executors (core_after run) = _executors core.
Proof.
  intros Hcrit. unfold execute.
  match goal with |- context [_audit (core, mem) context ?c ?s] =>
    set (st1 := _audit (core, mem) context c s);
    destruct (_audit_keeps (core, mem) context c s)
      as (_ & Hsec & _ & Hex & Hstats & _)
  end.
  fold st1 in Hsec, Hex, Hstats. cbn [fst] in Hsec, Hex, Hstats. rewrite Hsec.
  fold (decision_of core context). fold (report_of core context env).
  rewrite bool_decide_eq_true_2 by done.
  cbn [result core_after ran stage_after success error error_stage output
       overwrite_stats mode security_report].
  match goal with |- context [_audit st1 context ?c ?s] =>
    destruct (_audit_keeps st1 context c s) as (_ & _ & _ & Hex' & Hstats' & _)
  end.
  rewrite Hstats', Hex', Hstats, Hex. done.
Qed.

(** A report of critical risk ends the request at stage 2: [execute]
    answers with a failure whose [error_stage] is SECURITY_CHECK and which
    carries the report; no executor and no overwrite is run, and the
    statistics do not count the request.  With an audit chain, the request
    leaves two entries, the mode decision and the security check, the
    second marked with the [overall_passed] of the report. *)
Theorem critical_risk_refuses_request (core : SoulCore) (mem : memory)
    (context : ExecutionContext) (skip_overwrite : bool) (env : readings) :
  Security.risk_level (report_of core context env) = lit "critical" ->
  let run := execute core mem context false skip_overwrite env in
  let entry l := objects (memory_after run) l in
  success (result run) = false /\
  error (result run) = Some msg_security_refused /\
  error_stage (result run) = Some SECURITY_CHECK /\
  output (result run) = [] /\
  security_report (result run) = Some (report_of core context env) /\
  ran run = [] /\
  _stats (core_after run) = _stats core /\
  (audit_chain core = None -> audit_chain (core_after run) = None) /\
  (is_Some (audit_chain core) ->
   trail (core_after run) = trail core ++ [allocated mem; S (allocated mem)] /\
   Audit.event_type (entry (allocated mem)) = Audit.MODE_DECISION /\
   Audit.event_type (entry (S (allocated mem))) = Audit.SECURITY_CHECK /\
   Audit.success (entry (S (allocated mem))) =
     Security.overall_passed (report_of core context env) /\
   Audit.request_id (entry (allocated mem)) = request_id context /\
   Audit.request_id (entry (S (allocated mem))) = request_id context).
Proof.
  intros Hcrit run entry.
  destruct (critical_refusal core mem context skip_overwrite env Hcrit)
    as (Hs & He & Hst & Ho & _ & _ & Hrep & Hran & _ & Hstats & _).
  do 7 (split; [done|]).
  unfold entry, run, execute.
  match goal with |- context [_audit (core, mem) context ?c ?s] =>
    set (st1 := _audit (core, mem) context c s);
    pose proof (_audit_keeps (core, mem) context c s) as Hkeep;
    pose proof (_audit_adds (core, mem) context c s) as Hadd;
    pose proof (_audit_without_chain (core, mem) context c s) as Hnone
  end.
  fold st1 in Hkeep, Hadd, Hnone. cbn [fst snd] in Hkeep, Hadd, Hnone.
  destruct Hkeep as (_ & Hsec & _ & _ & _ & Hsome). rewrite Hsec.
  fold (decision_of core context). fold (report_of core context env).
  rewrite bool_decide_eq_true_2 by done. cbn [core_after memory_after].
  match goal with |- context [_audit st1 context ?c ?s] =>
    set (st2 := _audit st1 context c s);
    pose proof (_audit_adds st1 context c s) as Hadd2;
    pose proof (_audit_without_chain st1 context c s) as Hnone2
  end.
  fold st2 in Hadd2, Hnone2. split.
  - intros Hno. rewrite Hnone2; rewrite (Hnone Hno); done.
  - intros Hchain.
    destruct (Hadd Hchain) as (Ht1 & Ha1 & _ & Hev1 & _ & _ & _ & _ & Hr1 & _).
    destruct (Hadd2 (proj2 Hsome Hchain))
      as (Ht2 & _ & Hold & Hev2 & _ & _ & Hsucc2 & _ & Hr2 & _).
    rewrite Ha1 in *. rewrite Ht2, Ht1, <- app_assoc.
    rewrite (Hold (allocated mem)) by lia.
    by rewrite Hev1, Hev2, Hsucc2, Hr1, Hr2.
Qed.

(** A request cannot pass the gate of a core as [SoulCore()] builds it.
    The context that [execute] hands to the gate has no [auth_token], and
    the authentication check, which is registered first, fails without
    one.  So with the security stage on, [execute] refuses every request,
    whoever sends it and whatever it holds: the result is the failure of
    stage 2, the report in it has not passed and is of critical risk, and
    no executor is run. *)
Theorem request_without_token_is_refused (core : SoulCore) (mem : memory)
    (rest : list Security.SecurityCheck) (context : ExecutionContext)
    (skip_overwrite : bool) (env : readings) :
  Security.checks (security_system core) = Security.AuthenticationCheck :: rest ->
  let run := execute core mem context false skip_overwrite env in
  success (result run) = false /\
  error (result run) = Some msg_security_refused /\
  error_stage (result run) = Some SECURITY_CHECK /\
  output (result run) = [] /\
  (exists report,
     security_report (result run) = Some report /\
     Security.overall_passed report = false /\
     Security.risk_level report = lit "critical") /\
  ran run = [] /\
  _stats (core_after run) = _stats core.
Proof.
  intros Hchecks run.
  destruct (Security.unauthenticated_report (security_system core) rest
              (security_context context (ModeEngine.mode (decision_of core context)))
              (report_now env) Hchecks) as (Hpassed & Hrisk).
  { right. reflexivity. }
  destruct (critical_refusal core mem context skip_overwrite env Hrisk)
    as (Hs & He & Hst & Ho & _ & _ & Hrep & Hran & _ & Hstats & _).
  do 4 (split; [done|]). split; [|done].
  exists (report_of core context env). done.
Qed.

(** What stage 3 stops on: the text of the exception, if there is one.  No
    executor is registered for the mode, or the executor raises. *)
Definition execution_error (core : SoulCore) (context : ExecutionContext)
    : option pystr :=
  let decision := decision_of core context in
  match _executors core (ModeEngine.mode decision) with
  | None =>
      Some (msg_no_executor ++ ExecutionMode_value (ModeEngine.mode decision) ++
            msg_executor)
  | Some ex =>
      match ex (set_stage EXECUTING context) decision with
      | Raised e => Some e
      | Returned _ => None
      end
  end.

(** The raw output of stage 3, if the executor gives one. *)
Definition raw_output_of (core : SoulCore) (context : ExecutionContext)
    : option pystr :=
  let decision := decision_of core context in
  match _executors core (ModeEngine.mode decision) with
  | None => None
  | Some ex =>
      match ex (set_stage EXECUTING context) decision with
      | Raised _ => None
      | Returned raw_output => Some raw_output
      end
  end.

(** What [overwrite] makes of a raw output for a request. *)
Definition overwritten (core : SoulCore) (context : ExecutionContext)
    (raw_output : pystr) : Overwrite.OverwriteOutput :=
  Overwrite.overwrite (overwriter core) raw_output
    (Some [(lit "user_id", text_or_none (user_id context));
           (lit "request_id", PyStr (request_id context))]).

(** Stage 3 reached with the core as the audit calls left it. *)
Lemma run_executor_result (core : SoulCore) (st : SoulCore * memory)
    (context : ExecutionContext) (report : option Security.SecurityReport)
    (skip_overwrite : bool) (timings : list (pystr * Q)) (env : readings) :
  _executors st.1 = _executors core ->
  overwriter st.1 = overwriter core ->
  _stats st.1 = _stats core ->
  let decision := decision_of core context in
  let run := run_executor st context decision report skip_overwrite timings env in
  match raw_output_of core context with
  | Some raw_output =>
      execution_error core context = None /\
      success (result run) = true /\
      error (result run) = None /\
      error_stage (result run) = None /\
      security_report (result run) = report /\
      output (result run) =
        (if skip_overwrite then raw_output
         else Overwrite.final_output (overwritten core context raw_output)) /\
      ran run = RanExecutor (ModeEngine.mode decision) ::
                (if skip_overwrite then [] else [RanOverwrite raw_output]) /\
      stage_after run = COMPLETED /\
      _stats (core_after run) =
        _stats (_update_stats core (ModeEngine.mode decision) true)
  | None =>
      exists e,
        execution_error core context = Some e /\
        success (result run) = false /\
        error (result run) = Some e /\
        error_stage (result run) = Some EXECUTING /\
        security_report (result run) = None /\
        output (result run) = [] /\
        Forall (fun ev => match ev with RanOverwrite _ => False | _ => True end)
               (ran run) /\
        stage_after run = EXECUTING /\
        _stats (core_after run) =
          _stats (_update_stats core (ModeEngine.mode decision) false)
  end.
Proof.
  intros Hex How Hstats decision run.
  unfold run, run_executor, raw_output_of, execution_error.
  fold decision. rewrite Hex.
  destruct (_executors core (ModeEngine.mode decision)) as [ex|].
  - destruct (ex (set_stage EXECUTING context) decision) as [raw|e].
    + destruct skip_overwrite;
        cbn [completed_execution result core_after ran stage_after success error
             error_stage security_report output].
      * match goal with |- context [_update_stats ?c _ _] =>
          assert (_stats c = _stats core) as Hs
        end.
        { etrans; [apply _audit_keeps|]. etrans; [apply _audit_keeps|]. done. }
        unfold _update_stats. cbn [_stats]. rewrite Hs. done.
      * match goal with |- context [_update_stats ?c _ _] =>
          assert (_stats c = _stats core) as Hs
        end.
        { do 3 (etrans; [apply _audit_keeps|]). done. }
        match goal with |- context [Overwrite.overwrite (overwriter ?c)] =>
          assert (overwriter c = overwriter core) as Ho
        end.
        { do 2 (etrans; [apply _audit_keeps|]). done. }
        unfold _update_stats, overwritten. cbn [_stats]. rewrite Hs, Ho. done.
    + exists e.
      cbn [failed_execution result core_after ran stage_after success error
           error_stage security_report output].
      match goal with |- context [_update_stats ?c _ _] =>
        assert (_stats c = _stats core) as Hs
      end.
      { do 2 (etrans; [apply _audit_keeps|]). done. }
      unfold _update_stats. cbn [_stats]. rewrite Hs.
      repeat split; try done. by repeat constructor.
  - eexists.
    cbn [failed_execution result core_after ran stage_after success error
         error_stage security_report output].
    match goal with |- context [_update_stats ?c _ _] =>
      assert (_stats c = _stats core) as Hs
    end.
    { etrans; [apply _audit_keeps|]. done. }
    unfold _update_stats. cbn [_stats]. rewrite Hs.
    repeat split; try done.
Qed.

(** The same for [execute], when the gate does not refuse. *)
Lemma execute_result (core : SoulCore) (mem : memory) (context : ExecutionContext)
    (skip_security skip_overwrite : bool) (env : readings) :
  (skip_security = false ->
   Security.risk_level (report_of core context env) <> lit "critical") ->
  exists st,
    execute core mem context skip_security skip_overwrite env =
      run_executor st context (decision_of core context)
        (if skip_security then None else Some (report_of core context env))
        skip_overwrite
        ([(lit "analyze", elapsed_ms (t_analyzed env) (t_start env))] ++
         (if skip_security then []
          else [(lit "security",
                 elapsed_ms (t_security_end env) (t_security_start env))]))
        env /\
    _executors st.1 = _executors core /\
    overwriter st.1 = overwriter core /\
    _stats st.1 = _stats core.
Proof.
  intros Hrisk. unfold execute.
  match goal with |- context [_audit (core, mem) context ?c ?s] =>
    set (st1 := _audit (core, mem) context c s);
    destruct (_audit_keeps (core, mem) context c s)
      as (_ & Hsec & How & Hex & Hstats & _)
  end.
  fold st1 in Hsec, How, Hex, Hstats. cbn [fst] in Hsec, How, Hex, Hstats.
  fold (decision_of core context).
  destruct skip_security.
  - exists st1. done.
  - rewrite Hsec. fold (report_of core context env).
    rewrite bool_decide_eq_false_2 by auto.
    match goal with |- context [_audit st1 context ?c ?s] =>
      set (st2 := _audit st1 context c s);
      destruct (_audit_keeps st1 context c s)
        as (_ & _ & How' & Hex' & Hstats' & _)
    end.
    fold st2 in How', Hex', Hstats'.
    exists st2. split; [done|]. by rewrite How', Hex', Hstats'.
Qed.

(** Only a critical risk blocks.  When the report is not of critical risk
    (or the security stage is skipped) and the executor of the decided
    mode returns, [execute] answers [success = True] with the output of the
    executor, overwritten unless the overwrite is skipped; it does so
    whatever else the report says, a report that has not passed included,
    and whether or not the overwrite succeeded.  The request is counted as
    one success. *)
Theorem only_critical_risk_blocks (core : SoulCore) (mem : memory)
    (context : ExecutionContext) (skip_security skip_overwrite : bool)
    (env : readings) (raw_output : pystr) :
  (skip_security = false ->
   Security.risk_level (report_of core context env) <> lit "critical") ->
  raw_output_of core context = Some raw_output ->
  let run := execute core mem context skip_security skip_overwrite env in
  success (result run) = true /\
  error (result run) = None /\
  security_report (result run) =
    (if skip_security then None else Some (report_of core context env)) /\
  output (result run) =
    (if skip_overwrite then raw_output
     else Overwrite.final_output (overwritten core context raw_output)) /\
  ran run = RanExecutor (ModeEngine.mode (decision_of core context)) ::
            (if skip_overwrite then [] else [RanOverwrite raw_output]) /\
  total_executions (_stats (core_after run)) = S (total_executions (_stats core)) /\
  successful (_stats (core_after run)) = S (successful (_stats core)) /\
  failed (_stats (core_after run)) = failed (_stats core).
Proof.
  intros Hrisk Hraw run.
  destruct (execute_result core mem context skip_security skip_overwrite env Hrisk)
    as (st & Hrun & Hex & How & Hstats).
  unfold run. rewrite Hrun.
  pose proof (run_executor_result core st context
                (if skip_security then None else Some (report_of core context env))
                skip_overwrite
                ([(lit "analyze", elapsed_ms (t_analyzed env) (t_start env))] ++
                 (if skip_security then []
                  else [(lit "security",
                         elapsed_ms (t_security_end env) (t_security_start env))]))
                env Hex How Hstats) as Hres.
  cbv zeta in Hres. rewrite Hraw in Hres.
  destruct Hres as (_ & Hs & He & _ & Hrep & Hout & Hran & _ & Hst).
  rewrite Hst.
  destruct (_update_stats_counts core (ModeEngine.mode (decision_of core context)) true)
    as (-> & -> & ->).
  done.
Qed.

(** A request that stage 3 stops is answered, not raised: when no executor
    is registered for the decided mode, or the executor raises, [execute]
    returns a failure with the text of the exception and
    [error_stage = EXECUTING]; the overwriter is not run, the result
    carries no security report even when one was made, and the request is
    counted as one failure. *)
Theorem failed_execution_is_reported (core : SoulCore) (mem : memory)
    (context : ExecutionContext) (skip_security skip_overwrite : bool)
    (env : readings) (e : pystr) :
  (skip_security = false ->
   Security.risk_level (report_of core context env) <> lit "critical") ->
  execution_error core context = Some e ->
  let run := execute core mem context skip_security skip_overwrite env in
  success (result run) = false /\
  error (result run) = Some e /\
  error_stage (result run) = Some EXECUTING /\
  security_report (result run) = None /\
  output (result run) = [] /\
  Forall (fun ev => match ev with RanOverwrite _ => False | _ => True end)
         (ran run) /\
  total_executions (_stats (core_after run)) = S (total_executions (_stats core)) /\
  successful (_stats (core_after run)) = successful (_stats core) /\
  failed (_stats (core_after run)) = S (failed (_stats core)).
Proof.
  intros Hrisk Herr run.
  destruct (execute_result core mem context skip_security skip_overwrite env Hrisk)
    as (st & Hrun & Hex & How & Hstats).
  unfold run. rewrite Hrun.
  pose proof (run_executor_result core st context
                (if skip_security then None else Some (report_of core context env))
                skip_overwrite
                ([(lit "analyze", elapsed_ms (t_analyzed env) (t_start env))] ++
                 (if skip_security then []
                  else [(lit "security",
                         elapsed_ms (t_security_end env) (t_security_start env))]))
                env Hex How Hstats) as Hres.
  cbv zeta in Hres.
  destruct (raw_output_of core context) as [raw|] eqn:Hraw.
  - destruct Hres as (Hnone & _). congruence.
  - destruct Hres as (e' & He' & Hs & He & Hstage & Hrep & Hout & Hran & _ & Hst).
    assert (e' = e) as -> by congruence.
    rewrite Hst.
    destruct (_update_stats_counts core (ModeEngine.mode (decision_of core context))
                false) as (-> & -> & ->).
    done.
Qed.

(** ** Cores as their methods leave them *)

(** The states of a core and its entry objects that come about: a new
    core, and what the registrations and [execute] make of one. *)
Inductive reachable : SoulCore -> memory -> Prop :=
| reachable_new local_threshold cloud_threshold enable_audit fail_fast_security
    default_checks runner_time_ms mem :
    reachable (new_core local_threshold cloud_threshold enable_audit
                 fail_fast_security default_checks runner_time_ms) mem
| reachable_register_executor core mem m ex :
    reachable core mem -> reachable (register_executor core m ex) mem
| reachable_register_data_source core mem source :
    reachable core mem -> reachable (register_data_source core source) mem
| reachable_register_overwrite_rule core mem rule :
    reachable core mem -> reachable (register_overwrite_rule core rule) mem
| reachable_execute core mem context skip_security skip_overwrite env :
    reachable core mem ->
    reachable
      (core_after (execute core mem context skip_security skip_overwrite env))
      (memory_after (execute core mem context skip_security skip_overwrite env)).

Lemma reachable_sound (core : SoulCore) (mem : memory) :
  reachable core mem ->
  stats_sound (_stats core) /\ chain_sound (core, mem) /\
  exists rest,
    Security.checks (security_system core) = Security.AuthenticationCheck :: rest.
Proof.
  induction 1 as [lt ct ea ff dc ms mem|core mem m ex _ IH|core mem source _ IH
                  |core mem rule _ IH|core mem context ss so env _ IH].
  - split; [|split].
    + repeat split; try done. constructor.
    + unfold chain_sound. cbn. destruct ea; [|done]. cbn. done.
    + by eexists.
  - done.
  - done.
  - done.
  - pose proof (execute_preserves
                  (fun st => stats_sound (_stats st.1) /\ chain_sound st /\
                             exists rest,
                               Security.checks (security_system st.1) =
                               Security.AuthenticationCheck :: rest)
                  core mem context ss so env) as Hkept.
    cbv zeta in Hkept.
    set (run := execute core mem context ss so env) in *. clearbody run.
    apply Hkept; [| |exact IH].
    + intros st ctx call s (Hs & Hc & Hsec).
      destruct (_audit_keeps st ctx call s) as (_ & -> & _ & _ & -> & _).
      split; [done|]. split; [by apply _audit_sound|done].
    + intros st m ok (Hs & Hc & Hsec). split; [by apply _update_stats_sound|].
      split; [|done]. destruct st as [c me]. done.
Qed.

(** The statistics of a core add up.  Whatever requests it has served,
    [total_executions = successful + failed]; the totals by mode sum to
    [total_executions] and the successes by mode to [successful]; and the
    success rate that [get_stats] reports lies between 0 and 1. *)
Theorem core_statistics_add_up (core : SoulCore) (mem : memory) :
  reachable core mem ->
  let st := _stats core in
  total_executions st = (successful st + failed st)%nat /\
  sum_list (map (fun kv => ms_total kv.2) (by_mode st)) = total_executions st /\
  sum_list (map (fun kv => ms_success kv.2) (by_mode st)) = successful st /\
  NoDup (map fst (by_mode st)) /\
  (forall rate, success_rate (get_stats core mem) = Some rate ->
                (0 <= rate <= 1)%Q).
Proof.
  intros Hr st. destruct (reachable_sound core mem Hr) as ((Hsum & Ht & Hs & Hnd) & _).
  do 4 (split; [done|]). subst st.
  intros rate. unfold get_stats, success_rate.
  destruct (0 <? total_executions (_stats core))%nat eqn:Hpos; [|done].
  apply Nat.ltb_lt in Hpos. intros [= <-].
  assert (0 < inject_Z (Z.of_nat (total_executions (_stats core))))%Q as Hden.
  { change 0%Q with (inject_Z 0). rewrite <- Zlt_Qlt. lia. }
  split.
  - apply Qle_shift_div_l; [done|]. rewrite Qmult_0_l.
    change 0%Q with (inject_Z 0). rewrite <- Zle_Qle. lia.
  - apply Qle_shift_div_r; [done|]. rewrite Qmult_1_l.
    rewrite <- Zle_Qle. lia.
Qed.

(** The audit chain of a core verifies.  As long as the entries are left
    to the core, [verify_audit_chain] is true after any number of
    requests, and the walk of [verify_chain] covers every entry. *)
Theorem core_audit_chain_verifies (core : SoulCore) (mem : memory) :
  reachable core mem ->
  verify_audit_chain core mem = true /\
  (forall chain, audit_chain core = Some chain ->
     Audit.total_entries (Audit.verify_chain (objects mem) chain) =
       length (Audit._entries chain) /\
     Audit.broken_at (Audit.verify_chain (objects mem) chain) = None).
Proof.
  intros Hr. destruct (reachable_sound core mem Hr) as (_ & Hc & _).
  unfold chain_sound in Hc. unfold verify_audit_chain. cbn [fst snd] in Hc.
  destruct (audit_chain core) as [chain|]; [|done].
  destruct Hc as (Hlinked & _ & _).
  destruct (Audit.verify_chain_linked (objects mem) chain Hlinked) as (Hv & Ht & Hb).
  split; [done|]. by intros ? [= <-].
Qed.

(** ** The audit trail of a request *)

(** The actions that one [execute] records, in order. *)
Definition expected_trail (core : SoulCore) (context : ExecutionContext)
    (skip_security skip_overwrite : bool) (env : readings) : list pystr :=
  let decision := decision_of core context in
  [lit "mode_decision"] ++
  (if skip_security then [] else [lit "security_check"]) ++
  (if negb skip_security &&
      bool_decide (Security.risk_level (report_of core context env) = lit "critical")
   then []
   else
     match _executors core (ModeEngine.mode decision) with
     | None => [lit "execution_failed"]
     | Some ex =>
         lit "execution_start" ::
         match ex (set_stage EXECUTING context) decision with
         | Raised _ => [lit "execution_failed"]
         | Returned _ =>
             lit "execution_end" ::
             (if skip_overwrite then [] else [lit "data_overwrite"])
         end
     end).

(** [execute] is a sequence of [_audit] calls with these actions, all for
    the context of the request, and at most one update of the statistics:
    what holds along every such sequence holds of [execute]. *)
Lemma execute_trace (P : list audit_call -> SoulCore * memory -> Prop)
    (core : SoulCore) (mem : memory) (context : ExecutionContext)
    (skip_security skip_overwrite : bool) (env : readings) :
  (forall calls st call s,
     P calls st -> P (calls ++ [call]) (_audit st context call s)) ->
  (forall calls st m ok, P calls st -> P calls (_update_stats st.1 m ok, st.2)) ->
  P [] (core, mem) ->
  let run := execute core mem context skip_security skip_overwrite env in
  exists calls,
    map ac_action calls =
      expected_trail core context skip_security skip_overwrite env /\
    P calls (core_after run, memory_after run).
Proof.
  intros Haudit Hstats Hstart. unfold execute, expected_trail.
  match goal with |- context [_audit (core, mem) context ?c ?s] =>
    set (st1 := _audit (core, mem) context c s);
    destruct (_audit_keeps (core, mem) context c s) as (_ & Hsec & _ & Hex & _);
    pose proof (Haudit [] (core, mem) c s Hstart) as Hst1
  end.
  fold st1 in Hsec, Hex, Hst1. cbn [fst] in Hsec, Hex.
  fold (decision_of core context).
  assert (forall st report timings calls0,
             _executors st.1 = _executors core ->
             P calls0 st ->
             let run := run_executor st context (decision_of core context) report
                          skip_overwrite timings env in
             exists calls,
               map ac_action calls =
                 map ac_action calls0 ++
                 match _executors core (ModeEngine.mode (decision_of core context)) with
                 | None => [lit "execution_failed"]
                 | Some ex =>
                     lit "execution_start" ::
                     match ex (set_stage EXECUTING context) (decision_of core context) with
                     | Raised _ => [lit "execution_failed"]
                     | Returned _ =>
                         lit "execution_end" ::
                         (if skip_overwrite then [] else [lit "data_overwrite"])
                     end
                 end /\
               P calls (core_after run, memory_after run)) as Hstage3.
  { intros st report timings calls0 Hex0 Hst0. unfold run_executor. rewrite Hex0.
    destruct (_executors core (ModeEngine.mode (decision_of core context))) as [ex|].
    - destruct (ex (set_stage EXECUTING context) (decision_of core context))
        as [raw|e].
      + destruct skip_overwrite;
          cbn [core_after memory_after completed_execution];
          (eexists; split; cycle 1;
           [apply Hstats; repeat apply Haudit; exact Hst0
           |by rewrite !map_app, <- ?app_assoc]).
      + cbn [core_after memory_after failed_execution].
        eexists; split; cycle 1;
          [apply Hstats; repeat apply Haudit; exact Hst0
          |by rewrite !map_app, <- ?app_assoc].
    - cbn [core_after memory_after failed_execution].
      eexists; split; cycle 1;
        [apply Hstats; repeat apply Haudit; exact Hst0
        |by rewrite !map_app, <- ?app_assoc]. }
  destruct skip_security; cbn [negb andb].
  - destruct (Hstage3 st1 None
                [(lit "analyze", elapsed_ms (t_analyzed env) (t_start env))]
                _ Hex Hst1) as (calls & Hcalls & HP).
    exists calls. split; [|done]. rewrite Hcalls. done.
  - rewrite Hsec. fold (report_of core context env).
    match goal with |- context [_audit st1 context ?c ?s] =>
      set (st2 := _audit st1 context c s);
      destruct (_audit_keeps st1 context c s) as (_ & _ & _ & Hex' & _);
      pose proof (Haudit _ st1 c s Hst1) as Hst2
    end.
    fold st2 in Hex', Hst2.
    destruct (bool_decide (Security.risk_level (report_of core context env) =
                           lit "critical")).
    + cbn [core_after memory_after]. rewrite <- surjective_pairing.
      eexists. split; [|exact Hst2]. done.
    + destruct (Hstage3 st2 (Some (report_of core context env))
                  ([(lit "analyze", elapsed_ms (t_analyzed env) (t_start env))] ++
                   [(lit "security",
                     elapsed_ms (t_security_end env) (t_security_start env))])
                  _ (eq_trans Hex' Hex) Hst2) as (calls & Hcalls & HP).
      exists calls. split; [|done]. rewrite Hcalls. done.
Qed.

(** Every request leaves its trail, and nothing else.  With an audit
    chain, one [execute] appends to it as many new entry objects as
    [expected_trail] has actions, with these actions in this order: the
    mode decision first, then the security check unless it is skipped,
    then, unless the gate refused, the start and the end of the execution
    and the overwrite, or the failure.  Every new entry carries the
    request, session and user of the context.  The entries that were there
    are not touched.  Without a chain nothing is recorded. *)
Theorem request_leaves_audit_trail (core : SoulCore) (mem : memory)
    (context : ExecutionContext) (skip_security skip_overwrite : bool)
    (env : readings) :
  let run := execute core mem context skip_security skip_overwrite env in
  let actions := expected_trail core context skip_security skip_overwrite env in
  let new := seq (allocated mem) (length actions) in
  let entry l := objects (memory_after run) l in
  (is_Some (audit_chain core) ->
   trail (core_after run) = trail core ++ new /\
   map (fun l => Audit.action (entry l)) new = actions /\
   Forall (fun l => Audit.request_id (entry l) = request_id context /\
                    Audit.session_id (entry l) = session_id context /\
                    Audit.user_id (entry l) = user_id context) new /\
   allocated (memory_after run) = (allocated mem + length actions)%nat) /\
  (forall l, (l < allocated mem)%nat -> entry l = objects mem l) /\
  (audit_chain core = None ->
   audit_chain (core_after run) = None /\ memory_after run = mem).
Proof.
  intros run actions new entry.
  destruct (execute_trace
              (fun calls st =>
                 (is_Some (audit_chain core) ->
                  is_Some (audit_chain st.1) /\
                  trail st.1 = trail core ++ seq (allocated mem) (length calls) /\
                  allocated st.2 = (allocated mem + length calls)%nat /\
                  (forall i call, calls !! i = Some call ->
                     let e := objects st.2 (allocated mem + i)%nat in
                     Audit.action e = ac_action call /\
                     Audit.request_id e = request_id context /\
                     Audit.session_id e = session_id context /\
                     Audit.user_id e = user_id context)) /\
                 (forall l, (l < allocated mem)%nat ->
                            objects st.2 l = objects mem l) /\
                 (audit_chain core = None ->
                  audit_chain st.1 = None /\ st.2 = mem))
              core mem context skip_security skip_overwrite env)
    as (calls & Hactions & Hchain & Hold & Hnone).
  - intros calls0 st call s (Hchain & Hold & Hnone). split; [|split].
    + intros Hsome. destruct (Hchain Hsome) as (Hsome' & Htrail & Halloc & Hentries).
      destruct (_audit_adds st context call s Hsome')
        as (Ht & Ha & Hkeep & _ & Hact & _ & _ & Hsid & Hrid & Huid).
      split; [by apply _audit_keeps|]. split; [|split].
      * rewrite Ht, Htrail, length_app, seq_app, <- app_assoc, Halloc. done.
      * rewrite Ha, Halloc, length_app. cbn. lia.
      * intros i call' Hi. apply lookup_app_Some in Hi as [Hi|[Hlen Hi]].
        -- pose proof (lookup_lt_Some _ _ _ Hi) as Hlt.
           rewrite Hkeep by lia. by apply Hentries.
        -- apply list_lookup_singleton_Some in Hi as [Hi <-].
           replace (allocated mem + i)%nat with (allocated st.2) by lia.
           done.
    + intros l Hl.
      destruct (audit_chain st.1) as [chain|] eqn:Hc.
      * assert (is_Some (audit_chain st.1)) as Hsome' by (by rewrite Hc; eexists).
        destruct (audit_chain core) as [chain0|] eqn:Hc0.
        -- destruct (Hchain (ltac:(by eexists))) as (_ & _ & Halloc & _).
           destruct (_audit_adds st context call s Hsome') as (_ & _ & Hkeep & _).
           rewrite Hkeep by lia. by apply Hold.
        -- destruct (Hnone eq_refl) as [Hc' _]. congruence.
      * rewrite _audit_without_chain by done. by apply Hold.
    + intros Hno. destruct (Hnone Hno) as [Hc Hm].
      rewrite _audit_without_chain by done. done.
  - intros calls0 st m ok (Hchain & Hold & Hnone). done.
  - split; [|done]. intros Hsome. split; [done|]. cbn. rewrite app_nil_r.
    split; [done|]. split; [lia|]. intros i call Hi. done.
  - fold run in Hchain, Hold, Hnone. cbn [fst snd] in Hchain, Hold, Hnone.
    fold actions in Hactions.
    assert (length calls = length actions) as Hlen.
    { by rewrite <- Hactions, length_map. }
    split; [|split; [exact Hold|exact Hnone]].
    intros Hsome. destruct (Hchain Hsome) as (_ & Htrail & Halloc & Hentries).
    unfold new. rewrite <- Hlen. split; [done|]. split; [|split; [|done]].
    + rewrite <- Hactions. apply list_eq. intros i.
      rewrite !list_lookup_fmap.
      destruct (calls !! i) as [call|] eqn:Hi.
      * rewrite lookup_seq_lt by (by eapply lookup_lt_Some). cbn. unfold entry.
        by destruct (Hentries i call Hi) as (-> & _).
      * rewrite lookup_seq_ge by (by apply lookup_ge_None). done.
    + apply Forall_forall. intros l Hl. apply elem_of_seq in Hl.
      destruct (lookup_lt_is_Some_2 calls (l - allocated mem)) as [call Hi]; [lia|].
      destruct (Hentries _ _ Hi) as (_ & Hr & Hs & Hu).
      replace (allocated mem + (l - allocated mem))%nat with l in * by lia.
      unfold entry. done.
Qed.

End ExecuteTheorems.

(** ** The core of the examples *)

(** A float format for the examples, which read no formatted float. *)
Definition plain_format : FloatFormat := fun _ => lit "<float>".

(** [SoulCore()], here without the default checks that follow the
    authentication check. *)
Definition demo_core : SoulCore :=
  @new_core ascii_only_tables plain_rendering 0.8%Q 0.3%Q true true [] 0%Q.

Definition demo_context : ExecutionContext :=
  {| request_id := lit "req-001"; session_id := lit "sess-001";
     user_id := Some (lit "user-001"); tenant_id := None;
     input_content := lit "check my balance"; input_metadata := [];
     granted_permissions := [lit "ai:use"; lit "ai:cloud"];
     user_preferences := []; start_time := 0%Q; stage := INIT |}.

Definition demo_readings : readings :=
  {| t_start := 0%Q; t_analyzed := 0%Q; t_security_start := 0%Q;
     t_security_end := 0%Q; t_execute_start := 0%Q; t_execute_end := 0%Q;
     t_overwrite_start := 0%Q; t_overwrite_end := 0%Q; t_end := 0%Q;
     report_now := lit "2026-01-01T00:00:00";
     overwrite_time_ms := 0%Q;
     entry_stamp := fun site =>
       match site with
       | AtModeDecision => {| stamp_id := lit "e-1"; stamp_time := 1 |}
       | AtSecurityCheck => {| stamp_id := lit "e-2"; stamp_time := 2 |}
       | AtExecutionStart => {| stamp_id := lit "e-3"; stamp_time := 3 |}
       | AtExecutionEnd => {| stamp_id := lit "e-4"; stamp_time := 4 |}
       | AtDataOverwrite => {| stamp_id := lit "e-5"; stamp_time := 5 |}
       | AtExecutionFailed => {| stamp_id := lit "e-6"; stamp_time := 6 |}
       end |}.

(** A store without entry objects. *)
Definition empty_memory : memory :=
  {| objects := fun _ =>
       {| Audit.entry_id := []; Audit.timestamp := 0;
          Audit.level := Audit.INFO; Audit.event_type := Audit.MODE_DECISION;
          Audit.session_id := []; Audit.request_id := []; Audit.action := [];
          Audit.description := []; Audit.user_id := None;
          Audit.tenant_id := None; Audit.details := []; Audit.decision := None;
          Audit.reason := None; Audit.confidence := None;
          Audit.success := true; Audit.error_message := None;
          Audit.duration_ms := None; Audit.entry_hash := None;
          Audit.previous_hash := None |};
     allocated := 0 |}.

Definition demo_execute : SoulCore -> memory -> ExecutionContext -> bool -> bool ->
                          readings -> execution :=
  @execute ascii_only_tables plain_rendering ModeEngine.no_regex
    ModeEngine.zero_hash Audit.demo_digest plain_format.

Definition demo_report : SoulCore -> ExecutionContext -> readings ->
                         Security.SecurityReport :=
  @report_of ascii_only_tables ModeEngine.no_regex ModeEngine.zero_hash.

(** An executor that answers with a template, and one that raises. *)
Definition template_executor : executor :=
  fun _ _ => Returned (lit "Balance: {{user.balance}}").

Definition failing_executor : executor :=
  fun _ _ => Raised (lit "model unavailable").

(** A core whose gate has one check, which fails at HIGH, and whose
    executors answer with the template. *)
Definition high_risk_core : SoulCore :=
  let injection_found : Security.SecurityCheck :=
    {| Security.sc_check_id := lit "SEC-010";
       Security.sc_name := lit "injection";
       Security.sc_phase := Security.CONTENT;
       Security.sc_severity := Security.HIGH;
       Security.sc_enabled := true;
       Security.sc_check := fun ctx =>
         (Returned (Security.fail (lit "SEC-010") Security.HIGH Security.CONTENT
                      (lit "found") [] None),
          ctx) |} in
  {| mode_engine := mode_engine demo_core;
     security_system :=
       {| Security.checks := [injection_found]; Security.fail_fast := true |};
     overwriter := overwriter demo_core;
     audit_chain := audit_chain demo_core;
     _executors := fun _ => Some template_executor;
     _stats := _stats demo_core |}.

(** The request of the examples on the core of the examples: refused at
    stage 2, with two entries in the chain. *)
Lemma critical_risk_refuses_request_witness :
  let run := demo_execute demo_core empty_memory demo_context false false
               demo_readings in
  let entry l := objects (memory_after run) l in
  success (result run) = false /\
  error (result run) = Some msg_security_refused /\
  error_stage (result run) = Some SECURITY_CHECK /\
  output (result run) = [] /\
  security_report (result run) =
    Some (demo_report demo_core demo_context demo_readings) /\
  ran run = [] /\
  _stats (core_after run) = _stats demo_core /\
  (audit_chain demo_core = None -> audit_chain (core_after run) = None) /\
  (is_Some (audit_chain demo_core) ->
   trail (core_after run) = trail demo_core ++ [0; 1]%nat /\
   Audit.event_type (entry 0%nat) = Audit.MODE_DECISION /\
   Audit.event_type (entry 1%nat) = Audit.SECURITY_CHECK /\
   Audit.success (entry 1%nat) =
     Security.overall_passed (demo_report demo_core demo_context demo_readings) /\
   Audit.request_id (entry 0%nat) = lit "req-001" /\
   Audit.request_id (entry 1%nat) = lit "req-001").
Proof.
  apply (@critical_risk_refuses_request ascii_only_tables plain_rendering
           ModeEngine.no_regex ModeEngine.zero_hash Audit.demo_digest plain_format
           demo_core empty_memory demo_context false demo_readings).
  vm_compute. reflexivity.
Defined.

(** The same request, seen from the registration of the authentication
    check. *)
Lemma request_without_token_is_refused_witness :
  let run := demo_execute demo_core empty_memory demo_context false false
               demo_readings in
  success (result run) = false /\
  error (result run) = Some msg_security_refused /\
  error_stage (result run) = Some SECURITY_CHECK /\
  output (result run) = [] /\
  (exists report,
     security_report (result run) = Some report /\
     Security.overall_passed report = false /\
     Security.risk_level report = lit "critical") /\
  ran run = [] /\
  _stats (core_after run) = _stats demo_core.
Proof.
  apply (@request_without_token_is_refused ascii_only_tables plain_rendering
           ModeEngine.no_regex ModeEngine.zero_hash Audit.demo_digest plain_format
           demo_core empty_memory [] demo_context false demo_readings).
  reflexivity.
Defined.

(** A request that the gate marks HIGH is executed and answered as a
    success: the report in the result has not passed, the template of the
    executor is in the output, and the one placeholder, for which there is
    no rule, is left in it. *)
Example high_risk_request_succeeds :
  let run := demo_execute high_risk_core empty_memory demo_context false false
               demo_readings in
  (Security.overall_passed <$> security_report (result run)) = Some false /\
  (Security.risk_level <$> security_report (result run)) = Some (lit "high") /\
  success (result run) = true /\
  output (result run) = lit "Balance: {{user.balance}}" /\
  overwrite_stats (result run) =
    Some [(lit "total", PyInt 1); (lit "success", PyInt 0); (lit "failed", PyInt 1);
          (lit "time_ms", PyFloat 0)] /\
  successful (_stats (core_after run)) = 1%nat.
Proof. vm_compute. done. Qed.

Lemma only_critical_risk_blocks_witness :
  let run := demo_execute high_risk_core empty_memory demo_context false false
               demo_readings in
  let raw_output := lit "Balance: {{user.balance}}" in
  success (result run) = true /\
  error (result run) = None /\
  security_report (result run) =
    Some (demo_report high_risk_core demo_context demo_readings) /\
  output (result run) =
    Overwrite.final_output
      (@overwritten ascii_only_tables plain_rendering high_risk_core demo_context
         raw_output) /\
  ran run =
    [RanExecutor
       (ModeEngine.mode
          (@decision_of ascii_only_tables ModeEngine.no_regex ModeEngine.zero_hash
             high_risk_core demo_context));
     RanOverwrite raw_output] /\
  total_executions (_stats (core_after run)) =
    S (total_executions (_stats high_risk_core)) /\
  successful (_stats (core_after run)) = S (successful (_stats high_risk_core)) /\
  failed (_stats (core_after run)) = failed (_stats high_risk_core).
Proof.
  apply (@only_critical_risk_blocks ascii_only_tables plain_rendering
           ModeEngine.no_regex ModeEngine.zero_hash Audit.demo_digest plain_format
           high_risk_core empty_memory demo_context false false demo_readings
           (lit "Balance: {{user.balance}}")).
  - intros _. vm_compute. discriminate.
  - vm_compute. reflexivity.
Defined.

(** With the security stage skipped, the core of the examples has no
    executor to run, and one that raises gives its text. *)
Lemma failed_execution_is_reported_witness :
  let core := register_executor demo_core ModeEngine.CLOUD_SANDBOX failing_executor in
  let run := demo_execute core empty_memory demo_context true false demo_readings in
  success (result run) = false /\
  error (result run) = Some (lit "model unavailable") /\
  error_stage (result run) = Some EXECUTING /\
  security_report (result run) = None /\
  output (result run) = [] /\
  Forall (fun ev => match ev with RanOverwrite _ => False | _ => True end)
         (ran run) /\
  total_executions (_stats (core_after run)) = S (total_executions (_stats core)) /\
  successful (_stats (core_after run)) = successful (_stats core) /\
  failed (_stats (core_after run)) = S (failed (_stats core)).
Proof.
  apply (@failed_execution_is_reported ascii_only_tables plain_rendering
           ModeEngine.no_regex ModeEngine.zero_hash Audit.demo_digest plain_format
           (register_executor demo_core ModeEngine.CLOUD_SANDBOX failing_executor)
           empty_memory demo_context true false demo_readings
           (lit "model unavailable")).
  - discriminate.
  - vm_compute. reflexivity.
Defined.

Example missing_executor_is_reported :
  let run := demo_execute demo_core empty_memory demo_context true false
               demo_readings in
  error (result run) =
    Some (msg_no_executor ++ lit "cloud_sandbox" ++ msg_executor) /\
  error_stage (result run) = Some EXECUTING /\
  failed (_stats (core_after run)) = 1%nat /\
  by_mode (_stats (core_after run)) =
    [(lit "cloud_sandbox", {| ms_total := 1; ms_success := 0 |})].
Proof. vm_compute. done. Qed.

(** The core of the examples after a request that ran and one that was
    refused. *)
Definition served_core : SoulCore * memory :=
  let core := register_executor demo_core ModeEngine.CLOUD_SANDBOX
                template_executor in
  let first := demo_execute core empty_memory demo_context true false
                 demo_readings in
  let second := demo_execute (core_after first) (memory_after first) demo_context
                  false false demo_readings in
  (core_after second, memory_after second).

Lemma core_statistics_add_up_witness :
  let st := _stats served_core.1 in
  total_executions st = (successful st + failed st)%nat /\
  sum_list (map (fun kv => ms_total kv.2) (by_mode st)) = total_executions st /\
  sum_list (map (fun kv => ms_success kv.2) (by_mode st)) = successful st /\
  NoDup (map fst (by_mode st)) /\
  (forall rate, success_rate (get_stats served_core.1 served_core.2) = Some rate ->
                (0 <= rate <= 1)%Q).
Proof.
  apply (@core_statistics_add_up ascii_only_tables plain_rendering
           ModeEngine.no_regex ModeEngine.zero_hash Audit.demo_digest plain_format
           served_core.1 served_core.2).
  unfold served_core, demo_execute. cbv zeta. cbn [fst snd].
  apply reachable_execute, reachable_execute, reachable_register_executor.
  apply reachable_new.
Defined.

Lemma core_audit_chain_verifies_witness :
  @verify_audit_chain Audit.demo_digest served_core.1 served_core.2 = true /\
  (forall chain, audit_chain served_core.1 = Some chain ->
     Audit.total_entries
       (@Audit.verify_chain Audit.demo_digest (objects served_core.2) chain) =
       length (Audit._entries chain) /\
     Audit.broken_at
       (@Audit.verify_chain Audit.demo_digest (objects served_core.2) chain) = None).
Proof.
  apply (@core_audit_chain_verifies ascii_only_tables plain_rendering
           ModeEngine.no_regex ModeEngine.zero_hash Audit.demo_digest plain_format
           served_core.1 served_core.2).
  unfold served_core, demo_execute. cbv zeta. cbn [fst snd].
  apply reachable_execute, reachable_execute, reachable_register_executor.
  apply reachable_new.
Defined.

(** The trail of the two requests: five entries for the one that ran, two
    for the one that was refused. *)
Example served_core_trail :
  let chain := default (Audit.new_chain []) (audit_chain served_core.1) in
  map (fun l => Audit.action (objects served_core.2 l)) (Audit._entries chain) =
    [lit "mode_decision"; lit "execution_start"; lit "execution_end";
     lit "data_overwrite"; lit "mode_decision"; lit "security_check"] /\
  _stats served_core.1 =
    {| total_executions := 1; successful := 1; failed := 0;
       by_mode := [(lit "cloud_sandbox", {| ms_total := 1; ms_success := 1 |})] |}.
Proof. vm_compute. done. Qed.

End Core.
